(** * Moving average over a trading calendar

    A shallow embedding of the class [MovingAverage] of
    [backtrack_large_window_to_csv.py]: the bounded sample store with its
    tiered downsampling ([Update]), the trading-calendar test
    ([is_trading_time]), the forward-fill price lookup
    ([_find_price_at_time]) and the backward-walking window aggregator
    ([GetSMA], behind [Get]); then the CSV audit log ([log_to_csv]) and,
    of the driver, the test data ([generate_test_data]) and the start
    time and loop of [main].

    Modelling conventions.
    - Python floats (timestamps, prices, the window) are exact rationals
      [Q]; comparisons are the boolean tests of [QArith]; the literal [0.1]
      is [1#10].  The operations on them are exact.  [binary64] gives the
      double nearest to a rational: a property that the rounding of
      [now - window] or of the sum of the prices could break says, as a
      hypothesis, where that rounding changes nothing.
    - Python ints (the capacity [num_bin], counters, list indices) are [Z].
    - A [date] is its day number counted from 1970-01-01, so that
      [strftime('%Y-%m-%d')] followed by [strptime] is the identity on the
      date; a [datetime] is a date with hour, minute, second, microsecond.
    - The local time zone of [datetime.fromtimestamp] is a fixed offset
      [tz] (seconds east of UTC), a parameter of the whole development;
      [fromtimestamp] is total, the [ValueError] it raises outside the
      years 1 to 9999 is not modelled.
    - [while] loops are fuel-indexed and return [None] when the fuel runs
      out; an [IndexError] is [None] as well.  The fuel [enough_fuel]
      is shown to suffice for every state.
    - [GetSMA] gives the value returned and leaves out the CSV audit log;
      [GetSMA_logged] adds [timestamps_for_log] and the rows handed to the
      writer, a row being the values of its columns before they are
      formatted as text.  The bookkeeping of [GetSMA] that feeds nothing
      ([found_sessions], [found_dates], [is_cross_session],
      [is_cross_day]) is left out of both.
    - The draws of [random] in [generate_test_data] are parameters.
      Console input and output and the handling of the log file
      ([get_user_input], [set_log_file], [close_log_file], the prompts
      and prints of [main]) are not modelled. *)

From Stdlib Require Import ZArith QArith Qround Qabs Qpower List Sorted Bool.
From Stdlib Require Import Lia Lqa.
Import ListNotations.

Local Open Scope Z_scope.

(** ** Python built-ins used by the class *)

Definition Qlt_bool (x y : Q) : bool := negb (Qle_bool y x).

(** [round(x)] to the nearest integer, ties to the even one: the rounding
    mode [datetime.fromtimestamp] applies to the microseconds. *)
Definition round_half_even (x : Q) : Z :=
  let f := Qfloor x in
  match Qcompare (x - inject_Z f) (1 # 2) with
  | Lt => f
  | Gt => f + 1
  | Eq => if Z.even f then f else f + 1
  end.

(** The exponent [e] of a non-zero [x]: [2^e <= |x| < 2^(e+1)]. *)
Definition binade (x : Q) : Z :=
  let e0 := Z.log2 (Z.abs (Qnum x)) - Z.log2 (Zpos (Qden x)) in
  if Qlt_bool (Qabs x) (Qpower 2 e0) then e0 - 1 else e0.

(** The double nearest to [x], ties to the even significand: what a float
    operation returns when its exact result is [x].  The significand has
    53 bits, the least exponent of a unit in the last place is -1074;
    overflow to infinity is not modelled. *)
Definition binary64 (x : Q) : Q :=
  if Qeq_bool x 0 then 0%Q
  else
    let ulp := Qpower 2 (Z.max (binade x - 52) (-1074)) in
    (inject_Z (round_half_even (x / ulp)) * ulp)%Q.

(** [l[i]] with Python's negative indices; [None] is [IndexError]. *)
Definition py_index {A : Type} (l : list A) (i : Z) : option A :=
  let n := Z.of_nat (length l) in
  if (0 <=? i) && (i <? n) then nth_error l (Z.to_nat i)
  else if (- n <=? i) && (i <? 0) then nth_error l (Z.to_nat (n + i))
  else None.

(** [l[-1] = x]; [None] is [IndexError] on the empty list. *)
Definition set_last {A : Type} (l : list A) (x : A) : option (list A) :=
  match l with
  | [] => None
  | _ => Some (removelast l ++ [x])
  end.

(** [[f(i) for i in range(n)]]. *)
Definition py_range (n : Z) : list Z :=
  map Z.of_nat (seq 0 (Z.to_nat n)).

(** [l[a:b]] and [l[a:]] for [0 <= a <= b]. *)
Definition slice {A : Type} (l : list A) (a b : Z) : list A :=
  firstn (Z.to_nat b - Z.to_nat a) (skipn (Z.to_nat a) l).

Definition slice_from {A : Type} (l : list A) (a : Z) : list A :=
  skipn (Z.to_nat a) l.

(** [[l[i] for i in idx]]. *)
Fixpoint pick {A : Type} (l : list A) (idx : list Z) : option (list A) :=
  match idx with
  | [] => Some []
  | i :: rest =>
      match py_index l i, pick l rest with
      | Some x, Some xs => Some (x :: xs)
      | _, _ => None
      end
  end.

(** [sorted]: the stable sort, as an insertion sort that puts an element
    before the first one it does not exceed. *)
Section Sorted.
Context {A : Type} (leb : A -> A -> bool).

Fixpoint insert_sorted (x : A) (l : list A) : list A :=
  match l with
  | [] => [x]
  | y :: l' => if leb x y then x :: l else y :: insert_sorted x l'
  end.

Fixpoint sorted (l : list A) : list A :=
  match l with
  | [] => []
  | x :: l' => insert_sorted x (sorted l')
  end.
End Sorted.

(** ** Samples and the engine state *)

Definition Sample : Type := (Q * Q)%type.

(** [key=lambda x: x[0]]. *)
Definition key_leb (a b : Sample) : bool := Qle_bool (fst a) (fst b).

(** Tuple order of [sorted(self.data)]: timestamp first, then price. *)
Definition tuple_leb (a b : Sample) : bool :=
  Qlt_bool (fst a) (fst b)
  || (Qeq_bool (fst a) (fst b) && Qle_bool (snd a) (snd b)).

(** Tuple equality of [x in l]. *)
Definition sample_eqb (a b : Sample) : bool :=
  Qeq_bool (fst a) (fst b) && Qeq_bool (snd a) (snd b).

Definition py_in (x : Sample) (l : list Sample) : bool :=
  existsb (sample_eqb x) l.

Record MovingAverage : Type := mkMA {
  num_bin : Z;
  window : Q;
  data : list Sample;
  current_timestamp : option Q
}.

(** [MovingAverage(num_bin, window)]. *)
Definition init (nb : Z) (w : Q) : MovingAverage :=
  mkMA nb w [] None.

(** ** Update: append, then downsample when over capacity *)

(** [[i * len(part) // keep for i in range(keep)]]. *)
Definition sample_indices (part_len keep : Z) : list Z :=
  map (fun i => i * part_len / keep) (py_range keep).

Definition sample_part (part : list Sample) (keep : Z) : option (list Sample) :=
  match part with
  | [] => Some []
  | _ => pick part (sample_indices (Z.of_nat (length part)) keep)
  end.

(** [int(n * 0.2)], [int(n * 0.5)], [int(n * 0.1)], [int(n * 0.3)]: the
    float product truncated towards zero.  The product of an int below
    2^50 with these literals rounds to a float with the same integer part
    as the exact product, so truncated integer division gives the value. *)
Definition int_mul_02 (n : Z) : Z := Z.quot n 5.
Definition int_mul_05 (n : Z) : Z := Z.quot n 2.
Definition int_mul_01 (n : Z) : Z := Z.quot n 10.
Definition int_mul_03 (n : Z) : Z := Z.quot (3 * n) 10.

Definition downsample (nb : Z) (d : list Sample) : option (list Sample) :=
  let data_length := Z.of_nat (length d) in
  let sorted_data := sorted key_leb d in
  let early_end := int_mul_02 data_length in
  let mid_end := int_mul_05 data_length in
  let early_keep := Z.max 1 (int_mul_01 nb) in
  let mid_keep := Z.max 1 (int_mul_03 nb) in
  let recent_keep := nb - early_keep - mid_keep in
  match sample_part (slice sorted_data 0 early_end) early_keep,
        sample_part (slice sorted_data early_end mid_end) mid_keep,
        sample_part (slice_from sorted_data mid_end) recent_keep with
  | Some early_sampled, Some mid_sampled, Some recent_sampled =>
      let d' := early_sampled ++ mid_sampled ++ recent_sampled in
      match py_index sorted_data (-1) with
      | Some newest =>
          if negb (py_in newest d') then set_last d' newest else Some d'
      | None => Some d'
      end
  | _, _, _ => None
  end.

(** [Update(timestamp, value)]. *)
Definition Update (st : MovingAverage) (timestamp value : Q)
  : option MovingAverage :=
  let d := data st ++ [(timestamp, value)] in
  if Z.of_nat (length d) >? num_bin st then
    match downsample (num_bin st) d with
    | Some d' => Some (mkMA (num_bin st) (window st) d' (Some timestamp))
    | None => None
    end
  else Some (mkMA (num_bin st) (window st) d (Some timestamp)).

(** A sequence of [Update] calls, oldest first. *)
Fixpoint Updates (st : MovingAverage) (ups : list Sample)
  : option MovingAverage :=
  match ups with
  | [] => Some st
  | (t, v) :: rest =>
      match Update st t v with
      | Some st' => Updates st' rest
      | None => None
      end
  end.

(** ** Price lookup *)

(** The first loop of [_find_price_at_time]: the first stored sample, in
    storage order, within 0.1 s of the instant. *)
Definition near (timestamp : Q) (s : Sample) : bool :=
  Qlt_bool (Qabs (fst s - timestamp)) (1 # 10).

(** The second loop: the last sample of the sorted list that is not after
    the instant. *)
Fixpoint scan_prev (sorted_data : list Sample) (timestamp : Q)
    (prev : option Sample) : option Sample :=
  match sorted_data with
  | [] => prev
  | (ts, price) :: rest =>
      if Qlt_bool timestamp ts then prev
      else scan_prev rest timestamp (Some (ts, price))
  end.

Definition _find_price_at_time (st : MovingAverage) (timestamp : Q)
    (default_price : Q) : Q :=
  match data st with
  | [] => default_price
  | _ =>
      match find (near timestamp) (data st) with
      | Some (_, price) => price
      | None =>
          let sorted_data := sorted tuple_leb (data st) in
          match sorted_data with
          | (ts0, _) :: _ =>
              if Qlt_bool timestamp ts0 then 0
              else
                match scan_prev sorted_data timestamp None with
                | Some (_, prev_price) => prev_price
                | None => 0
                end
          | [] =>
              match scan_prev sorted_data timestamp None with
              | Some (_, prev_price) => prev_price
              | None => 0
              end
          end
      end
  end.

(** ** Dates and times *)

Record datetime : Type := mkDT {
  dt_date : Z;
  dt_hour : Z;
  dt_minute : Z;
  dt_second : Z;
  dt_microsecond : Z
}.

(** [date.weekday()]: Monday is 0; 1970-01-01 was a Thursday. *)
Definition weekday (d : Z) : Z := (d + 3) mod 7.

(** Microseconds of local time since 1970-01-01 00:00:00: the order of
    [datetime] values is the order of these numbers. *)
Definition dt_micros (dt : datetime) : Z :=
  (((dt_date dt * 24 + dt_hour dt) * 60 + dt_minute dt) * 60
   + dt_second dt) * 1000000 + dt_microsecond dt.

Definition dt_leb (a b : datetime) : bool := dt_micros a <=? dt_micros b.

(** [date(y, m, d)] of the proleptic Gregorian calendar, as a day number. *)
Definition date (y m d : Z) : Z :=
  let y' := if m <=? 2 then y - 1 else y in
  let era := y' / 400 in
  let yoe := y' - era * 400 in
  let doy := (153 * (if m <=? 2 then m + 9 else m - 3) + 2) / 5 + d - 1 in
  let doe := yoe * 365 + yoe / 4 - yoe / 100 + doy in
  era * 146097 + doe - 719468.

(** A time of day as written in [trading_hours], hours, minutes, seconds. *)
Definition hms : Type := (Z * Z * Z)%type.

Record TradingHours : Type := mkTH {
  morning_start : hms;
  morning_end : hms;
  afternoon_start : hms;
  afternoon_end : hms
}.

Definition trading_hours : TradingHours :=
  mkTH (9, 30, 0) (11, 30, 0) (13, 0, 0) (15, 0, 0).

(** [datetime.strptime(f"{date_str} {hms}", "%Y-%m-%d %H:%M:%S")]. *)
Definition strptime (date : Z) (t : hms) : datetime :=
  let '(h, m, s) := t in mkDT date h m s 0.

Section LocalTime.
(** Offset of local time from UTC, in seconds. *)
Variable tz : Z.

(** [datetime.fromtimestamp(ts)]. *)
Definition fromtimestamp (ts : Q) : datetime :=
  let us := round_half_even (ts * 1000000) + tz * 1000000 in
  mkDT (us / 86400000000)
       (us mod 86400000000 / 3600000000)
       (us mod 3600000000 / 60000000)
       (us mod 60000000 / 1000000)
       (us mod 1000000).

(** [dt.timestamp()] of a naive local datetime. *)
Definition timestamp (dt : datetime) : Q :=
  (dt_micros dt # 1000000) - inject_Z tz.

(** [is_trading_time(timestamp)]. *)
Definition is_trading_time (ts : Q) : bool :=
  let dt := fromtimestamp ts in
  let date_str := dt_date dt in
  if weekday (dt_date dt) >=? 5 then false
  else
    let ms := strptime date_str (morning_start trading_hours) in
    let me := strptime date_str (morning_end trading_hours) in
    let as_ := strptime date_str (afternoon_start trading_hours) in
    let ae := strptime date_str (afternoon_end trading_hours) in
    (dt_leb ms dt && dt_leb dt me) || (dt_leb as_ dt && dt_leb dt ae).

(** The loop [while prev_day.weekday() >= 5: prev_day -= timedelta(days=1)]. *)
Fixpoint skip_weekend (fuel : nat) (prev_day : Z) : option Z :=
  if weekday prev_day >=? 5 then
    match fuel with
    | O => None
    | S fuel' => skip_weekend fuel' (prev_day - 1)
    end
  else Some prev_day.
End LocalTime.

(** ** The window aggregator *)

Section Aggregator.
Variable tz : Z.

(** Iterations the weekend-skipping loop may use: it stops at the first
    weekday, and a week has seven days. *)
Definition week_fuel : nat := 7.

(** The date [prev_day] both walks jump to: the day before, moved back
    over Saturdays and Sundays. *)
Definition previous_trading_day (check_day : Z) : option Z :=
  skip_weekend week_fuel (check_day - 1).

(** The accumulation done at a trading instant: resolve the price and
    count it when positive. *)
Definition add_point (st : MovingAverage) (current_price check_time : Q)
    (acc : Q * Z) : Q * Z :=
  let price_at_time := _find_price_at_time st check_time current_price in
  if Qlt_bool 0 price_at_time
  then ((fst acc + price_at_time)%Q, snd acc + 1)
  else acc.

(** [jump_to_time] of the primary walk; the outer [None] is fuel, the
    inner one Python's [None]. *)
Definition primary_jump_to_time (check_time : Q) : option (option Q) :=
  let check_dt := fromtimestamp tz check_time in
  let check_date := dt_date check_dt in
  let check_hour := dt_hour check_dt in
  if (11 <=? check_hour) && (check_hour <? 13) then
    Some (Some (timestamp tz (strptime check_date (morning_end trading_hours))))
  else if (check_hour <? 9) || (check_hour >=? 15) then
    match previous_trading_day check_date with
    | Some prev_day =>
        Some (Some (timestamp tz
                      (strptime prev_day (afternoon_end trading_hours))))
    | None => None
    end
  else Some None.

(** [jump_to_time] of the continuation walk: no midday branch. *)
Definition continuation_jump_to_time (check_time : Q) : option (option Q) :=
  let check_dt := fromtimestamp tz check_time in
  let check_date := dt_date check_dt in
  let check_hour := dt_hour check_dt in
  if (check_hour <? 9) || (check_hour >=? 15) then
    match previous_trading_day check_date with
    | Some prev_day =>
        Some (Some (timestamp tz
                      (strptime prev_day (afternoon_end trading_hours))))
    | None => None
    end
  else Some None.

(** The tail of a loop body, after [check_time -= 1]: the cursor the next
    iteration starts from. *)
Definition jump (jump_to_time : Q -> option (option Q)) (check_time : Q)
  : option Q :=
  if negb (is_trading_time tz check_time) && Qlt_bool 0 check_time then
    match jump_to_time check_time with
    | Some (Some j) => if Qlt_bool j check_time then Some j else Some check_time
    | Some None => Some check_time
    | None => None
    end
  else Some check_time.

(** The primary walk: [while check_time >= window_start and check_time >= 0]. *)
Fixpoint primary_walk (fuel : nat) (st : MovingAverage)
    (window_start current_price check_time : Q) (acc : Q * Z)
  : option (Q * Z) :=
  if Qle_bool window_start check_time && Qle_bool 0 check_time then
    match fuel with
    | O => None
    | S fuel' =>
        let acc :=
          if is_trading_time tz check_time
          then add_point st current_price check_time acc
          else acc in
        let check_time := (check_time - 1)%Q in
        match jump primary_jump_to_time check_time with
        | Some check_time =>
            primary_walk fuel' st window_start current_price check_time acc
        | None => None
        end
    end
  else Some acc.

(** The continuation walk:
    [while check_time >= 0 and remaining_seconds > 0]. *)
Fixpoint continuation_walk (fuel : nat) (st : MovingAverage)
    (current_price check_time remaining_seconds : Q) (acc : Q * Z)
  : option (Q * Z) :=
  if Qle_bool 0 check_time && Qlt_bool 0 remaining_seconds then
    match fuel with
    | O => None
    | S fuel' =>
        let '(acc, remaining_seconds) :=
          if is_trading_time tz check_time
          then (add_point st current_price check_time acc,
                (remaining_seconds - 1)%Q)
          else (acc, remaining_seconds) in
        let check_time := (check_time - 1)%Q in
        match jump continuation_jump_to_time check_time with
        | Some check_time =>
            continuation_walk fuel' st current_price check_time
                              remaining_seconds acc
        | None => None
        end
    end
  else Some acc.

(** [not self.current_timestamp]: [None] and zero are both falsy. *)
Definition no_timestamp (st : MovingAverage) : bool :=
  match current_timestamp st with
  | None => true
  | Some t => Qeq_bool t 0
  end.

(** [self.data[-1][1] if self.data else 100.0]. *)
Definition current_price_of (st : MovingAverage) : Q :=
  match py_index (data st) (-1) with
  | Some (_, p) => p
  | None => 100
  end.

(** [current_session == "afternoon"], that is [not (current_dt.hour < 12)]. *)
Definition is_afternoon_session (now : Q) : bool :=
  negb (dt_hour (fromtimestamp tz now) <? 12).

(** The test that starts the continuation walk. *)
Definition continuation_runs (st : MovingAverage) (now : Q) (acc : Q * Z)
  : bool :=
  is_afternoon_session now && Qlt_bool (inject_Z (snd acc)) (window st).

(** [total_price / valid_points_count if valid_points_count > 0 else 0.0]. *)
Definition sma_of (acc : Q * Z) : Q :=
  if 0 <? snd acc then fst acc / inject_Z (snd acc) else 0.

(** [GetSMA()]. *)
Definition GetSMA (fuel : nat) (st : MovingAverage) : option Q :=
  if no_timestamp st then Some 0%Q
  else
    match current_timestamp st with
    | None => Some 0%Q
    | Some now =>
        let window_start := (now - window st)%Q in
        let current_price := current_price_of st in
        let current_date := dt_date (fromtimestamp tz now) in
        match primary_walk fuel st window_start current_price now (0%Q, 0) with
        | None => None
        | Some acc =>
            if continuation_runs st now acc then
              let morning_end_ts :=
                timestamp tz (strptime current_date
                                       (morning_end trading_hours)) in
              let remaining_seconds := (window st - inject_Z (snd acc))%Q in
              match continuation_walk fuel st current_price morning_end_ts
                                      remaining_seconds acc with
              | Some acc' => Some (sma_of acc')
              | None => None
              end
            else Some (sma_of acc)
        end
    end.

(** [Get()]. *)
Definition Get (fuel : nat) (st : MovingAverage) : option Q :=
  GetSMA fuel st.
End Aggregator.

(** * Vocabulary of the properties *)

Definition key_le (a b : Sample) : Prop := (fst a <= fst b)%Q.

(** What holds of the store after the samples [seen] have been inserted:
    it is within capacity, it holds only inserted samples, and it holds one
    whose timestamp no inserted sample exceeds. *)
Definition store_inv (nb : Z) (seen : list Sample) (st : MovingAverage) : Prop :=
  num_bin st = nb /\
  Z.of_nat (length (data st)) <= nb /\
  (forall x, In x (data st) -> In x seen) /\
  (seen <> [] ->
   exists s, In s (data st) /\ forall u, In u seen -> (fst u <= fst s)%Q).

(** Twelve updates with increasing timestamps into a store of capacity 5. *)
Definition twelve_updates : list Sample :=
  map (fun k => (inject_Z (1743730200 + Z.of_nat k), inject_Z (Z.of_nat k)))
      (seq 1 12).

Definition in_session (s : Z) : bool :=
  ((34200 <=? s) && (s <=? 41400)) || ((46800 <=? s) && (s <=? 54000)).

(** The [k] whole seconds [c], [c - 1], ... *)
Definition down_from (c : Z) (k : nat) : list Z :=
  map (fun i => c - Z.of_nat i) (seq 0 k).

(** The number of trading instants a continuation walk with
    [remaining_seconds = r] may visit: the loop runs while [r > 0] and
    takes 1 off at each of them. *)
Definition budget (r : Q) : nat := Z.to_nat (Qceiling r).

(** [sum(ps)]. *)
Definition Qsum (ps : list Q) : Q := fold_right Qplus 0%Q ps.

(** The arithmetic mean, 0 for no values. *)
Definition mean_of (ps : list Q) : Q :=
  match ps with
  | [] => 0%Q
  | _ => (Qsum ps / inject_Z (Z.of_nat (length ps)))%Q
  end.

(** The instants [now - k], [k = 0, 1, 2, ...], that lie in
    [[now - window, now]] and are not before the epoch. *)
Definition window_seconds (now window : Q) : list Q :=
  filter (Qle_bool 0)
         (map (fun k => (now - inject_Z k)%Q) (py_range (Qfloor window + 1))).

(** Iterations a walk from [check_time] can take: the cursor loses at
    least one second per iteration and the loop stops below 0. *)
Definition walk_fuel (check_time : Q) : nat :=
  Z.to_nat (Qfloor check_time + 1).

Section Vocabulary.
Variable tz : Z.
Variable st : MovingAverage.
Variable cp : Q.

(** Day number and second of the day, in local time, of the instant [n]
    seconds after the epoch. *)
Definition day_of (n : Z) : Z := (n + tz) / 86400.

Definition tod (n : Z) : Z := (n + tz) mod 86400.

(** The instant of local time [s] seconds into day [d]. *)
Definition at_day (d s : Z) : Z := 86400 * d + s - tz.

Definition trading_second (n : Z) : bool :=
  (weekday (day_of n) <? 5) && in_session (tod n).

(** The whole second [c] lies after the 15:00:00 close of a Monday to
    Friday, on that day. *)
Definition after_close (c : Z) : Prop :=
  weekday (day_of c) < 5 /\ 54000 < tod c.

(** A cursor from which the walks never step into the evening of a
    trading day: the second before it does not lie after the close of a
    Monday to Friday, or it is not after the epoch. *)
Definition safe (c : Z) : Prop := c <= 0 \/ ~ after_close (c - 1).

(** No trading second lies in [(j, c]]. *)
Definition quiet (j c : Z) : Prop :=
  forall t, j < t <= c -> trading_second t = false.

(** What the walks need of a [jump_to_time] at a non-trading whole
    second [c] after the epoch that does not lie after the close of a
    Monday to Friday: a target below [c] skips no trading second and is a
    safe cursor, and where no jump happens [c] is not before 09:00:00. *)
Definition jump_to_time_ok (jump_to_time : Q -> option (option Q)) : Prop :=
  forall (q : Q) (c : Z),
    (q == inject_Z c)%Q -> trading_second c = false -> 0 < c ->
    ~ after_close c ->
    exists r,
      jump_to_time q = Some r /\
      match r with
      | None => 32400 <= tod c
      | Some tq =>
          exists tj, (tq == inject_Z tj)%Q /\
                     (tj < c -> quiet tj c /\ safe tj) /\
                     (c <= tj -> 32400 <= tod c)
      end.

(** One instant of a walk: counted when it is a trading instant with a
    positive price. *)
Definition visit (acc : Q * Z) (t : Q) : Q * Z :=
  if is_trading_time tz t then add_point st cp t acc else acc.

Definition visit_all (l : list Q) (acc : Q * Z) : Q * Z :=
  fold_left visit l acc.

(** The trading instants among the whole seconds [c], [c - 1], ..., 0,
    latest first. *)
Definition trading_seconds_back (c : Z) : list Q :=
  filter (is_trading_time tz)
         (map inject_Z (down_from c (Z.to_nat (c + 1)))).

(** The forward-fill-resolved price at an instant. *)
Definition price (t : Q) : Q := _find_price_at_time st t (current_price_of st).

(** A valid second: a trading instant whose resolved price is positive,
    that is, not the 0 sentinel. *)
Definition contributes (t : Q) : bool :=
  is_trading_time tz t && Qlt_bool 0 (price t).

Definition contributing_seconds (now : Q) : list Q :=
  filter contributes (window_seconds now (window st)).

(** The mean the glossary describes: over the valid trading seconds of
    the trailing window. *)
Definition window_mean (now : Q) : Q :=
  mean_of (map price (contributing_seconds now)).

(** The whole second of 11:30:00 on the local day of [now]. *)
Definition morning_close (now : Q) : Z :=
  at_day (dt_date (fromtimestamp tz now)) 41400.

(** The seconds the continuation walk visits once the window has given
    [count] contributing seconds: the latest trading seconds at or before
    the morning close, as many as the remaining budget allows. *)
Definition continuation_seconds (now : Q) : list Q :=
  let count := Z.of_nat (length (contributing_seconds now)) in
  firstn (budget (window st - inject_Z count))
         (trading_seconds_back (morning_close now)).

(** Where the continuation walk starts: 11:30:00 of the local day of
    [now]. *)
Definition morning_end_ts (now : Q) : Q :=
  timestamp tz (strptime (dt_date (fromtimestamp tz now))
                         (morning_end trading_hours)).

(** Fuel that lets both walks of [GetSMA] run to their end. *)
Definition enough_fuel : nat :=
  match current_timestamp st with
  | None => 0%nat
  | Some now => Nat.max (walk_fuel now) (walk_fuel (morning_end_ts now))
  end.

End Vocabulary.

(** The Afternoon session of the data model: a weekday, local time in
    [[13:00:00, 15:00:00]]. *)
Definition afternoon_session (tz : Z) (now : Q) : bool :=
  let dt := fromtimestamp tz now in
  (weekday (dt_date dt) <? 5)
  && dt_leb (strptime (dt_date dt) (afternoon_start trading_hours)) dt
  && dt_leb dt (strptime (dt_date dt) (afternoon_end trading_hours)).

(** ** Vocabulary of the further properties *)

(** The order of [sorted(self.data)] on tuples. *)
Definition tuple_le (a b : Sample) : Prop :=
  (fst a < fst b)%Q \/ ((fst a == fst b)%Q /\ (snd a <= snd b)%Q).

(** Microseconds of local time at an instant, as [fromtimestamp] rounds
    it. *)
Definition local_micros (tz : Z) (ts : Q) : Z :=
  round_half_even (ts * 1000000) + tz * 1000000.

(** The two sessions as microseconds of the day: 09:30:00 to 11:30:00
    and 13:00:00 to 15:00:00, ends included. *)
Definition session_micros (m : Z) : Prop :=
  34200000000 <= m <= 41400000000 \/ 46800000000 <= m <= 54000000000.

(** ** The CSV audit log *)

(** [round(x, ndigits)] for the [ndigits] in use, 1 and 2. *)
Definition py_round (x : Q) (ndigits : Z) : Q :=
  (inject_Z (round_half_even (x * inject_Z (10 ^ ndigits)))
   / inject_Z (10 ^ ndigits))%Q.

(** [min(l, key=key)] once a first element is at hand: the first element
    with the least key. *)
Fixpoint min_from (key : Q -> Q) (best : Q) (l : list Q) : Q :=
  match l with
  | [] => best
  | x :: l' =>
      min_from key (if Qlt_bool (key x) (key best) then x else best) l'
  end.

(** [min(l, key=key)]; [None] is the [ValueError] on an empty list. *)
Definition py_min (key : Q -> Q) (l : list Q) : option Q :=
  match l with
  | [] => None
  | x :: l' => Some (min_from key x l')
  end.

(** [enumerate(l)] counted from [i]. *)
Fixpoint enumerate_from {A : Type} (i : Z) (l : list A) : list (Z * A) :=
  match l with
  | [] => []
  | x :: l' => (i, x) :: enumerate_from (i + 1) l'
  end.

(** The label of the session column: the morning label for an hour below
    12, the afternoon label otherwise. *)
Inductive Session : Type := Morning | Afternoon.

Definition Session_eqb (a b : Session) : bool :=
  match a, b with
  | Morning, Morning | Afternoon, Afternoon => true
  | _, _ => false
  end.

(** One row of the log, a field per column and in the order of
    [fieldnames]: the index, the timestamp, the date and time shown to
    the second, the distance to the current instant, the session label,
    the trading mark, the price, the mean, the point type (original or
    filled in), and the two marks that make up the last column (neither
    of them set stands for the same-day-same-session label). *)
Record LogRow : Type := mkRow {
  row_index : Z;
  row_timestamp : Q;
  row_datetime : Z * Z * Z * Z;
  row_time_diff : Q;
  row_session : Session;
  row_is_trading : bool;
  row_price : Q;
  row_sma : Q;
  row_is_original : bool;
  row_cross_day : bool;
  row_cross_session : bool
}.

(** [dt.strftime('%Y-%m-%d %H:%M:%S')]: the date, hour, minute, second. *)
Definition strftime_seconds (dt : datetime) : Z * Z * Z * Z :=
  (dt_date dt, dt_hour dt, dt_minute dt, dt_second dt).

(** An entry of [window_data_for_log]: [(ts, price, is_original)]. *)
Definition LogPoint : Type := (Q * Q * bool)%type.

Section Logging.
Variable tz : Z.

(** The test behind [is_original]: the stored timestamp nearest to [ts]
    lies within 0.1 s of it. *)
Definition is_original (original_timestamps : list Q) (ts : Q) : bool :=
  match py_min (fun x => Qabs (x - ts)) original_timestamps with
  | Some nearest => Qlt_bool (Qabs (ts - nearest)) (1 # 10)
  | None => false
  end.

(** The list [window_data_for_log] built at the end of [GetSMA]. *)
Definition window_data_for_log (st : MovingAverage) (current_price : Q)
    (timestamps_for_log : list Q) : list LogPoint :=
  let original_timestamps := map fst (data st) in
  map (fun ts =>
         (ts, _find_price_at_time st ts current_price,
          is_original original_timestamps ts))
      timestamps_for_log.

Definition is_morning_point (p : LogPoint) : bool :=
  let '(ts, _, _) := p in dt_hour (fromtimestamp tz ts) <? 12.

(** The body of the row-writing loop of [log_to_csv]. *)
Definition log_row (now : Q) (current_date : Z) (is_cross_day : bool)
    (is_cross_session : bool) (morning_timestamps afternoon_timestamps : Z)
    (sma : Q) (entry : Z * LogPoint) : LogRow :=
  let '(i, (ts, price, is_original)) := entry in
  let dt := fromtimestamp tz ts in
  let time_diff := (now - ts)%Q in
  let session := if dt_hour dt <? 12 then Morning else Afternoon in
  let is_trading := is_trading_time tz ts in
  let display_sma := if Qlt_bool 0 price then sma else 0%Q in
  let cross_day := is_cross_day && negb (dt_date dt =? current_date) in
  let cross_session :=
    is_cross_session
    && ((Session_eqb session Morning && (0 <? afternoon_timestamps))
        || (Session_eqb session Afternoon && (0 <? morning_timestamps))) in
  mkRow (i + 1) ts (strftime_seconds dt) (py_round time_diff 1) session
        is_trading (py_round price 2) (py_round display_sma 2) is_original
        cross_day cross_session.

(** [log_to_csv(timestamps_with_prices, sma)]: the rows handed to the
    writer.  Without a writer nothing is written; [None] is the
    [TypeError] of [fromtimestamp(None)]. *)
Definition log_to_csv (csv_writer : bool) (st : MovingAverage)
    (timestamps_with_prices : list LogPoint) (sma : Q)
  : option (list LogRow) :=
  if negb csv_writer then Some []
  else
    match current_timestamp st with
    | None => None
    | Some now =>
        let current_date := dt_date (fromtimestamp tz now) in
        let dates_in_window :=
          nodup Z.eq_dec
                (map (fun p : LogPoint =>
                        let '(ts, _, _) := p in dt_date (fromtimestamp tz ts))
                     timestamps_with_prices) in
        let is_cross_day := 1 <? Z.of_nat (length dates_in_window) in
        let morning_timestamps :=
          Z.of_nat (length (filter is_morning_point timestamps_with_prices)) in
        let afternoon_timestamps :=
          Z.of_nat (length (filter (fun p => negb (is_morning_point p))
                                   timestamps_with_prices)) in
        let is_cross_session :=
          (0 <? morning_timestamps) && (0 <? afternoon_timestamps) in
        Some (map (log_row now current_date is_cross_day is_cross_session
                           morning_timestamps afternoon_timestamps sma)
                  (enumerate_from 0 timestamps_with_prices))
    end.

(** The primary walk with the log: [timestamps_for_log] takes every
    trading instant visited when a writer is set. *)
Fixpoint primary_walk_log (csv_writer : bool) (fuel : nat)
    (st : MovingAverage) (window_start current_price check_time : Q)
    (acc : Q * Z) (timestamps_for_log : list Q)
  : option (Q * Z * list Q) :=
  if Qle_bool window_start check_time && Qle_bool 0 check_time then
    match fuel with
    | O => None
    | S fuel' =>
        let '(acc, timestamps_for_log) :=
          if is_trading_time tz check_time
          then (add_point st current_price check_time acc,
                if csv_writer then timestamps_for_log ++ [check_time]
                else timestamps_for_log)
          else (acc, timestamps_for_log) in
        let check_time := (check_time - 1)%Q in
        match jump tz (primary_jump_to_time tz) check_time with
        | Some check_time =>
            primary_walk_log csv_writer fuel' st window_start current_price
                             check_time acc timestamps_for_log
        | None => None
        end
    end
  else Some (acc, timestamps_for_log).

(** The continuation walk with the log. *)
Fixpoint continuation_walk_log (csv_writer : bool) (fuel : nat)
    (st : MovingAverage) (current_price check_time remaining_seconds : Q)
    (acc : Q * Z) (timestamps_for_log : list Q)
  : option (Q * Z * list Q) :=
  if Qle_bool 0 check_time && Qlt_bool 0 remaining_seconds then
    match fuel with
    | O => None
    | S fuel' =>
        let '(acc, timestamps_for_log, remaining_seconds) :=
          if is_trading_time tz check_time
          then (add_point st current_price check_time acc,
                if csv_writer then timestamps_for_log ++ [check_time]
                else timestamps_for_log,
                (remaining_seconds - 1)%Q)
          else (acc, timestamps_for_log, remaining_seconds) in
        let check_time := (check_time - 1)%Q in
        match jump tz (continuation_jump_to_time tz) check_time with
        | Some check_time =>
            continuation_walk_log csv_writer fuel' st current_price check_time
                                  remaining_seconds acc timestamps_for_log
        | None => None
        end
    end
  else Some (acc, timestamps_for_log).

(** The two walks of [GetSMA], one after the other, with the log. *)
Definition logged_walks (csv_writer : bool) (fuel : nat) (st : MovingAverage)
    (now : Q) : option (Q * Z * list Q) :=
  let window_start := (now - window st)%Q in
  let current_price := current_price_of st in
  let current_date := dt_date (fromtimestamp tz now) in
  match primary_walk_log csv_writer fuel st window_start current_price
                         now (0%Q, 0) [] with
  | None => None
  | Some (acc, timestamps_for_log) =>
      if continuation_runs tz st now acc then
        let morning_end_ts :=
          timestamp tz (strptime current_date (morning_end trading_hours)) in
        let remaining_seconds := (window st - inject_Z (snd acc))%Q in
        continuation_walk_log csv_writer fuel st current_price
                              morning_end_ts remaining_seconds acc
                              timestamps_for_log
      else Some (acc, timestamps_for_log)
  end.

(** The end of [GetSMA]: the rows written for the collected instants,
    none without a writer or when no trading instant was visited. *)
Definition write_log (csv_writer : bool) (st : MovingAverage)
    (timestamps_for_log : list Q) (sma : Q) : option (list LogRow) :=
  if csv_writer then
    match timestamps_for_log with
    | _ :: _ =>
        log_to_csv csv_writer st
                   (window_data_for_log st (current_price_of st)
                                        timestamps_for_log)
                   sma
    | [] => Some []
    end
  else Some [].

(** [GetSMA()] together with the rows it writes. *)
Definition GetSMA_logged (csv_writer : bool) (fuel : nat)
    (st : MovingAverage) : option (Q * list LogRow) :=
  if no_timestamp st then Some (0%Q, [])
  else
    match current_timestamp st with
    | None => Some (0%Q, [])
    | Some now =>
        match logged_walks csv_writer fuel st now with
        | None => None
        | Some (acc, timestamps_for_log) =>
            let sma := sma_of acc in
            match write_log csv_writer st timestamps_for_log sma with
            | Some rows => Some (sma, rows)
            | None => None
            end
        end
    end.
End Logging.

(** ** The driver: test data and start time *)

(** The loop [while next_day.weekday() >= 5: next_day += timedelta(days=1)]. *)
Fixpoint skip_weekend_forward (fuel : nat) (next_day : Z) : option Z :=
  if weekday next_day >=? 5 then
    match fuel with
    | O => None
    | S fuel' => skip_weekend_forward fuel' (next_day + 1)
    end
  else Some next_day.

(** The date [next_day] the driver moves to: the day after, moved on
    over Saturdays and Sundays. *)
Definition next_trading_day (current_date : Z) : option Z :=
  skip_weekend_forward week_fuel (current_date + 1).

(** The order of [dt.time()] values: microseconds into the day. *)
Definition time_micros (dt : datetime) : Z :=
  ((dt_hour dt * 60 + dt_minute dt) * 60 + dt_second dt) * 1000000
  + dt_microsecond dt.

(** [datetime.combine(d, t.time())]. *)
Definition combine (d : Z) (t : datetime) : datetime :=
  mkDT d (dt_hour t) (dt_minute t) (dt_second t) (dt_microsecond t).

(** What one iteration of the generator draws from [random]: the
    [randint(30, 600)], the [uniform(-1.0, 1.0)] and, used when the price
    falls below 90, the [uniform(0, 10)].  The generator of the seeded
    stream is not modelled: the draws are parameters. *)
Record Draw : Type := mkDraw {
  time_increment : Z;
  price_change_percent : Q;
  floor_bonus : Q
}.

(** The ranges [random] draws from. *)
Definition draw_ok (d : Draw) : Prop :=
  30 <= time_increment d <= 600 /\
  (-1 <= price_change_percent d <= 1)%Q /\
  (0 <= floor_bonus d <= 10)%Q.

Section Driver.
Variable tz : Z.

(** The first step of [generate_test_data]: a start outside trading time
    moves to the next session opening. *)
Definition adjust_start (start_timestamp : Q) : option Q :=
  if negb (is_trading_time tz start_timestamp) then
    let current_dt := fromtimestamp tz start_timestamp in
    let current_date := dt_date current_dt in
    if (dt_hour current_dt <? 9)
       || ((dt_hour current_dt =? 9) && (dt_minute current_dt <? 30)) then
      Some (timestamp tz (strptime current_date (9, 30, 0)))
    else if ((dt_hour current_dt =? 11) && (dt_minute current_dt >=? 30))
            || (dt_hour current_dt =? 12) then
      Some (timestamp tz (strptime current_date (13, 0, 0)))
    else
      match next_trading_day current_date with
      | Some next_day => Some (timestamp tz (strptime next_day (9, 30, 0)))
      | None => None
      end
  else Some start_timestamp.

(** The timestamp of the next generated point. *)
Definition next_timestamp (current_timestamp : Q) (time_increment : Z)
  : option Q :=
  let current_timestamp := (current_timestamp + inject_Z time_increment)%Q in
  if negb (is_trading_time tz current_timestamp) then
    let current_dt := fromtimestamp tz current_timestamp in
    let current_date := dt_date current_dt in
    let current_hour := dt_hour current_dt in
    let current_minute := dt_minute current_dt in
    if ((current_hour =? 11) && (current_minute >=? 30))
       || (current_hour =? 12) then
      Some (timestamp tz (strptime current_date (13, 0, 0)))
    else if (current_hour >=? 15) || (current_hour <? 9)
            || ((current_hour =? 9) && (current_minute <? 30)) then
      match next_trading_day current_date with
      | Some next_day => Some (timestamp tz (strptime next_day (9, 30, 0)))
      | None => None
      end
    else Some current_timestamp
  else Some current_timestamp.

(** The price of the next generated point. *)
Definition next_price (price : Q) (d : Draw) : Q :=
  let price := (price * (1 + price_change_percent d / 100))%Q in
  if Qlt_bool price 90 then (90 + floor_bonus d)%Q else price.

(** The loop [for i in range(1, num_points)], one draw per iteration. *)
Fixpoint generate_loop (draws : list Draw) (current_timestamp price : Q)
    (data : list Sample) : option (list Sample) :=
  match draws with
  | [] => Some data
  | d :: rest =>
      match next_timestamp current_timestamp (time_increment d) with
      | Some current_timestamp =>
          let price := next_price price d in
          generate_loop rest current_timestamp price
                        (data ++ [(current_timestamp, price)])
      | None => None
      end
  end.

(** The list [data] of [generate_test_data(start_timestamp, num_points)]
    as it stands after the loop, before the final [sorted]; [rng i] are
    the draws of iteration [i]. *)
Definition generated_points (rng : Z -> Draw) (start_timestamp : Q)
    (num_points : Z) : option (list Sample) :=
  match adjust_start start_timestamp with
  | Some start_timestamp =>
      let price := 100%Q in
      let current_timestamp := start_timestamp in
      let data := [(current_timestamp, price)] in
      generate_loop (map rng (map (Z.add 1) (py_range (num_points - 1))))
                    current_timestamp price data
  | None => None
  end.

(** [generate_test_data(start_timestamp, num_points)]: that list,
    [sorted(data, key=lambda x: x[0])]. *)
Definition generate_test_data (rng : Z -> Draw) (start_timestamp : Q)
    (num_points : Z) : option (list Sample) :=
  match generated_points rng start_timestamp num_points with
  | Some data => Some (sorted key_leb data)
  | None => None
  end.

(** The start time [main] passes on: the answer [adjust] of the user
    decides whether a start outside trading time is moved.  The inner
    [None] is the return without processing anything. *)
Definition main_start (adjust : bool) (start_timestamp : Q)
  : option (option Q) :=
  if negb (is_trading_time tz start_timestamp) then
    if negb adjust then Some None
    else
      let dt := fromtimestamp tz start_timestamp in
      let date_str := dt_date dt in
      let morning_start := strptime date_str (morning_start trading_hours) in
      let morning_end := strptime date_str (morning_end trading_hours) in
      let afternoon_start :=
        strptime date_str (afternoon_start trading_hours) in
      let afternoon_end := strptime date_str (afternoon_end trading_hours) in
      let dt_time := time_micros dt in
      if dt_time <? time_micros morning_start then
        Some (Some (timestamp tz morning_start))
      else if (time_micros morning_end <? dt_time)
              && (dt_time <? time_micros afternoon_start) then
        Some (Some (timestamp tz afternoon_start))
      else if time_micros afternoon_end <? dt_time then
        match next_trading_day (dt_date dt) with
        | Some next_day =>
            Some (Some (timestamp tz (combine next_day morning_start)))
        | None => None
        end
      else Some None
  else Some (Some start_timestamp).
End Driver.

(** Each point at least 30 s after every earlier one. *)
Definition spaced (data : list Sample) : Prop :=
  StronglySorted (fun a b : Sample => (fst a + 30 <= fst b)%Q) data.

(** What the generator loop keeps: every point at a trading instant
    between the start and the current instant, with a price of at least
    90, and the points spaced. *)
Definition generated_ok (tz : Z) (start current_timestamp : Q)
    (data : list Sample) : Prop :=
  (forall s, In s data ->
             is_trading_time tz (fst s) = true /\ (90 <= snd s)%Q /\
             (start <= fst s <= current_timestamp)%Q) /\
  spaced data.

(** * Properties *)

(** ** Boolean tests on rationals *)

Lemma Qlt_bool_iff (x y : Q) : Qlt_bool x y = true <-> (x < y)%Q.
Proof.
  unfold Qlt_bool. rewrite negb_true_iff.
  destruct (Qle_bool y x) eqn:E.
  - apply Qle_bool_iff in E. split; [discriminate | intro H; lra].
  - split; [intros _ | reflexivity].
    apply Qnot_le_lt. intro H. apply Qle_bool_iff in H. congruence.
Qed.

Lemma Qlt_bool_false_iff (x y : Q) : Qlt_bool x y = false <-> (y <= x)%Q.
Proof.
  unfold Qlt_bool. rewrite negb_false_iff. apply Qle_bool_iff.
Qed.

Lemma Qle_bool_false_iff (x y : Q) : Qle_bool x y = false <-> (y < x)%Q.
Proof.
  rewrite <- Qlt_bool_iff. unfold Qlt_bool.
  destruct (Qle_bool x y); simpl; split; congruence.
Qed.

(** ** The stable sort *)

Section SortedFacts.
Context {A : Type} (leb : A -> A -> bool).

Lemma In_insert_sorted (x y : A) (l : list A) :
  In y (insert_sorted leb x l) <-> y = x \/ In y l.
Proof.
  induction l as [|z l IH]; simpl.
  - intuition.
  - destruct (leb x z); simpl; rewrite ?IH; intuition.
Qed.

Lemma In_sorted (y : A) (l : list A) : In y (sorted leb l) <-> In y l.
Proof.
  induction l as [|x l IH]; simpl.
  - reflexivity.
  - rewrite In_insert_sorted, IH. intuition.
Qed.

Lemma length_insert_sorted (x : A) (l : list A) :
  length (insert_sorted leb x l) = S (length l).
Proof.
  induction l as [|z l IH]; simpl; [reflexivity|].
  destruct (leb x z); simpl; [reflexivity | now rewrite IH].
Qed.

Lemma length_sorted (l : list A) : length (sorted leb l) = length l.
Proof.
  induction l as [|x l IH]; simpl; [reflexivity|].
  now rewrite length_insert_sorted, IH.
Qed.
End SortedFacts.

(** ** Price lookup before the first sample *)

Lemma find_near_none (t : Q) (d : list Sample) :
  (forall s, In s d -> (t + (1 # 10) <= fst s)%Q) ->
  find (near t) d = None.
Proof.
  intro H. induction d as [|s d IH]; simpl; [reflexivity|].
  assert (Hs : (t + (1 # 10) <= fst s)%Q) by (apply H; now left).
  assert (E : near t s = false).
  { unfold near. apply Qlt_bool_false_iff.
    rewrite Qabs_pos; lra. }
  rewrite E. apply IH. intros s' Hin. apply H. now right.
Qed.

(** C7, as the code has it: an instant at least a tenth of a second before
    every retained sample of a non-empty series resolves to 0, whatever
    the fallback; neither the fallback nor a stored price is returned. *)
Theorem find_price_before_earliest (st : MovingAverage) (t fallback : Q) :
  data st <> [] ->
  (forall s, In s (data st) -> (t + (1 # 10) <= fst s)%Q) ->
  _find_price_at_time st t fallback = 0%Q.
Proof.
  intros Hne Hgap. unfold _find_price_at_time.
  destruct (data st) as [|s0 d] eqn:Ed; [congruence|].
  rewrite (find_near_none t (s0 :: d) Hgap).
  destruct (sorted tuple_leb (s0 :: d)) as [|[ts0 p0] rest] eqn:Es.
  - apply (f_equal (@length Sample)) in Es.
    rewrite length_sorted in Es. discriminate.
  - assert (Hin : In (ts0, p0) (s0 :: d)).
    { apply (In_sorted tuple_leb). rewrite Es. now left. }
    apply Hgap in Hin. simpl in Hin.
    assert (E : Qlt_bool t ts0 = true) by (apply Qlt_bool_iff; lra).
    now rewrite E.
Qed.

Lemma find_price_before_earliest_witness :
  _find_price_at_time (mkMA 10 10 [(100%Q, 5%Q)] (Some 100%Q)) (99 # 1) 77
  = 0%Q.
Proof.
  apply find_price_before_earliest.
  - discriminate.
  - intros s [<- | []]. simpl. lra.
Defined.

(** C7, as stated, fails: an instant 0.05 s before the only sample is
    strictly earlier than the earliest retained sample, and resolves to
    that sample's price through the 0.1 s tolerance of the exact-match
    loop. *)
Lemma find_price_just_before_earliest :
  exists (st : MovingAverage) (t fallback : Q),
    data st <> [] /\
    (forall s, In s (data st) -> (t < fst s)%Q) /\
    ~ (_find_price_at_time st t fallback == 0)%Q.
Proof.
  exists (mkMA 10 10 [(100%Q, 5%Q)] (Some 100%Q)), (1999 # 20), 77%Q.
  split; [discriminate|]. split.
  - intros s [<- | []]. simpl. lra.
  - vm_compute. discriminate.
Qed.

(** ** A zero timestamp reads as no timestamp *)

Lemma Update_current_timestamp (st st' : MovingAverage) (t v : Q) :
  Update st t v = Some st' -> current_timestamp st' = Some t.
Proof.
  unfold Update.
  destruct (_ >? _); [destruct (downsample _ _)|];
    intro H; inversion H; reflexivity.
Qed.

(** C10: when the most recent Update carried a timestamp equal to 0, Get
    returns 0.0 whatever the samples stored. *)
Theorem Get_zero_timestamp (tz : Z) (fuel : nat) (st st' : MovingAverage)
    (t v : Q) :
  (t == 0)%Q ->
  Update st t v = Some st' ->
  Get tz fuel st' = Some 0%Q.
Proof.
  intros Ht Hup. apply Update_current_timestamp in Hup.
  unfold Get, GetSMA, no_timestamp. rewrite Hup.
  now rewrite (Qeq_eq_bool _ _ Ht).
Qed.

Lemma Get_zero_timestamp_witness :
  Get 28800 0 (mkMA 10 60 [(0%Q, 100%Q)] (Some 0%Q)) = Some 0%Q.
Proof.
  apply (Get_zero_timestamp 28800 0 (init 10 60) _ 0 100).
  - reflexivity.
  - reflexivity.
Defined.

(** ** The sample store: indexing, slicing, sampling *)

Lemma In_firstn {A : Type} (n : nat) (l : list A) (x : A) :
  In x (firstn n l) -> In x l.
Proof.
  intro H. rewrite <- (firstn_skipn n l). apply in_or_app. now left.
Qed.

Lemma In_skipn {A : Type} (n : nat) (l : list A) (x : A) :
  In x (skipn n l) -> In x l.
Proof.
  intro H. rewrite <- (firstn_skipn n l). apply in_or_app. now right.
Qed.

Lemma In_slice {A : Type} (l : list A) (a b : Z) (x : A) :
  In x (slice l a b) -> In x l.
Proof.
  unfold slice. intro H. apply In_firstn in H. now apply In_skipn in H.
Qed.

Lemma length_slice {A : Type} (l : list A) (a b : Z) :
  0 <= a <= b -> b <= Z.of_nat (length l) ->
  Z.of_nat (length (slice l a b)) = b - a.
Proof.
  intros Hab Hb. unfold slice. rewrite length_firstn, length_skipn. lia.
Qed.

Lemma In_removelast {A : Type} (l : list A) (x : A) :
  In x (removelast l) -> In x l.
Proof.
  destruct l as [|y l]; [now simpl|].
  intro H.
  rewrite (app_removelast_last y (l := y :: l)) by discriminate.
  apply in_or_app. now left.
Qed.

Lemma length_removelast_app {A : Type} (l : list A) (x : A) :
  l <> [] -> length (removelast l ++ [x]) = length l.
Proof.
  intro Hne.
  rewrite (app_removelast_last x Hne) at 2.
  now rewrite !length_app.
Qed.

Lemma py_index_in_range {A : Type} (l : list A) (i : Z) :
  0 <= i < Z.of_nat (length l) ->
  exists x, py_index l i = Some x /\ In x l.
Proof.
  intro Hi. unfold py_index.
  replace ((0 <=? i) && (i <? Z.of_nat (length l))) with true
    by (symmetry; apply andb_true_iff; split;
        [apply Z.leb_le | apply Z.ltb_lt]; lia).
  destruct (nth_error l (Z.to_nat i)) as [x|] eqn:E.
  - exists x. split; [reflexivity|]. eapply nth_error_In; eassumption.
  - apply nth_error_None in E. lia.
Qed.

(** [l[-1]] is the last element. *)
Lemma py_index_last {A : Type} (l : list A) (m : A) :
  py_index l (-1) = Some m -> l = removelast l ++ [m].
Proof.
  unfold py_index. simpl (0 <=? -1). simpl andb.
  destruct l as [|y l']; [simpl; discriminate|].
  set (l := y :: l').
  assert (Hne : l <> []) by discriminate.
  replace ((- Z.of_nat (length l) <=? -1) && (-1 <? 0)) with true
    by (symmetry; apply andb_true_iff; split;
        [apply Z.leb_le; subst l; simpl length; lia | reflexivity]).
  pose proof (app_removelast_last y Hne) as Hl.
  assert (Hlen : length l = S (length (removelast l))).
  { rewrite Hl at 1. rewrite length_app. simpl. lia. }
  replace (Z.to_nat (Z.of_nat (length l) + -1)) with (length (removelast l))
    by lia.
  intro H. rewrite Hl in H at 1.
  rewrite nth_error_app2 in H by lia. rewrite Nat.sub_diag in H. simpl in H.
  injection H as <-. exact Hl.
Qed.

Lemma py_index_last_some {A : Type} (l : list A) :
  l <> [] -> exists m, py_index l (-1) = Some m.
Proof.
  intro Hne. unfold py_index. simpl (0 <=? -1). simpl andb.
  assert (Hlen : (0 < length l)%nat)
    by (destruct l; [congruence | simpl; lia]).
  replace ((- Z.of_nat (length l) <=? -1) && (-1 <? 0)) with true
    by (symmetry; apply andb_true_iff; split;
        [apply Z.leb_le; lia | reflexivity]).
  destruct (nth_error l (Z.to_nat (Z.of_nat (length l) + -1))) as [m|] eqn:E.
  - now exists m.
  - apply nth_error_None in E. lia.
Qed.

Lemma In_py_range (n k : Z) : In k (py_range n) -> 0 <= k < n.
Proof.
  unfold py_range. intro H. apply in_map_iff in H.
  destruct H as (j & <- & Hj). apply in_seq in Hj. lia.
Qed.

Lemma length_py_range (n : Z) : length (py_range n) = Z.to_nat n.
Proof. unfold py_range. now rewrite length_map, length_seq. Qed.

Lemma sample_indices_range (part_len keep i : Z) :
  0 < part_len -> In i (sample_indices part_len keep) -> 0 <= i < part_len.
Proof.
  unfold sample_indices. intros Hlen H. apply in_map_iff in H.
  destruct H as (k & <- & Hk). apply In_py_range in Hk.
  split.
  - apply Z.div_pos; nia.
  - apply Z.div_lt_upper_bound; nia.
Qed.

Lemma pick_some {A : Type} (l : list A) (idx : list Z) :
  (forall i, In i idx -> 0 <= i < Z.of_nat (length l)) ->
  exists xs, pick l idx = Some xs /\ length xs = length idx /\
             forall x, In x xs -> In x l.
Proof.
  induction idx as [|i idx IH]; intro H; simpl.
  - exists []. repeat split. intros x [].
  - destruct (py_index_in_range l i) as (x & Ex & Hx);
      [apply H; now left|].
    destruct IH as (xs & Exs & Hlen & Hin); [intros; apply H; now right|].
    rewrite Ex, Exs. exists (x :: xs). repeat split.
    + simpl. now rewrite Hlen.
    + intros y [<- | Hy]; auto.
Qed.

Lemma sample_part_some (part : list Sample) (keep : Z) :
  exists xs, sample_part part keep = Some xs /\
             (part = [] -> xs = []) /\
             (part <> [] -> length xs = Z.to_nat keep) /\
             forall x, In x xs -> In x part.
Proof.
  destruct part as [|s part].
  - exists []. simpl. repeat split; congruence.
  - set (p := s :: part).
    destruct (pick_some p (sample_indices (Z.of_nat (length p)) keep))
      as (xs & Exs & Hlen & Hin).
    { intros i Hi. eapply sample_indices_range; [|eassumption].
      subst p. simpl length. lia. }
    exists xs. unfold sample_part. fold p. subst p. rewrite Exs.
    repeat split; try congruence; try assumption.
    intros _. rewrite Hlen. unfold sample_indices.
    now rewrite length_map, length_py_range.
Qed.

(** ** The newest sample is the last one of the sorted list *)

Lemma insert_sorted_key (x : Sample) (l : list Sample) :
  StronglySorted key_le l ->
  StronglySorted key_le (insert_sorted key_leb x l).
Proof.
  induction 1 as [|y l Hl IH Hy]; simpl.
  - constructor; constructor.
  - destruct (key_leb x y) eqn:E; unfold key_leb in E.
    + apply Qle_bool_iff in E.
      constructor; [now constructor|].
      constructor; [exact E|].
      rewrite Forall_forall in *. intros z Hz.
      specialize (Hy z Hz). unfold key_le in *. lra.
    + apply Qle_bool_false_iff in E.
      constructor; [exact IH|].
      rewrite Forall_forall in *. intros z Hz.
      apply In_insert_sorted in Hz. destruct Hz as [-> | Hz].
      * unfold key_le. lra.
      * now apply Hy.
Qed.

Lemma sorted_key (l : list Sample) : StronglySorted key_le (sorted key_leb l).
Proof.
  induction l as [|x l IH]; simpl; [constructor|].
  now apply insert_sorted_key.
Qed.

Lemma StronglySorted_last (l : list Sample) (m u : Sample) :
  StronglySorted key_le (l ++ [m]) -> In u (l ++ [m]) -> key_le u m.
Proof.
  induction l as [|a l IH]; simpl; intros Hs Hin.
  - destruct Hin as [<- | []]. unfold key_le. lra.
  - inversion Hs as [|? ? Hs' Ha]; subst.
    destruct Hin as [<- | Hin]; [|now apply IH].
    rewrite Forall_forall in Ha. apply Ha.
    apply in_or_app. right. now left.
Qed.

Lemma newest_is_max (d : list Sample) (m : Sample) :
  py_index (sorted key_leb d) (-1) = Some m ->
  In m d /\ forall u, In u d -> (fst u <= fst m)%Q.
Proof.
  intro H. apply py_index_last in H.
  pose proof (sorted_key d) as Hs. rewrite H in Hs.
  split.
  - apply (In_sorted key_leb). rewrite H. apply in_or_app. right. now left.
  - intros u Hu. apply (In_sorted key_leb) in Hu. rewrite H in Hu.
    exact (StronglySorted_last _ _ _ Hs Hu).
Qed.

(** ** Downsampling keeps the store within capacity and keeps the newest
       sample *)

Lemma keep_counts (nb : Z) :
  2 <= nb ->
  let early_keep := Z.max 1 (int_mul_01 nb) in
  let mid_keep := Z.max 1 (int_mul_03 nb) in
  1 <= early_keep /\ 1 <= mid_keep /\ 0 <= nb - early_keep - mid_keep.
Proof.
  intro H. unfold int_mul_01, int_mul_03. cbv zeta.
  Z.to_euclidean_division_equations. lia.
Qed.

Lemma partition_bounds (n : Z) :
  2 <= n ->
  0 <= int_mul_02 n /\ int_mul_02 n < int_mul_05 n /\ int_mul_05 n <= n.
Proof.
  intro H. unfold int_mul_02, int_mul_05.
  Z.to_euclidean_division_equations. lia.
Qed.

Lemma downsample_spec (nb : Z) (d : list Sample) :
  1 <= nb ->
  Z.of_nat (length d) = nb + 1 ->
  exists d',
    downsample nb d = Some d' /\
    Z.of_nat (length d') <= nb /\
    (forall x, In x d' -> In x d) /\
    exists s, In s d' /\ forall u, In u d -> (fst u <= fst s)%Q.
Proof.
  intros Hnb Hlen. unfold downsample.
  set (sd := sorted key_leb d).
  assert (Hsd : Z.of_nat (length sd) = nb + 1)
    by (subst sd; now rewrite length_sorted).
  rewrite Hlen.
  destruct (partition_bounds (nb + 1) ltac:(lia)) as (Hee & Hem & Hme).
  set (ee := int_mul_02 (nb + 1)) in *.
  set (me := int_mul_05 (nb + 1)) in *.
  set (ek := Z.max 1 (int_mul_01 nb)).
  set (mk := Z.max 1 (int_mul_03 nb)).
  destruct (sample_part_some (slice sd 0 ee) ek) as (es & -> & Hes0 & Hes & Hesin).
  destruct (sample_part_some (slice sd ee me) mk) as (ms & -> & _ & Hms & Hmsin).
  destruct (sample_part_some (slice_from sd me) (nb - ek - mk))
    as (rs & -> & Hrs0 & Hrs & Hrsin).
  assert (Hmid : slice sd ee me <> []).
  { intro E. apply (f_equal (@length Sample)) in E.
    apply (f_equal Z.of_nat) in E.
    rewrite length_slice in E by lia. simpl in E. lia. }
  specialize (Hms Hmid).
  assert (Hmk : 1 <= mk) by (subst mk; lia).
  set (d' := es ++ ms ++ rs).
  assert (Hd'ne : d' <> []).
  { subst d'. destruct ms; [simpl in Hms; lia|]. now destruct es. }
  assert (Hd'in : forall x, In x d' -> In x d).
  { intros x Hx. subst d'. apply (In_sorted key_leb). fold sd.
    apply in_app_or in Hx. destruct Hx as [Hx | Hx].
    - eapply In_slice. now apply Hesin.
    - apply in_app_or in Hx. destruct Hx as [Hx | Hx].
      + eapply In_slice. now apply Hmsin.
      + eapply In_skipn. apply Hrsin. exact Hx. }
  assert (Hd'len : Z.of_nat (length d') <= nb).
  { subst d'. rewrite !length_app, Hms.
    assert (Hle : forall (part : list Sample) keep (xs : list Sample),
               (part = [] -> xs = []) ->
               (part <> [] -> length xs = Z.to_nat keep) ->
               (length xs <= Z.to_nat keep)%nat).
    { intros part keep xs H0 H1. destruct part.
      - rewrite H0 by reflexivity. simpl. lia.
      - rewrite H1 by discriminate. lia. }
    pose proof (Hle _ _ _ Hes0 Hes) as Hles.
    pose proof (Hle _ _ _ Hrs0 Hrs) as Hlrs.
    destruct (Z.eq_dec nb 1) as [-> | Hne].
    - assert (E : es = []) by (apply Hes0; reflexivity).
      rewrite E. simpl in *. lia.
    - destruct (keep_counts nb ltac:(lia)) as (H1 & H2 & H3).
      fold ek mk in H1, H2, H3. lia. }
  destruct (py_index_last_some sd) as (m & Em).
  { intro E. rewrite E in Hsd. simpl in Hsd. lia. }
  rewrite Em. destruct (newest_is_max d m Em) as (Hmin & Hmax).
  destruct (py_in m d') eqn:Ein; simpl.
  - exists d'. repeat split; try assumption.
    unfold py_in in Ein. apply existsb_exists in Ein.
    destruct Ein as (e & He & Heq). exists e. split; [assumption|].
    unfold sample_eqb in Heq. apply andb_true_iff in Heq.
    destruct Heq as (Heq & _). apply Qeq_bool_iff in Heq.
    intros u Hu. specialize (Hmax u Hu). lra.
  - unfold set_last. destruct d' as [|x0 d0] eqn:Ed'; [congruence|].
    rewrite <- Ed' in *.
    exists (removelast d' ++ [m]). repeat split.
    + rewrite length_removelast_app by assumption. assumption.
    + intros x Hx. apply in_app_or in Hx. destruct Hx as [Hx | [<- | []]].
      * apply Hd'in. now apply In_removelast.
      * assumption.
    + exists m. split; [|assumption].
      apply in_or_app. right. now left.
Qed.

(** ** Invariant of the sample store along a sequence of updates *)

Lemma store_inv_init (nb : Z) (w : Q) : 1 <= nb -> store_inv nb [] (init nb w).
Proof.
  intro H. unfold store_inv, init. simpl.
  repeat split; try lia; try tauto.
Qed.

Lemma Update_inv (nb : Z) (seen : list Sample) (st : MovingAverage) (t v : Q) :
  1 <= nb ->
  store_inv nb seen st ->
  exists st', Update st t v = Some st' /\ store_inv nb (seen ++ [(t, v)]) st'.
Proof.
  intros Hnb (Hn & Hlen & Hin & Hmax). unfold Update. rewrite Hn.
  set (d := data st ++ [(t, v)]).
  assert (Hd : Z.of_nat (length d) = Z.of_nat (length (data st)) + 1)
    by (subst d; rewrite length_app; simpl; lia).
  assert (Hdin : forall x, In x d -> In x (seen ++ [(t, v)])).
  { intros x Hx. subst d. apply in_app_or in Hx. apply in_or_app.
    destruct Hx as [Hx | Hx]; [left; now apply Hin | now right]. }
  assert (Hdmax : forall s, In s d ->
            (forall u, In u d -> (fst u <= fst s)%Q) ->
            forall u, In u (seen ++ [(t, v)]) -> (fst u <= fst s)%Q).
  { intros s Hs Hall u Hu. apply in_app_or in Hu.
    destruct Hu as [Hu | Hu].
    - destruct Hmax as (s0 & Hs0 & Hle0); [intro E; now rewrite E in Hu|].
      specialize (Hle0 u Hu).
      assert (Hs0d : In s0 d) by (subst d; apply in_or_app; now left).
      specialize (Hall s0 Hs0d). lra.
    - apply Hall. subst d. apply in_or_app. now right. }
  destruct (Z.of_nat (length d) >? nb) eqn:Egt.
  - apply Z.gtb_lt in Egt.
    destruct (downsample_spec nb d Hnb ltac:(lia))
      as (d' & -> & Hl' & Hin' & s & Hs & Hsmax).
    eexists. split; [reflexivity|]. unfold store_inv. simpl.
    repeat split; auto.
    intros _. exists s. split; [assumption|].
    apply Hdmax; auto.
  - assert (Hle : Z.of_nat (length d) <= nb).
    { destruct (Z.gtb_spec (Z.of_nat (length d)) nb); [discriminate | lia]. }
    eexists. split; [reflexivity|]. unfold store_inv. simpl. fold d.
    repeat split; auto.
    intros _.
    assert (Hnew : In (t, v) d) by (subst d; apply in_or_app; right; now left).
    destruct seen as [|u0 seen'].
    + exists (t, v). split; [assumption|].
      intros u [<- | []]. simpl. lra.
    + destruct Hmax as (s0 & Hs0 & Hle0); [discriminate|].
      assert (Hs0d : In s0 d) by (subst d; apply in_or_app; now left).
      destruct (Qlt_le_dec (fst s0) t) as [Hlt | Hge].
      * exists (t, v). split; [assumption|].
        intros u Hu. apply in_app_or in Hu. destruct Hu as [Hu | [<- | []]].
        -- specialize (Hle0 u Hu). simpl. lra.
        -- simpl. lra.
      * exists s0. split; [assumption|].
        intros u Hu. apply in_app_or in Hu. destruct Hu as [Hu | [<- | []]].
        -- now apply Hle0.
        -- simpl. lra.
Qed.

Lemma Updates_inv (nb : Z) (ups seen : list Sample) (st : MovingAverage) :
  1 <= nb ->
  store_inv nb seen st ->
  exists st', Updates st ups = Some st' /\ store_inv nb (seen ++ ups) st'.
Proof.
  intro Hnb. revert seen st.
  induction ups as [|[t v] ups IH]; intros seen st Hinv; simpl.
  - exists st. rewrite app_nil_r. now split.
  - destruct (Update_inv nb seen st t v Hnb Hinv) as (st1 & -> & Hinv1).
    destruct (IH _ _ Hinv1) as (st' & E & Hinv').
    exists st'. split; [exact E|].
    now rewrite <- app_assoc in Hinv'.
Qed.

(** C2: for every capacity of at least 1 and every sequence of updates,
    every update succeeds and the store holds at most [capacity] samples
    afterwards. *)
Theorem Update_within_capacity (nb : Z) (w : Q) (ups : list Sample) :
  1 <= nb ->
  exists st,
    Updates (init nb w) ups = Some st /\
    Z.of_nat (length (data st)) <= nb.
Proof.
  intro Hnb.
  destruct (Updates_inv nb ups [] (init nb w) Hnb (store_inv_init nb w Hnb))
    as (st & E & _ & Hlen & _).
  exists st. now split.
Qed.

(** C3: for every capacity of at least 1 and every non-empty sequence of
    updates, in any order and with duplicates, the store afterwards holds
    an inserted sample whose timestamp is the maximum of all timestamps
    inserted so far. *)
Theorem Update_keeps_latest (nb : Z) (w : Q) (ups : list Sample) :
  1 <= nb ->
  ups <> [] ->
  exists st,
    Updates (init nb w) ups = Some st /\
    exists s, In s (data st) /\ In s ups /\
              forall u, In u ups -> (fst u <= fst s)%Q.
Proof.
  intros Hnb Hne.
  destruct (Updates_inv nb ups [] (init nb w) Hnb (store_inv_init nb w Hnb))
    as (st & E & _ & _ & Hin & Hmax).
  simpl in Hin, Hmax.
  destruct (Hmax Hne) as (s & Hs & Hle).
  exists st. split; [exact E|]. exists s. auto.
Qed.

Lemma Update_within_capacity_witness :
  exists st,
    Updates (init 5 10) twelve_updates = Some st /\
    Z.of_nat (length (data st)) <= 5.
Proof.
  apply (Update_within_capacity 5 10 twelve_updates). lia.
Defined.

Lemma Update_keeps_latest_witness :
  exists st,
    Updates (init 5 10) twelve_updates = Some st /\
    exists s, In s (data st) /\ In s twelve_updates /\
              forall u, In u twelve_updates -> (fst u <= fst s)%Q.
Proof.
  apply (Update_keeps_latest 5 10 twelve_updates).
  - lia.
  - discriminate.
Defined.

(** Scenario C: capacity 5 and twelve updates with increasing timestamps
    leave five samples, the last of which is the twelfth inserted. *)
Example twelve_updates_keep_five :
  exists st,
    Updates (init 5 10) twelve_updates = Some st /\
    length (data st) = 5%nat /\
    py_index (data st) (-1) = py_index twelve_updates (-1).
Proof. eexists. repeat split. Qed.

(** Scenario D: Get on a fresh engine returns 0.0. *)
Example Get_fresh_engine (tz nb : Z) (w : Q) (fuel : nat) :
  Get tz fuel (init nb w) = Some 0%Q.
Proof. reflexivity. Qed.

(** ** The calendar on whole seconds *)

Lemma round_half_even_whole (q : Q) (z : Z) :
  (q == inject_Z z)%Q -> round_half_even q = z.
Proof.
  intro H. unfold round_half_even.
  rewrite (Qfloor_comp _ _ H), Qfloor_Z.
  assert (E : Qcompare (q - inject_Z z) (1 # 2) = Lt)
    by (rewrite <- Qlt_alt; lra).
  now rewrite E.
Qed.

Section WholeSeconds.
Variable tz : Z.

Lemma day_of_at_day (d s : Z) : 0 <= s < 86400 -> day_of tz (at_day tz d s) = d.
Proof.
  intro H. unfold day_of, at_day.
  Z.to_euclidean_division_equations. lia.
Qed.

Lemma tod_at_day (d s : Z) : 0 <= s < 86400 -> tod tz (at_day tz d s) = s.
Proof.
  intro H. unfold tod, at_day.
  Z.to_euclidean_division_equations. lia.
Qed.

Lemma at_day_of (n : Z) : n = at_day tz (day_of tz n) (tod tz n).
Proof.
  unfold at_day, day_of, tod.
  Z.to_euclidean_division_equations. lia.
Qed.

Lemma tod_range (n : Z) : 0 <= tod tz n < 86400.
Proof. unfold tod. apply Z.mod_pos_bound. lia. Qed.

(** The second before a second of the same day. *)
Lemma tod_pred (c : Z) :
  1 <= tod tz c ->
  day_of tz (c - 1) = day_of tz c /\ tod tz (c - 1) = tod tz c - 1.
Proof.
  intro H. unfold day_of, tod in *.
  Z.to_euclidean_division_equations. lia.
Qed.

(** A second not after 15:00:01 of its day is a safe cursor, and so is
    every second of a Saturday or Sunday after its first. *)
Lemma safe_session (c : Z) : 1 <= tod tz c <= 54001 -> safe tz c.
Proof.
  intro H. right. intros (_ & Hc).
  destruct (tod_pred c (proj1 H)) as (_ & Hp). lia.
Qed.

Lemma safe_not_after_close (c : Z) :
  1 <= tod tz c -> ~ after_close tz c -> safe tz c.
Proof.
  intros H Hc. right. intros (Hw & Ht).
  destruct (tod_pred c H) as (Hd & Hp).
  apply Hc. split; [now rewrite <- Hd | lia].
Qed.

Lemma fromtimestamp_whole (q : Q) (n : Z) :
  (q == inject_Z n)%Q ->
  fromtimestamp tz q =
    mkDT (day_of tz n) (tod tz n / 3600) ((n + tz) mod 3600 / 60)
         ((n + tz) mod 60) 0.
Proof.
  intro H. unfold fromtimestamp.
  rewrite (round_half_even_whole (q * 1000000) (n * 1000000)).
  2:{ rewrite H, inject_Z_mult. reflexivity. }
  unfold day_of, tod.
  f_equal; Z.to_euclidean_division_equations; lia.
Qed.

Lemma is_trading_time_whole (q : Q) (n : Z) :
  (q == inject_Z n)%Q -> is_trading_time tz q = trading_second tz n.
Proof.
  intro H. unfold is_trading_time, trading_second.
  rewrite (fromtimestamp_whole q n H). cbn [dt_date].
  rewrite Z.geb_leb.
  destruct (Z.leb_spec 5 (weekday (day_of tz n))) as [Hw | Hw];
    destruct (Z.ltb_spec (weekday (day_of tz n)) 5) as [Hw' | Hw'];
    try lia.
  cbn [andb]. unfold in_session, dt_leb, dt_micros, strptime, trading_hours.
  cbn [morning_start morning_end afternoon_start afternoon_end
       dt_date dt_hour dt_minute dt_second dt_microsecond].
  unfold day_of, tod.
  repeat match goal with
         | |- context [?a <=? ?b] =>
             destruct (Z.leb_spec a b)
         end; cbn [andb orb]; try reflexivity; exfalso;
    Z.to_euclidean_division_equations; lia.
Qed.

(** [timestamp] of a whole local time is a whole number of seconds. *)
Lemma timestamp_strptime (d h m s : Z) :
  (timestamp tz (strptime d (h, m, s))
   == inject_Z (at_day tz d (3600 * h + 60 * m + s)))%Q.
Proof.
  unfold timestamp, strptime, dt_micros, at_day.
  cbn [dt_date dt_hour dt_minute dt_second dt_microsecond].
  unfold Qeq, Qminus, Qplus, Qopp, inject_Z.
  cbn [Qnum Qden]. lia.
Qed.

(** The weekend-skipping loop ends within its fuel, on the closest
    earlier weekday. *)
Lemma previous_trading_day_spec (d : Z) :
  exists p,
    previous_trading_day d = Some p /\
    p < d /\ weekday p < 5 /\
    forall e, p < e < d -> 5 <= weekday e.
Proof.
  unfold previous_trading_day, week_fuel. cbn [skip_weekend].
  rewrite !Z.geb_leb.
  destruct (Z.leb_spec 5 (weekday (d - 1))) as [H1 | H1];
    [destruct (Z.leb_spec 5 (weekday (d - 1 - 1))) as [H2 | H2];
     [destruct (Z.leb_spec 5 (weekday (d - 1 - 1 - 1))) as [H3 | H3]|]|].
  - exfalso. unfold weekday in *.
    Z.to_euclidean_division_equations. lia.
  - exists (d - 1 - 1 - 1). repeat split; try lia.
    intros e He. assert (E : e = d - 1 \/ e = d - 1 - 1) by lia.
    destruct E as [-> | ->]; assumption.
  - exists (d - 1 - 1). repeat split; try lia.
    intros e He. assert (E : e = d - 1) by lia. now subst e.
  - exists (d - 1). repeat split; try lia.
Qed.

Lemma trading_second_tod (n : Z) :
  trading_second tz n = true -> 34200 <= tod tz n <= 54000.
Proof.
  unfold trading_second, in_session. pose proof (tod_range n). lia.
Qed.

Lemma quiet_midday (c : Z) :
  trading_second tz c = false -> 39600 <= tod tz c < 46800 ->
  quiet tz (at_day tz (day_of tz c) 41400) c.
Proof.
  intros Hc Hh t Ht. unfold trading_second, in_session in *.
  assert (Hd : day_of tz t = day_of tz c /\ 41400 < tod tz t <= tod tz c).
  { unfold at_day, day_of, tod in *.
    Z.to_euclidean_division_equations. lia. }
  destruct Hd as (Hd & Ht'). rewrite Hd. lia.
Qed.

Lemma quiet_overnight (c p : Z) :
  tod tz c < 34200 \/ 5 <= weekday (day_of tz c) -> p < day_of tz c ->
  (forall e, p < e < day_of tz c -> 5 <= weekday e) ->
  quiet tz (at_day tz p 54000) c.
Proof.
  intros Hc Hp Hwe t Ht. unfold trading_second, in_session.
  pose proof (tod_range t) as Hr.
  assert (Hd : (day_of tz t = p /\ 54000 < tod tz t) \/
               (p < day_of tz t < day_of tz c) \/
               (day_of tz t = day_of tz c /\ tod tz t <= tod tz c)).
  { unfold at_day, day_of, tod in *.
    Z.to_euclidean_division_equations. lia. }
  destruct Hd as [(Hd & Ht') | [Hd | (Hd & Ht')]].
  - lia.
  - specialize (Hwe _ Hd). lia.
  - rewrite Hd. lia.
Qed.

Lemma overnight_target (q : Q) (c : Z) :
  (q == inject_Z c)%Q ->
  tod tz c < 32400 \/ 5 <= weekday (day_of tz c) ->
  exists p tq,
    previous_trading_day (dt_date (fromtimestamp tz q)) = Some p /\
    tq = timestamp tz (strptime p (afternoon_end trading_hours)) /\
    (tq == inject_Z (at_day tz p 54000))%Q /\
    at_day tz p 54000 < c /\ quiet tz (at_day tz p 54000) c /\
    safe tz (at_day tz p 54000).
Proof.
  intros Hq Hc. rewrite (fromtimestamp_whole q c Hq). cbn [dt_date].
  destruct (previous_trading_day_spec (day_of tz c)) as (p & -> & Hp & _ & Hwe).
  exists p, (timestamp tz (strptime p (afternoon_end trading_hours))).
  repeat split.
  - unfold trading_hours. cbn [afternoon_end].
    apply timestamp_strptime.
  - pose proof (tod_range c). rewrite (at_day_of c) at 1.
    unfold at_day. lia.
  - apply quiet_overnight; [lia | assumption | assumption].
  - apply safe_session. rewrite tod_at_day; lia.
Qed.

Lemma hour_bounds (c lo hi : Z) :
  (lo <= tod tz c / 3600 <-> 3600 * lo <= tod tz c) /\
  (tod tz c / 3600 < hi <-> tod tz c < 3600 * hi).
Proof. Z.to_euclidean_division_equations. lia. Qed.

(** A non-trading second from 15:00:00 on that does not lie after the
    close of a Monday to Friday lies on a Saturday or Sunday. *)
Lemma evening_is_weekend (c : Z) :
  trading_second tz c = false -> ~ after_close tz c -> 54000 <= tod tz c ->
  5 <= weekday (day_of tz c).
Proof.
  intros Hnt Hac Ht.
  destruct (Z_lt_le_dec (weekday (day_of tz c)) 5) as [Hw | Hw]; [|exact Hw].
  assert (E : tod tz c = 54000).
  { destruct (Z_lt_le_dec 54000 (tod tz c)) as [H | H]; [|lia].
    elim Hac. now split. }
  unfold trading_second, in_session in Hnt. rewrite E in Hnt.
  apply andb_false_iff in Hnt. destruct Hnt as [Hnt | Hnt].
  - apply Z.ltb_ge in Hnt. exact Hnt.
  - discriminate Hnt.
Qed.

Lemma primary_jump_to_time_ok : jump_to_time_ok tz (primary_jump_to_time tz).
Proof.
  intros q c Hq Hnt Hpos Htod. unfold primary_jump_to_time.
  pose proof (fromtimestamp_whole q c Hq) as Hdt.
  assert (Hh : dt_hour (fromtimestamp tz q) = tod tz c / 3600)
    by now rewrite Hdt.
  assert (Hd : dt_date (fromtimestamp tz q) = day_of tz c)
    by now rewrite Hdt.
  rewrite Hh.
  pose proof (hour_bounds c 11 13) as (H11 & H13).
  pose proof (hour_bounds c 15 9) as (H15 & H9).
  destruct ((11 <=? tod tz c / 3600) && (tod tz c / 3600 <? 13)) eqn:E1.
  - (* the midday break *)
    rewrite Hd. eexists. split; [reflexivity|].
    exists (at_day tz (day_of tz c) 41400). split; [|split].
    + unfold trading_hours. cbn [morning_end]. apply timestamp_strptime.
    + intros _. split.
      * apply quiet_midday; [assumption | lia].
      * apply safe_session. rewrite tod_at_day; lia.
    + intros _. lia.
  - destruct ((tod tz c / 3600 <? 9) || (tod tz c / 3600 >=? 15)) eqn:E2.
    + (* before 09:00, or a weekend evening: the previous trading day's
         close *)
      assert (Hnight : tod tz c < 32400 \/ 5 <= weekday (day_of tz c)).
      { destruct (Z_lt_le_dec (tod tz c) 32400) as [H | H]; [now left|].
        right. apply evening_is_weekend; [assumption | assumption | lia]. }
      destruct (overnight_target q c Hq Hnight)
        as (p & tq & -> & -> & Htq & Hlt & Hquiet & Hsafe).
      eexists. split; [reflexivity|].
      exists (at_day tz p 54000). split; [exact Htq|].
      split; [intros _; now split | intros; lia].
    + eexists. split; [reflexivity|]. cbv beta iota. lia.
Qed.

Lemma continuation_jump_to_time_ok :
  jump_to_time_ok tz (continuation_jump_to_time tz).
Proof.
  intros q c Hq Hnt Hpos Htod. unfold continuation_jump_to_time.
  pose proof (fromtimestamp_whole q c Hq) as Hdt.
  assert (Hh : dt_hour (fromtimestamp tz q) = tod tz c / 3600)
    by now rewrite Hdt.
  rewrite Hh.
  pose proof (hour_bounds c 15 9) as (H15 & H9).
  destruct ((tod tz c / 3600 <? 9) || (tod tz c / 3600 >=? 15)) eqn:E2.
  - assert (Hnight : tod tz c < 32400 \/ 5 <= weekday (day_of tz c)).
    { destruct (Z_lt_le_dec (tod tz c) 32400) as [H | H]; [now left|].
      right. apply evening_is_weekend; [assumption | assumption | lia]. }
    destruct (overnight_target q c Hq Hnight)
      as (p & tq & -> & -> & Htq & Hlt & Hquiet & Hsafe).
    eexists. split; [reflexivity|].
    exists (at_day tz p 54000). split; [exact Htq|].
    split; [intros _; now split | intros; lia].
  - eexists. split; [reflexivity|]. cbv beta iota. lia.
Qed.
End WholeSeconds.

(** ** Equal rationals are treated alike *)

Lemma round_half_even_comp (x y : Q) :
  (x == y)%Q -> round_half_even x = round_half_even y.
Proof.
  intro H. unfold round_half_even.
  rewrite (Qfloor_comp _ _ H).
  assert (E : (x - inject_Z (Qfloor y) == y - inject_Z (Qfloor y))%Q)
    by (rewrite H; reflexivity).
  now rewrite (Qcompare_comp _ _ E (1 # 2) (1 # 2) (Qeq_refl _)).
Qed.

Lemma fromtimestamp_comp (tz : Z) (x y : Q) :
  (x == y)%Q -> fromtimestamp tz x = fromtimestamp tz y.
Proof.
  intro H. unfold fromtimestamp.
  rewrite (round_half_even_comp (x * 1000000) (y * 1000000)); [reflexivity|].
  now rewrite H.
Qed.

Lemma is_trading_time_comp (tz : Z) (x y : Q) :
  (x == y)%Q -> is_trading_time tz x = is_trading_time tz y.
Proof.
  intro H. unfold is_trading_time. now rewrite (fromtimestamp_comp tz x y H).
Qed.

Lemma Qlt_bool_comp (x x' y y' : Q) :
  (x == x')%Q -> (y == y')%Q -> Qlt_bool x y = Qlt_bool x' y'.
Proof. intros Hx Hy. unfold Qlt_bool. now rewrite Hx, Hy. Qed.

Lemma near_comp (x y : Q) (s : Sample) : (x == y)%Q -> near x s = near y s.
Proof.
  intro H. unfold near. apply Qlt_bool_comp; [|reflexivity].
  now rewrite H.
Qed.

Lemma find_near_comp (x y : Q) (d : list Sample) :
  (x == y)%Q -> find (near x) d = find (near y) d.
Proof.
  intro H. induction d as [|s d IH]; simpl; [reflexivity|].
  now rewrite (near_comp x y s H), IH.
Qed.

Lemma scan_prev_comp (x y : Q) (l : list Sample) (prev : option Sample) :
  (x == y)%Q -> scan_prev l x prev = scan_prev l y prev.
Proof.
  intro H. revert prev. induction l as [|[ts p] l IH]; intro prev; simpl.
  - reflexivity.
  - rewrite (Qlt_bool_comp x y ts ts H (Qeq_refl _)).
    destruct (Qlt_bool y ts); [reflexivity | apply IH].
Qed.

Lemma find_price_comp (st : MovingAverage) (x y default_price : Q) :
  (x == y)%Q ->
  _find_price_at_time st x default_price = _find_price_at_time st y default_price.
Proof.
  intro H. unfold _find_price_at_time.
  destruct (data st) as [|s d]; [reflexivity|].
  rewrite (find_near_comp x y _ H).
  destruct (find (near y) (s :: d)) as [[? ?]|]; [reflexivity|].
  destruct (sorted tuple_leb (s :: d)) as [|[ts0 p0] rest].
  - now rewrite (scan_prev_comp x y _ _ H).
  - rewrite (Qlt_bool_comp x y ts0 ts0 H (Qeq_refl _)).
    now rewrite (scan_prev_comp x y _ _ H).
Qed.

Lemma add_point_comp (st : MovingAverage) (cp x y : Q) (acc : Q * Z) :
  (x == y)%Q -> add_point st cp x acc = add_point st cp y acc.
Proof.
  intro H. unfold add_point. now rewrite (find_price_comp st x y cp H).
Qed.

(** ** The walks on whole seconds *)

Section Walks.
Variable tz : Z.
Variable st : MovingAverage.
Variable cp : Q.

Lemma down_from_S (c : Z) (k : nat) :
  down_from c (S k) = c :: down_from (c - 1) k.
Proof.
  unfold down_from. cbn [seq map]. f_equal; [lia|].
  rewrite <- seq_shift, map_map. apply map_ext. intro i. lia.
Qed.

Lemma visit_all_cons (x : Q) (l : list Q) (acc : Q * Z) :
  visit_all tz st cp (x :: l) acc = visit_all tz st cp l (visit tz st cp acc x).
Proof. reflexivity. Qed.

Lemma visit_comp (acc : Q * Z) (x y : Q) :
  (x == y)%Q -> visit tz st cp acc x = visit tz st cp acc y.
Proof.
  intro H. unfold visit.
  now rewrite (is_trading_time_comp tz x y H), (add_point_comp st cp x y acc H).
Qed.

Lemma visit_all_comp (l l' : list Q) (acc : Q * Z) :
  Forall2 Qeq l l' -> visit_all tz st cp l acc = visit_all tz st cp l' acc.
Proof.
  intro H. revert acc. induction H as [|x y l l' Hxy _ IH]; intro acc.
  - reflexivity.
  - unfold visit_all in *. cbn [fold_left].
    rewrite (visit_comp acc x y Hxy). apply IH.
Qed.

Lemma visit_not_trading (acc : Q * Z) (c : Z) :
  trading_second tz c = false -> visit tz st cp acc (inject_Z c) = acc.
Proof.
  intro H. unfold visit.
  now rewrite (is_trading_time_whole tz _ c (Qeq_refl _)), H.
Qed.

(** Seconds without trading can be dropped from the top of a range. *)
Lemma visit_all_quiet (lo j c : Z) (acc : Q * Z) :
  j <= c -> quiet tz j c ->
  visit_all tz st cp (map inject_Z (down_from c (Z.to_nat (c - lo + 1)))) acc =
  visit_all tz st cp (map inject_Z (down_from j (Z.to_nat (j - lo + 1)))) acc.
Proof.
  intros Hle Hq.
  remember (Z.to_nat (c - j)) as m eqn:Em.
  revert c Hle Hq Em. induction m as [|m IH]; intros c Hle Hq Em.
  - replace c with j by lia. reflexivity.
  - destruct (Z_lt_le_dec c lo) as [Hlo | Hlo].
    + replace (Z.to_nat (c - lo + 1)) with 0%nat by lia.
      replace (Z.to_nat (j - lo + 1)) with 0%nat by lia.
      reflexivity.
    + replace (Z.to_nat (c - lo + 1)) with (S (Z.to_nat (c - 1 - lo + 1)))
        by lia.
      rewrite down_from_S. cbn [map]. rewrite visit_all_cons.
      rewrite visit_not_trading by (apply Hq; lia).
      apply IH; [lia | | lia].
      intros t Ht. apply Hq. lia.
Qed.
End Walks.

Lemma Qle_bool_inject (a b : Z) :
  Qle_bool (inject_Z a) (inject_Z b) = (a <=? b).
Proof. unfold Qle_bool, inject_Z. cbn [Qnum Qden]. now rewrite !Z.mul_1_r. Qed.

Lemma Qlt_bool_inject (a b : Z) :
  Qlt_bool (inject_Z a) (inject_Z b) = (a <? b).
Proof.
  unfold Qlt_bool. rewrite Qle_bool_inject.
  destruct (Z.leb_spec b a), (Z.ltb_spec a b); (reflexivity || lia).
Qed.

Lemma inject_Z_sub (a b : Z) :
  (inject_Z (a - b) == inject_Z a - inject_Z b)%Q.
Proof.
  unfold Z.sub. rewrite inject_Z_plus, inject_Z_opp. reflexivity.
Qed.

Lemma Qminus_inject (q : Q) (c k : Z) :
  (q == inject_Z c)%Q -> (q - inject_Z k == inject_Z (c - k))%Q.
Proof. intro H. now rewrite H, inject_Z_sub. Qed.

Section WalkSteps.
Variable tz : Z.

(** The cursor after [check_time -= 1] and the jump, on whole seconds:
    it does not exceed the decremented cursor, no trading second lies
    between the two, and it is a safe cursor again. *)
Lemma jump_whole (jump_to_time : Q -> option (option Q)) (q : Q) (c : Z) :
  jump_to_time_ok tz jump_to_time ->
  (q == inject_Z c)%Q -> safe tz (c + 1) ->
  exists qj j,
    jump tz jump_to_time q = Some qj /\
    (qj == inject_Z j)%Q /\ j <= c /\ quiet tz j c /\ safe tz j.
Proof.
  intros Hok Hq Hsafe. unfold jump.
  rewrite (is_trading_time_whole tz q c Hq).
  assert (Hself : quiet tz c c) by (intros t Ht; lia).
  destruct (trading_second tz c) eqn:Et; cbn [negb andb].
  { exists q, c. repeat split; try assumption; try lia.
    apply safe_session. apply trading_second_tod in Et. lia. }
  rewrite (Qlt_bool_comp 0 (inject_Z 0) q (inject_Z c) (Qeq_refl _) Hq).
  rewrite Qlt_bool_inject.
  destruct (Z.ltb_spec 0 c) as [Hpos | Hneg].
  2:{ exists q, c. repeat split; try assumption; try lia. now left. }
  assert (Hac : ~ after_close tz c).
  { destruct Hsafe as [Hs | Hs]; [lia|].
    now replace (c + 1 - 1) with c in Hs by lia. }
  destruct (Hok q c Hq Et Hpos Hac) as (r & -> & Hr).
  destruct r as [tq|].
  - destruct Hr as (tj & Htq & Hlt & Hge).
    rewrite (Qlt_bool_comp tq (inject_Z tj) q (inject_Z c) Htq Hq).
    rewrite Qlt_bool_inject.
    destruct (Z.ltb_spec tj c) as [Hj | Hj].
    + destruct (Hlt Hj) as (Hquiet & Hsafej).
      exists tq, tj. repeat split; try assumption; lia.
    + exists q, c. repeat split; try assumption; try lia.
      apply safe_not_after_close; [|exact Hac].
      specialize (Hge Hj). lia.
  - exists q, c. repeat split; try assumption; try lia.
    apply safe_not_after_close; [lia | exact Hac].
Qed.

Variable st : MovingAverage.
Variable cp : Q.

(** The primary walk from a safe whole second [c] visits the seconds
    [c], [c - 1], ... down to the first one [lo] that satisfies the loop
    test; the seconds it jumps over hold no trading instant. *)
Lemma primary_walk_whole (window_start : Q) (lo : Z) :
  (forall t : Z,
      Qle_bool window_start (inject_Z t) && Qle_bool 0 (inject_Z t) = true
      <-> lo <= t) ->
  forall (fuel : nat) (q : Q) (c : Z) (acc : Q * Z),
    (q == inject_Z c)%Q -> safe tz c ->
    (Z.to_nat (c - lo + 1) <= fuel)%nat ->
    primary_walk tz fuel st window_start cp q acc =
    Some (visit_all tz st cp
            (map inject_Z (down_from c (Z.to_nat (c - lo + 1)))) acc).
Proof.
  intros Hlo. induction fuel as [|fuel IH]; intros q c acc Hq Hsafe Hfuel.
  - assert (Hc : c < lo) by lia.
    replace (Z.to_nat (c - lo + 1)) with 0%nat by lia.
    cbn [primary_walk].
    rewrite (Qleb_comp _ _ (Qeq_refl window_start) _ _ Hq).
    rewrite (Qleb_comp _ _ (Qeq_refl 0%Q) _ _ Hq).
    destruct (Qle_bool window_start (inject_Z c) && Qle_bool 0 (inject_Z c))
      eqn:E; [apply Hlo in E; lia | reflexivity].
  - cbn [primary_walk].
    rewrite (Qleb_comp _ _ (Qeq_refl window_start) _ _ Hq).
    rewrite (Qleb_comp _ _ (Qeq_refl 0%Q) _ _ Hq).
    destruct (Qle_bool window_start (inject_Z c) && Qle_bool 0 (inject_Z c))
      eqn:E.
    + apply Hlo in E.
      destruct (jump_whole (primary_jump_to_time tz) (q - 1) (c - 1)
                  (primary_jump_to_time_ok tz))
        as (qj & j & -> & Hqj & Hj & Hquiet & Hsafej).
      { now apply Qminus_inject. }
      { now replace (c - 1 + 1) with c by lia. }
      rewrite (IH qj j _ Hqj Hsafej) by lia.
      f_equal.
      replace (Z.to_nat (c - lo + 1)) with (S (Z.to_nat (c - 1 - lo + 1)))
        by lia.
      rewrite down_from_S. cbn [map]. rewrite visit_all_cons.
      rewrite (visit_all_quiet tz st cp lo j (c - 1)) by assumption.
      f_equal. exact (visit_comp tz st cp acc q _ Hq).
    + replace (Z.to_nat (c - lo + 1)) with 0%nat; [reflexivity|].
      destruct (Z_lt_le_dec c lo) as [Hc | Hc]; [lia|].
      apply Hlo in Hc. congruence.
Qed.
End WalkSteps.

(** ** Floors, ceilings and the budget of the continuation walk *)

Lemma Qfloor_ge (z : Z) (x : Q) : z <= Qfloor x <-> (inject_Z z <= x)%Q.
Proof.
  split; intro H.
  - apply Qle_trans with (inject_Z (Qfloor x)); [|apply Qfloor_le].
    now rewrite <- Zle_Qle.
  - destruct (Z_lt_le_dec (Qfloor x) z) as [Hlt | Hle]; [|exact Hle].
    exfalso. pose proof (Qlt_floor x) as Hx.
    assert (Hz : (inject_Z (Qfloor x + 1) <= inject_Z z)%Q)
      by (rewrite <- Zle_Qle; lia).
    lra.
Qed.

Lemma Qceiling_le (z : Z) (x : Q) : Qceiling x <= z <-> (x <= inject_Z z)%Q.
Proof.
  split; intro H.
  - apply Qle_trans with (inject_Z (Qceiling x)); [apply Qle_ceiling|].
    now rewrite <- Zle_Qle.
  - destruct (Z_lt_le_dec z (Qceiling x)) as [Hlt | Hle]; [|exact Hle].
    exfalso. pose proof (Qceiling_lt x) as Hx.
    assert (Hz : (inject_Z z <= inject_Z (Qceiling x - 1))%Q)
      by (rewrite <- Zle_Qle; lia).
    lra.
Qed.

Lemma budget_nonpos (r : Q) : (r <= 0)%Q -> budget r = 0%nat.
Proof.
  intro H. unfold budget.
  assert (Qceiling r <= 0) by (apply Qceiling_le; exact H). lia.
Qed.

Lemma budget_pos (r : Q) : (0 < r)%Q -> budget r = S (budget (r - 1)).
Proof.
  intro H. unfold budget.
  assert (H1 : 1 <= Qceiling r).
  { destruct (Z_lt_le_dec (Qceiling r) 1) as [Hlt | Hle]; [|exact Hle].
    assert (Hc : Qceiling r <= 0) by lia.
    apply Qceiling_le in Hc. change (inject_Z 0) with 0%Q in Hc. lra. }
  assert (H2 : Qceiling (r - 1) = Qceiling r - 1).
  { apply Z.le_antisymm.
    - apply Qceiling_le.
      pose proof (Qle_ceiling r) as Hr.
      rewrite inject_Z_sub. change (inject_Z 1) with 1%Q. lra.
    - assert (Hc : Qceiling r <= Qceiling (r - 1) + 1); [|lia].
      apply Qceiling_le.
      pose proof (Qle_ceiling (r - 1)) as Hr.
      rewrite inject_Z_plus. change (inject_Z 1) with 1%Q. lra. }
  rewrite H2. lia.
Qed.

Section ContinuationWalk.
Variable tz : Z.
Variable st : MovingAverage.
Variable cp : Q.

Lemma trading_seconds_back_neg (c : Z) : c < 0 -> trading_seconds_back tz c = [].
Proof.
  intro H. unfold trading_seconds_back.
  now replace (Z.to_nat (c + 1)) with 0%nat by lia.
Qed.

Lemma trading_seconds_back_step (c : Z) :
  0 <= c ->
  trading_seconds_back tz c =
  if is_trading_time tz (inject_Z c)
  then inject_Z c :: trading_seconds_back tz (c - 1)
  else trading_seconds_back tz (c - 1).
Proof.
  intro H. unfold trading_seconds_back.
  replace (Z.to_nat (c + 1)) with (S (Z.to_nat (c - 1 + 1))) by lia.
  rewrite down_from_S. reflexivity.
Qed.

Lemma trading_seconds_back_quiet (j c : Z) :
  j <= c -> quiet tz j c ->
  trading_seconds_back tz c = trading_seconds_back tz j.
Proof.
  intros Hle Hq.
  remember (Z.to_nat (c - j)) as m eqn:Em.
  revert c Hle Hq Em. induction m as [|m IH]; intros c Hle Hq Em.
  - now replace c with j by lia.
  - destruct (Z_lt_le_dec c 0) as [Hneg | Hpos].
    + now rewrite !trading_seconds_back_neg by lia.
    + rewrite trading_seconds_back_step by assumption.
      rewrite (is_trading_time_whole tz _ c (Qeq_refl _)).
      rewrite (Hq c) by lia.
      apply IH; [lia | | lia].
      intros t Ht. apply Hq. lia.
Qed.

(** The continuation walk from a safe whole second [c] with
    [remaining_seconds = r] visits the [budget r] latest trading seconds
    at or before [c], or all of them back to the epoch when there are
    fewer. *)
Lemma continuation_walk_whole (fuel : nat) :
  forall (q : Q) (c : Z) (r : Q) (acc : Q * Z),
    (q == inject_Z c)%Q -> safe tz c ->
    (Z.to_nat (c + 1) <= fuel)%nat ->
    continuation_walk tz fuel st cp q r acc =
    Some (visit_all tz st cp
            (firstn (budget r) (trading_seconds_back tz c)) acc).
Proof.
  induction fuel as [|fuel IH]; intros q c r acc Hq Hsafe Hfuel;
    cbn [continuation_walk];
    rewrite (Qleb_comp _ _ (Qeq_refl 0%Q) _ _ Hq);
    change 0%Q with (inject_Z 0) at 1; rewrite Qle_bool_inject;
    destruct (Z.leb_spec 0 c) as [Hc | Hc]; cbn [andb]; try lia.
  - rewrite trading_seconds_back_neg by lia. now rewrite firstn_nil.
  - destruct (Qlt_bool 0 r) eqn:Er.
    2:{ apply Qlt_bool_false_iff in Er. now rewrite budget_nonpos. }
    apply Qlt_bool_iff in Er.
    destruct (jump_whole tz (continuation_jump_to_time tz) (q - 1) (c - 1)
                (continuation_jump_to_time_ok tz))
      as (qj & j & Ej & Hqj & Hj & Hquiet & Hsafej).
    { now apply Qminus_inject. }
    { now replace (c - 1 + 1) with c by lia. }
    rewrite trading_seconds_back_step by assumption.
    rewrite (trading_seconds_back_quiet j (c - 1)) by assumption.
    rewrite (is_trading_time_comp tz q _ Hq).
    destruct (is_trading_time tz (inject_Z c)) eqn:Et.
    + rewrite Ej, (IH qj j _ _ Hqj Hsafej) by lia.
      rewrite (budget_pos r Er). cbn [firstn]. rewrite visit_all_cons.
      replace (visit tz st cp acc (inject_Z c)) with (add_point st cp q acc);
        [reflexivity|].
      unfold visit. rewrite Et. exact (add_point_comp st cp q _ acc Hq).
    + rewrite Ej, (IH qj j _ _ Hqj Hsafej) by lia. reflexivity.
  - rewrite trading_seconds_back_neg by lia. now rewrite firstn_nil.
Qed.
End ContinuationWalk.

(** ** The mean over the trailing window *)

Section WindowMean.
Variable tz : Z.
Variable st : MovingAverage.

Lemma visit_all_sum (l : list Q) (acc : Q * Z) :
  (fst (visit_all tz st (current_price_of st) l acc)
   == fst acc + Qsum (map (price st) (filter (contributes tz st) l)))%Q /\
  snd (visit_all tz st (current_price_of st) l acc)
  = snd acc + Z.of_nat (length (filter (contributes tz st) l)).
Proof.
  revert acc. induction l as [|t l IH]; intro acc.
  - unfold visit_all, Qsum. cbn [fold_left filter map length fold_right].
    split.
    + ring.
    + lia.
  - rewrite visit_all_cons. cbn [filter].
    unfold visit, contributes, add_point. fold (price st t).
    destruct (is_trading_time tz t); cbn [andb];
      [destruct (Qlt_bool 0 (price st t))|];
      destruct (IH acc) as (IH1 & IH2);
      try (split; assumption).
    destruct (IH ((fst acc + price st t)%Q, snd acc + 1)) as (IH3 & IH4).
    cbn [fst snd] in IH3, IH4. cbn [map length Qsum fold_right].
    split.
    + rewrite IH3.
      set (rest := Qsum (map (price st) (filter (contributes tz st) l))).
      change (fst acc + price st t + rest
              == fst acc + (price st t + rest))%Q.
      ring.
    + rewrite IH4.
      change (snd acc + 1 + Z.of_nat (length (filter (contributes tz st) l))
              = snd acc + Z.of_nat (S (length (filter (contributes tz st) l)))).
      lia.
Qed.

Lemma sma_of_mean (acc : Q * Z) (ps : list Q) :
  (fst acc == Qsum ps)%Q -> snd acc = Z.of_nat (length ps) ->
  (sma_of acc == mean_of ps)%Q.
Proof.
  intros Hs Hc. unfold sma_of, mean_of. rewrite Hc.
  destruct ps as [|p ps]; [reflexivity|].
  replace (0 <? Z.of_nat (length (p :: ps))) with true
    by (symmetry; apply Z.ltb_lt; simpl length; lia).
  now rewrite Hs.
Qed.

Lemma sma_of_visit_all (l : list Q) :
  (sma_of (visit_all tz st (current_price_of st) l (0%Q, 0%Z))
   == mean_of (map (price st) (filter (contributes tz st) l)))%Q.
Proof.
  destruct (visit_all_sum l (0%Q, 0%Z)) as (H1 & H2). cbn [fst snd] in H1, H2.
  apply sma_of_mean.
  - rewrite H1. ring.
  - rewrite H2, length_map. reflexivity.
Qed.
End WindowMean.


(** The seconds of the window of a whole-second [now]. *)
Lemma window_seconds_whole (now w : Q) (n : Z) :
  (now == inject_Z n)%Q ->
  Forall2 Qeq (window_seconds now w)
    (map inject_Z
       (down_from n (Z.to_nat (n - Z.max (n - Qfloor w) 0 + 1)))).
Proof.
  intro Hn. unfold window_seconds, py_range. rewrite map_map.
  assert (G : forall (M a : nat),
             Forall2 Qeq
               (filter (Qle_bool 0)
                  (map (fun i => (now - inject_Z (Z.of_nat i))%Q) (seq a M)))
               (map inject_Z
                  (down_from (n - Z.of_nat a)
                     (Nat.min M (Z.to_nat (n - Z.of_nat a + 1)))))).
  { induction M as [|M IH]; intro a.
    - constructor.
    - cbn [seq map filter].
      rewrite (Qleb_comp _ _ (Qeq_refl 0%Q) _ _
                 (Qminus_inject now n (Z.of_nat a) Hn)).
      change 0%Q with (inject_Z 0). rewrite Qle_bool_inject.
      specialize (IH (S a)).
      replace (n - Z.of_nat (S a)) with (n - Z.of_nat a - 1) in IH by lia.
      destruct (Z.leb_spec 0 (n - Z.of_nat a)) as [Hge | Hlt].
      + replace (Nat.min (S M) (Z.to_nat (n - Z.of_nat a + 1)))
          with (S (Nat.min M (Z.to_nat (n - Z.of_nat a - 1 + 1)))) by lia.
        rewrite down_from_S. cbn [map]. constructor; [|exact IH].
        now apply Qminus_inject.
      + replace (Nat.min (S M) (Z.to_nat (n - Z.of_nat a + 1))) with 0%nat
          by lia.
        replace (Nat.min M (Z.to_nat (n - Z.of_nat a - 1 + 1))) with 0%nat
          in IH by lia.
        exact IH. }
  specialize (G (Z.to_nat (Qfloor w + 1)) 0%nat).
  replace (n - Z.of_nat 0) with n in G by lia.
  replace (Z.to_nat (n - Z.max (n - Qfloor w) 0 + 1))
    with (Nat.min (Z.to_nat (Qfloor w + 1)) (Z.to_nat (n + 1))) by lia.
  exact G.
Qed.

(** ** Jumps and termination, for any cursor *)

Section Termination.
Variable tz : Z.

Lemma primary_jump_to_time_some (q : Q) :
  exists r, primary_jump_to_time tz q = Some r.
Proof.
  unfold primary_jump_to_time.
  destruct (_ && _); [eauto|]. destruct (_ || _); [|eauto].
  destruct (previous_trading_day_spec (dt_date (fromtimestamp tz q)))
    as (p & -> & _). eauto.
Qed.

Lemma continuation_jump_to_time_some (q : Q) :
  exists r, continuation_jump_to_time tz q = Some r.
Proof.
  unfold continuation_jump_to_time.
  destruct (_ || _); [|eauto].
  destruct (previous_trading_day_spec (dt_date (fromtimestamp tz q)))
    as (p & -> & _). eauto.
Qed.

(** The end of a loop body either keeps the decremented cursor or
    replaces it by a jump target strictly below it. *)
Lemma jump_decreases (jump_to_time : Q -> option (option Q)) (q : Q) :
  (exists r, jump_to_time q = Some r) ->
  exists q',
    jump tz jump_to_time q = Some q' /\
    (q' = q \/ (jump_to_time q = Some (Some q') /\ (q' < q)%Q)).
Proof.
  intros (r & Er). unfold jump. rewrite Er.
  destruct (negb (is_trading_time tz q) && Qlt_bool 0 q); [|eauto].
  destruct r as [j|]; [|eauto].
  destruct (Qlt_bool j q) eqn:E; [|eauto].
  apply Qlt_bool_iff in E. eauto.
Qed.

Lemma jump_le (jump_to_time : Q -> option (option Q)) (q q' : Q) :
  jump tz jump_to_time q = Some q' -> (q' <= q)%Q.
Proof.
  unfold jump.
  destruct (negb (is_trading_time tz q) && Qlt_bool 0 q).
  - destruct (jump_to_time q) as [[j|]|]; try discriminate.
    + destruct (Qlt_bool j q) eqn:E; intro H; injection H as <-.
      * apply Qlt_bool_iff in E. lra.
      * lra.
    + intro H; injection H as <-. lra.
  - intro H; injection H as <-. lra.
Qed.

Lemma walk_fuel_pos (q : Q) : Qle_bool 0 q = true -> (1 <= walk_fuel q)%nat.
Proof.
  intro H. apply Qle_bool_iff in H. unfold walk_fuel.
  assert (0 <= Qfloor q) by (apply Qfloor_ge; exact H). lia.
Qed.

Lemma walk_fuel_step (q q' : Q) :
  (q' <= q - 1)%Q -> Qle_bool 0 q = true ->
  (S (walk_fuel q') <= walk_fuel q)%nat.
Proof.
  intros Hle H0. apply Qle_bool_iff in H0. unfold walk_fuel.
  assert (H1 : 0 <= Qfloor q) by (apply Qfloor_ge; exact H0).
  assert (H2 : Qfloor q' + 1 <= Qfloor q).
  { apply Qfloor_ge. rewrite inject_Z_plus.
    pose proof (Qfloor_le q'). change (inject_Z 1) with 1%Q. lra. }
  lia.
Qed.

Variable st : MovingAverage.
Variable cp : Q.

Lemma primary_walk_terminates (window_start : Q) (fuel : nat) :
  forall (q : Q) (acc : Q * Z),
    (walk_fuel q <= fuel)%nat ->
    exists r, primary_walk tz fuel st window_start cp q acc = Some r.
Proof.
  induction fuel as [|fuel IH]; intros q acc Hfuel; cbn [primary_walk];
    destruct (Qle_bool window_start q); cbn [andb]; eauto;
    destruct (Qle_bool 0 q) eqn:E0; eauto.
  - apply walk_fuel_pos in E0. lia.
  - destruct (jump_decreases (primary_jump_to_time tz) (q - 1)
                (primary_jump_to_time_some _)) as (q' & Ej & _).
    rewrite Ej. apply IH.
    pose proof (walk_fuel_step q q' (jump_le _ _ _ Ej) E0). lia.
Qed.

Lemma continuation_walk_terminates (fuel : nat) :
  forall (q r0 : Q) (acc : Q * Z),
    (walk_fuel q <= fuel)%nat ->
    exists r, continuation_walk tz fuel st cp q r0 acc = Some r.
Proof.
  induction fuel as [|fuel IH]; intros q r0 acc Hfuel;
    cbn [continuation_walk];
    destruct (Qle_bool 0 q) eqn:E0; cbn [andb]; eauto;
    destruct (Qlt_bool 0 r0); eauto.
  - apply walk_fuel_pos in E0. lia.
  - destruct (jump_decreases (continuation_jump_to_time tz) (q - 1)
                (continuation_jump_to_time_some _)) as (q' & Ej & _).
    rewrite Ej.
    pose proof (walk_fuel_step q q' (jump_le _ _ _ Ej) E0).
    destruct (is_trading_time tz q); apply IH; lia.
Qed.

(** More fuel does not change a result. *)
Lemma primary_walk_more_fuel (window_start : Q) (fuel : nat) :
  forall (fuel' : nat) (q : Q) (acc r : Q * Z),
    (fuel <= fuel')%nat ->
    primary_walk tz fuel st window_start cp q acc = Some r ->
    primary_walk tz fuel' st window_start cp q acc = Some r.
Proof.
  induction fuel as [|fuel IH]; intros fuel' q acc r Hle;
    (destruct fuel' as [|fuel']; [try lia|]); cbn [primary_walk];
    destruct (Qle_bool window_start q && Qle_bool 0 q);
    intro H; try discriminate H; try exact H.
  revert H.
  destruct (jump tz (primary_jump_to_time tz) (q - 1)); [|auto].
  apply IH. lia.
Qed.

Lemma continuation_walk_more_fuel (fuel : nat) :
  forall (fuel' : nat) (q r0 : Q) (acc r : Q * Z),
    (fuel <= fuel')%nat ->
    continuation_walk tz fuel st cp q r0 acc = Some r ->
    continuation_walk tz fuel' st cp q r0 acc = Some r.
Proof.
  induction fuel as [|fuel IH]; intros fuel' q r0 acc r Hle;
    (destruct fuel' as [|fuel']; [try lia|]); cbn [continuation_walk];
    destruct (Qle_bool 0 q && Qlt_bool 0 r0);
    intro H; try discriminate H; try exact H.
  revert H.
  destruct (jump tz (continuation_jump_to_time tz) (q - 1)); [|auto].
  destruct (is_trading_time tz q); apply IH; lia.
Qed.
End Termination.

Section GetSMATermination.
Variable tz : Z.
Variable st : MovingAverage.

Lemma GetSMA_more_fuel (fuel fuel' : nat) (r : Q) :
  (fuel <= fuel')%nat ->
  GetSMA tz fuel st = Some r -> GetSMA tz fuel' st = Some r.
Proof.
  intro Hle. unfold GetSMA.
  destruct (no_timestamp st); [auto|].
  destruct (current_timestamp st) as [now|]; [|auto].
  destruct (primary_walk tz fuel st (now - window st) (current_price_of st)
                         now (0%Q, 0)) as [acc|] eqn:E1; [|discriminate].
  rewrite (primary_walk_more_fuel tz st _ _ fuel fuel' _ _ _ Hle E1).
  destruct (continuation_runs tz st now acc); [|auto].
  destruct (continuation_walk tz fuel st (current_price_of st) _ _ acc)
    as [acc'|] eqn:E2; [|discriminate].
  now rewrite (continuation_walk_more_fuel tz st _ fuel fuel' _ _ _ _ Hle E2).
Qed.

Lemma GetSMA_enough_fuel : exists r, GetSMA tz (enough_fuel tz st) st = Some r.
Proof.
  unfold GetSMA, enough_fuel.
  destruct (no_timestamp st); [eauto|].
  destruct (current_timestamp st) as [now|]; [|eauto].
  fold (morning_end_ts tz now).
  set (fuel := Nat.max (walk_fuel now) (walk_fuel (morning_end_ts tz now))).
  destruct (primary_walk_terminates tz st (current_price_of st)
              (now - window st) fuel now (0%Q, 0)) as (acc & ->);
    [subst fuel; lia|].
  destruct (continuation_runs tz st now acc); [|eauto].
  destruct (continuation_walk_terminates tz st (current_price_of st) fuel
              (morning_end_ts tz now) (window st - inject_Z (snd acc)) acc)
    as (acc' & ->); [subst fuel; lia|].
  eauto.
Qed.

Lemma GetSMA_terminates_at (fuel : nat) :
  (enough_fuel tz st <= fuel)%nat -> exists r, GetSMA tz fuel st = Some r.
Proof.
  intro Hle. destruct GetSMA_enough_fuel as (r & Hr).
  exists r. exact (GetSMA_more_fuel _ fuel r Hle Hr).
Qed.
End GetSMATermination.

(** One iteration of each walk: the next cursor is [jump] of the
    decremented one. *)
Lemma primary_walk_step (tz : Z) (fuel : nat) (st : MovingAverage)
    (window_start cp c : Q) (acc : Q * Z) :
  primary_walk tz (S fuel) st window_start cp c acc =
  if Qle_bool window_start c && Qle_bool 0 c then
    match jump tz (primary_jump_to_time tz) (c - 1) with
    | Some c' => primary_walk tz fuel st window_start cp c' (visit tz st cp acc c)
    | None => None
    end
  else Some acc.
Proof. reflexivity. Qed.

Lemma continuation_walk_step (tz : Z) (fuel : nat) (st : MovingAverage)
    (cp c r : Q) (acc : Q * Z) :
  continuation_walk tz (S fuel) st cp c r acc =
  if Qle_bool 0 c && Qlt_bool 0 r then
    match jump tz (continuation_jump_to_time tz) (c - 1) with
    | Some c' =>
        continuation_walk tz fuel st cp c'
          (if is_trading_time tz c then r - 1 else r)%Q (visit tz st cp acc c)
    | None => None
    end
  else Some acc.
Proof.
  cbn [continuation_walk]. unfold visit.
  now destruct (is_trading_time tz c).
Qed.

(** C9: for every state, hence every snapshot of stored samples, every
    [now] and every window, [GetSMA] returns a result that no longer
    depends on the fuel once the fuel reaches [enough_fuel]; the cursor each
    iteration of either walk hands to the next one is the outcome of
    [jump] on the decremented cursor, which is that cursor or a jump
    target strictly below it, so an iteration takes at least one second
    off the cursor. *)
Theorem GetSMA_terminates (tz : Z) (st : MovingAverage) :
  (exists r, forall fuel,
      (enough_fuel tz st <= fuel)%nat -> GetSMA tz fuel st = Some r) /\
  (forall c : Q, exists c',
      jump tz (primary_jump_to_time tz) (c - 1) = Some c' /\
      (c' <= c - 1)%Q /\
      (c' = (c - 1)%Q \/
       (primary_jump_to_time tz (c - 1) = Some (Some c') /\ (c' < c - 1)%Q))) /\
  (forall c : Q, exists c',
      jump tz (continuation_jump_to_time tz) (c - 1) = Some c' /\
      (c' <= c - 1)%Q /\
      (c' = (c - 1)%Q \/
       (continuation_jump_to_time tz (c - 1) = Some (Some c') /\
        (c' < c - 1)%Q))).
Proof.
  split; [|split].
  - destruct (GetSMA_enough_fuel tz st) as (r & Hr).
    exists r. intros fuel Hle.
    exact (GetSMA_more_fuel tz st _ fuel r Hle Hr).
  - intro c.
    destruct (jump_decreases tz (primary_jump_to_time tz) (c - 1)
                (primary_jump_to_time_some tz _)) as (c' & Ej & Hc).
    exists c'. repeat split; try assumption.
    exact (jump_le tz _ _ _ Ej).
  - intro c.
    destruct (jump_decreases tz (continuation_jump_to_time tz) (c - 1)
                (continuation_jump_to_time_some tz _)) as (c' & Ej & Hc).
    exists c'. repeat split; try assumption.
    exact (jump_le tz _ _ _ Ej).
Qed.

(** ** The jump of the primary walk *)

(** C8: at a non-trading instant [t > 0] the end of the primary walk's
    loop body moves the cursor as follows.  With the local hour in
    [[11, 13)] the target is that day's 11:30:00; with the hour before 9
    or from 15 on, the target is 15:00:00 of the closest earlier weekday,
    every day in between being a Saturday or a Sunday; in both cases the
    cursor takes the target when the target is strictly below it and
    stays otherwise.  With any other hour the cursor stays. *)
Theorem primary_jump_spec (tz : Z) (t : Q) :
  is_trading_time tz t = false -> (0 < t)%Q ->
  let dt := fromtimestamp tz t in
  let next := jump tz (primary_jump_to_time tz) t in
  (11 <= dt_hour dt < 13 ->
   let target := timestamp tz (strptime (dt_date dt) (11, 30, 0)) in
   ((target < t)%Q -> next = Some target) /\
   ((t <= target)%Q -> next = Some t)) /\
  (dt_hour dt < 9 \/ 15 <= dt_hour dt ->
   exists p,
     p < dt_date dt /\ weekday p < 5 /\
     (forall e, p < e < dt_date dt -> 5 <= weekday e) /\
     let target := timestamp tz (strptime p (15, 0, 0)) in
     ((target < t)%Q -> next = Some target) /\
     ((t <= target)%Q -> next = Some t)) /\
  (9 <= dt_hour dt < 11 \/ 13 <= dt_hour dt < 15 -> next = Some t).
Proof.
  intros Hnt Hpos dt next. subst next. unfold jump. rewrite Hnt.
  apply Qlt_bool_iff in Hpos. rewrite Hpos. cbn [negb andb].
  unfold primary_jump_to_time. fold dt.
  assert (Hsel : forall target : Q,
             ((target < t)%Q ->
              (if Qlt_bool target t then Some target else Some t) = Some target) /\
             ((t <= target)%Q ->
              (if Qlt_bool target t then Some target else Some t) = Some t)).
  { intro target. split; intro H.
    - apply Qlt_bool_iff in H. now rewrite H.
    - apply Qlt_bool_false_iff in H. now rewrite H. }
  split; [|split].
  - intros Hh.
    replace ((11 <=? dt_hour dt) && (dt_hour dt <? 13)) with true by lia.
    apply Hsel.
  - intros Hh.
    replace ((11 <=? dt_hour dt) && (dt_hour dt <? 13)) with false by lia.
    replace ((dt_hour dt <? 9) || (dt_hour dt >=? 15)) with true by lia.
    destruct (previous_trading_day_spec (dt_date dt)) as (p & -> & Hp & Hw & Hwe).
    exists p. repeat split; try assumption; apply Hsel.
  - intros Hh.
    replace ((11 <=? dt_hour dt) && (dt_hour dt <? 13)) with false by lia.
    replace ((dt_hour dt <? 9) || (dt_hour dt >=? 15)) with false by lia.
    reflexivity.
Qed.

Lemma primary_jump_spec_witness :
  jump 28800 (primary_jump_to_time 28800) (inject_Z 1743742799)
  = Some (timestamp 28800 (strptime 20182 (11, 30, 0))).
Proof.
  assert (Hnt : is_trading_time 28800 (inject_Z 1743742799) = false)
    by reflexivity.
  assert (Hpos : (0 < inject_Z 1743742799)%Q) by reflexivity.
  destruct (primary_jump_spec 28800 (inject_Z 1743742799) Hnt Hpos)
    as (Hmid & _).
  apply Hmid.
  - vm_compute. split; [discriminate | reflexivity].
  - reflexivity.
Defined.

(** ** The mean at a whole-second [now] *)

Lemma walk_fuel_whole (q : Q) (n : Z) :
  (q == inject_Z n)%Q -> walk_fuel q = Z.to_nat (n + 1).
Proof.
  intro H. unfold walk_fuel. now rewrite (Qfloor_comp _ _ H), Qfloor_Z.
Qed.

Lemma morning_end_ts_whole (tz : Z) (now : Q) :
  (morning_end_ts tz now
   == inject_Z (at_day tz (dt_date (fromtimestamp tz now)) 41400))%Q.
Proof.
  unfold morning_end_ts, trading_hours. cbn [morning_end].
  apply timestamp_strptime.
Qed.

Section PrimaryOnly.
Variable tz : Z.
Variable st : MovingAverage.

Lemma loop_test_whole (now : Q) (n t : Z) :
  (now == inject_Z n)%Q ->
  Qle_bool (now - window st) (inject_Z t) && Qle_bool 0 (inject_Z t) = true
  <-> Z.max (n - Qfloor (window st)) 0 <= t.
Proof.
  intro Hn. rewrite andb_true_iff, !Qle_bool_iff.
  change 0%Q with (inject_Z 0). rewrite <- Zle_Qle.
  assert (H : (now - window st <= inject_Z t)%Q <-> n - t <= Qfloor (window st)).
  { rewrite Qfloor_ge, inject_Z_sub, Hn. split; intro; lra. }
  rewrite H. lia.
Qed.

(** The primary walk from a safe whole-second [now] accumulates the
    seconds of the window. *)
Lemma primary_walk_window (now : Q) (n : Z) (fuel : nat) :
  (now == inject_Z n)%Q -> safe tz n ->
  (Z.to_nat (n + 1) <= fuel)%nat ->
  primary_walk tz fuel st (now - window st) (current_price_of st) now
               (0%Q, 0) =
  Some (visit_all tz st (current_price_of st)
          (window_seconds now (window st)) (0%Q, 0)).
Proof.
  intros Hn Hsafe Hfuel.
  rewrite (primary_walk_whole tz st (current_price_of st) (now - window st)
             (Z.max (n - Qfloor (window st)) 0)
             (fun t => loop_test_whole now n t Hn)
             fuel now n (0%Q, 0) Hn Hsafe) by lia.
  f_equal. symmetry. apply visit_all_comp.
  now apply window_seconds_whole.
Qed.

Lemma no_timestamp_whole (now : Q) (n : Z) :
  current_timestamp st = Some now -> (now == inject_Z n)%Q -> n <> 0 ->
  no_timestamp st = false.
Proof.
  intros Hts Hn Hnz. unfold no_timestamp. rewrite Hts.
  destruct (Qeq_bool now 0) eqn:E; [|reflexivity].
  apply Qeq_bool_iff in E. rewrite Hn in E.
  change 0%Q with (inject_Z 0) in E.
  elim Hnz. exact (proj1 (inject_Z_injective n 0) E).
Qed.

Lemma visit_all_app (l l' : list Q) (acc : Q * Z) :
  visit_all tz st (current_price_of st) (l ++ l') acc
  = visit_all tz st (current_price_of st) l'
              (visit_all tz st (current_price_of st) l acc).
Proof. unfold visit_all. apply fold_left_app. Qed.

Lemma enough_fuel_whole (now : Q) (n : Z) (fuel : nat) :
  current_timestamp st = Some now -> (now == inject_Z n)%Q ->
  (enough_fuel tz st <= fuel)%nat ->
  (Z.to_nat (n + 1) <= fuel)%nat /\
  (Z.to_nat (morning_close tz now + 1) <= fuel)%nat.
Proof.
  intros Hts Hn Hfuel. unfold enough_fuel in Hfuel. rewrite Hts in Hfuel.
  rewrite (walk_fuel_whole now n Hn) in Hfuel.
  rewrite (walk_fuel_whole _ _ (morning_end_ts_whole tz now)) in Hfuel.
  unfold morning_close. lia.
Qed.

(** [GetSMA] at a safe whole-second [now]: the mean over the seconds of
    the window, followed by those of the continuation when it runs. *)
Lemma GetSMA_whole (now : Q) (n : Z) (fuel : nat) :
  current_timestamp st = Some now ->
  (now == inject_Z n)%Q -> n <> 0 -> safe tz n ->
  (enough_fuel tz st <= fuel)%nat ->
  let count := inject_Z (Z.of_nat (length (contributing_seconds tz st now))) in
  GetSMA tz fuel st =
  Some (sma_of
          (visit_all tz st (current_price_of st)
             (window_seconds now (window st)
              ++ (if is_afternoon_session tz now && Qlt_bool count (window st)
                  then continuation_seconds tz st now else []))
             (0%Q, 0))).
Proof.
  intros Hts Hn Hnz Hsafe Hfuel' count.
  destruct (enough_fuel_whole now n fuel Hts Hn Hfuel') as (Hfuel & Hfuelm).
  unfold GetSMA.
  rewrite (no_timestamp_whole now n Hts Hn Hnz), Hts.
  rewrite (primary_walk_window now n fuel Hn Hsafe Hfuel).
  rewrite visit_all_app.
  set (acc := visit_all tz st (current_price_of st)
                        (window_seconds now (window st)) (0%Q, 0)).
  assert (Hc : snd acc = Z.of_nat (length (contributing_seconds tz st now))).
  { destruct (visit_all_sum tz st (window_seconds now (window st)) (0%Q, 0))
      as (_ & Hc). exact Hc. }
  unfold continuation_runs. rewrite Hc. fold count.
  destruct (is_afternoon_session tz now && Qlt_bool count (window st));
    [|reflexivity].
  fold (morning_end_ts tz now).
  rewrite (continuation_walk_whole tz st (current_price_of st) fuel
             (morning_end_ts tz now) (morning_close tz now)).
  - reflexivity.
  - apply morning_end_ts_whole.
  - apply safe_session. unfold morning_close. rewrite tod_at_day; lia.
  - exact Hfuelm.
Qed.


(** Without the continuation, [GetSMA] is the mean over the window. *)
Lemma GetSMA_primary_only (now : Q) (n : Z) (fuel : nat) :
  current_timestamp st = Some now ->
  (now == inject_Z n)%Q -> n <> 0 -> safe tz n ->
  (enough_fuel tz st <= fuel)%nat ->
  is_afternoon_session tz now = false \/
  (window st <= inject_Z (Z.of_nat (length (contributing_seconds tz st now))))%Q ->
  exists r, GetSMA tz fuel st = Some r /\ (r == window_mean tz st now)%Q.
Proof.
  intros Hts Hn Hnz Hsafe Hfuel Hcond.
  rewrite (GetSMA_whole now n fuel Hts Hn Hnz Hsafe Hfuel). cbv zeta.
  replace (is_afternoon_session tz now
           && Qlt_bool (inject_Z (Z.of_nat (length (contributing_seconds tz st now))))
                       (window st)) with false.
  - rewrite app_nil_r. eexists. split; [reflexivity|].
    apply sma_of_visit_all.
  - symmetry. destruct Hcond as [-> | Hw]; [reflexivity|].
    apply andb_false_iff. right. now apply Qlt_bool_false_iff.
Qed.

(** With the continuation, the seconds it visits enter the mean too. *)
Lemma GetSMA_continued (now : Q) (n : Z) (fuel : nat) :
  current_timestamp st = Some now ->
  (now == inject_Z n)%Q -> n <> 0 -> safe tz n ->
  (enough_fuel tz st <= fuel)%nat ->
  is_afternoon_session tz now = true ->
  (inject_Z (Z.of_nat (length (contributing_seconds tz st now))) < window st)%Q ->
  exists r,
    GetSMA tz fuel st = Some r /\
    (r == mean_of
            (map (price st)
                 (filter (contributes tz st)
                         (window_seconds now (window st)
                          ++ continuation_seconds tz st now))))%Q.
Proof.
  intros Hts Hn Hnz Hsafe Hfuel Haft Hlt.
  rewrite (GetSMA_whole now n fuel Hts Hn Hnz Hsafe Hfuel). cbv zeta.
  apply Qlt_bool_iff in Hlt. rewrite Haft, Hlt. cbn [andb].
  eexists. split; [reflexivity|]. apply sma_of_visit_all.
Qed.
End PrimaryOnly.

(** ** A window without a contributing second *)

Lemma filter_none {A : Type} (f : A -> bool) (l : list A) :
  (forall x, In x l -> f x = false) -> filter f l = [].
Proof.
  induction l as [|x l IH]; intro H; [reflexivity|].
  cbn [filter]. rewrite (H x (or_introl eq_refl)).
  apply IH. intros y Hy. apply H. now right.
Qed.

Section IdleWindow.
Variable tz : Z.
Variable st : MovingAverage.









End IdleWindow.


(** ** The afternoon continuation *)

(** X27: what the continuation does.  After the primary walk has ended
    with the accumulators [acc], the continuation runs exactly when the
    local hour of [now] is 12 or more and the count is below the window.
    It then adds to [acc], with the same trading test and price
    resolution, the
    [budget (window - count)] latest trading seconds at or before
    11:30:00 of the local day of [now], or all of them back to the epoch
    when there are fewer: every trading second visited uses up one unit
    of the budget, counted or not.  Otherwise [acc] alone gives the
    result. *)
Theorem continuation_spec (tz : Z) (st : MovingAverage) (now : Q)
    (fuel : nat) :
  current_timestamp st = Some now -> ~ (now == 0)%Q ->
  (enough_fuel tz st <= fuel)%nat ->
  exists acc,
    primary_walk tz fuel st (now - window st) (current_price_of st) now
                 (0%Q, 0) = Some acc /\
    let count := inject_Z (snd acc) in
    (12 <= dt_hour (fromtimestamp tz now) /\ (count < window st)%Q ->
     Get tz fuel st =
     Some (sma_of (visit_all tz st (current_price_of st)
                     (firstn (budget (window st - count))
                             (trading_seconds_back tz (morning_close tz now)))
                     acc))) /\
    (dt_hour (fromtimestamp tz now) < 12 \/ (window st <= count)%Q ->
     Get tz fuel st = Some (sma_of acc)).
Proof.
  intros Hts Hnz Hfuel. unfold enough_fuel in Hfuel. rewrite Hts in Hfuel.
  destruct (primary_walk_terminates tz st (current_price_of st)
              (now - window st) fuel now (0%Q, 0)) as (acc & Eacc); [lia|].
  exists acc. split; [exact Eacc|]. cbv zeta.
  unfold Get, GetSMA, no_timestamp. rewrite Hts.
  destruct (Qeq_bool now 0) eqn:E0; [apply Qeq_bool_iff in E0; contradiction|].
  rewrite Eacc. unfold continuation_runs, is_afternoon_session.
  split.
  - intros (Hh & Hc). apply Qlt_bool_iff in Hc. rewrite Hc.
    replace (dt_hour (fromtimestamp tz now) <? 12) with false by lia.
    cbn [negb andb]. fold (morning_end_ts tz now).
    rewrite (continuation_walk_whole tz st (current_price_of st) fuel
               (morning_end_ts tz now) (morning_close tz now)).
    + reflexivity.
    + apply morning_end_ts_whole.
    + apply safe_session. unfold morning_close. rewrite tod_at_day; lia.
    + unfold morning_close.
      rewrite <- (walk_fuel_whole _ _ (morning_end_ts_whole tz now)). lia.
  - intros [Hh | Hc].
    + replace (dt_hour (fromtimestamp tz now) <? 12) with true by lia.
      reflexivity.
    + apply Qlt_bool_false_iff in Hc. rewrite Hc.
      now rewrite andb_false_r.
Qed.

Lemma continuation_spec_witness :
  let st := mkMA 10 10 [(inject_Z 1743737399, 50%Q); (inject_Z 1743739200, 100%Q)]
                 (Some (inject_Z 1743739200)) in
  exists acc,
    primary_walk 28800 (enough_fuel 28800 st) st
                 (inject_Z 1743739200 - window st) (current_price_of st)
                 (inject_Z 1743739200) (0%Q, 0) = Some acc /\
    let count := inject_Z (snd acc) in
    (12 <= dt_hour (fromtimestamp 28800 (inject_Z 1743739200)) /\
     (count < window st)%Q ->
     Get 28800 (enough_fuel 28800 st) st =
     Some (sma_of (visit_all 28800 st (current_price_of st)
                     (firstn (budget (window st - count))
                             (trading_seconds_back 28800
                                (morning_close 28800 (inject_Z 1743739200))))
                     acc))) /\
    (dt_hour (fromtimestamp 28800 (inject_Z 1743739200)) < 12 \/
     (window st <= count)%Q ->
     Get 28800 (enough_fuel 28800 st) st = Some (sma_of acc)).
Proof.
  intro st.
  apply (continuation_spec 28800 st (inject_Z 1743739200)
                           (enough_fuel 28800 st)).
  - reflexivity.
  - intro H. discriminate H.
  - apply le_n.
Defined.

(** C4: the continuation is to run only when [now] falls in the
    Afternoon session, as the comments of [GetSMA] say too, but the code
    tests the hour of [now] against 12.  At 12:00:00 on Friday 2025-04-04
    (UTC+8), in the midday break and outside the Afternoon session, the
    continuation runs: the primary walk counts nothing, and Get returns
    50, the price of the two morning seconds the continuation reaches,
    where no continuation gives 0. *)
Lemma continuation_outside_afternoon_session :
  exists (st : MovingAverage) (acc : Q * Z) (r : Q),
    Updates (init 10 10)
            [(inject_Z 1743737399, 50%Q); (inject_Z 1743739200, 100%Q)]
    = Some st /\
    current_timestamp st = Some (inject_Z 1743739200) /\
    primary_walk 28800 100 st (inject_Z 1743739200 - window st)
                 (current_price_of st) (inject_Z 1743739200) (0%Q, 0)
    = Some acc /\
    afternoon_session 28800 (inject_Z 1743739200) = false /\
    continuation_runs 28800 st (inject_Z 1743739200) acc = true /\
    sma_of acc = 0%Q /\
    (forall fuel, (100 <= fuel)%nat -> Get 28800 fuel st = Some r) /\
    (r == 50)%Q.
Proof.
  eexists. eexists. eexists.
  split; [reflexivity|]. split; [reflexivity|].
  split; [vm_compute; reflexivity|].
  split; [reflexivity|]. split; [reflexivity|]. split; [reflexivity|].
  split.
  - intros fuel Hle. apply (GetSMA_more_fuel 28800 _ 100 fuel _ Hle).
    vm_compute. reflexivity.
  - reflexivity.
Qed.

(** The continuation walk has no midday jump: at 12:59:59 the primary
    walk jumps to 11:30:00, the continuation walk stays. *)
Lemma continuation_has_no_midday_jump :
  jump 28800 (primary_jump_to_time 28800) (inject_Z 1743742799)
  = Some (timestamp 28800 (strptime 20182 (11, 30, 0))) /\
  jump 28800 (continuation_jump_to_time 28800) (inject_Z 1743742799)
  = Some (inject_Z 1743742799).
Proof. split; reflexivity. Qed.


(** After the close the primary walk can jump over trading seconds of
    its window: at 15:00:05 the cursor, decremented to 15:00:04, jumps to
    the previous trading day's close, past the six trading seconds of the
    window.  The continuation that runs at this hour finds no priced
    second, and Get returns 0 where the mean over the window is 70. *)
Lemma Get_after_close_skips_the_window :
  let st := mkMA 10 10 [(inject_Z 1743749990, 70%Q);
                        (inject_Z 1743750005, 80%Q)]
                 (Some (inject_Z 1743750005)) in
  (forall fuel, (100 <= fuel)%nat -> Get 28800 fuel st = Some 0%Q) /\
  length (contributing_seconds 28800 st (inject_Z 1743750005)) = 6%nat /\
  (window_mean 28800 st (inject_Z 1743750005) == 70)%Q.
Proof.
  intro st. split; [|split].
  - intros fuel Hle. apply (GetSMA_more_fuel 28800 _ 100 fuel _ Hle).
    vm_compute. reflexivity.
  - vm_compute. reflexivity.
  - vm_compute. reflexivity.
Qed.

(** ** The rounding of doubles *)

Lemma Qpower_2_nonneg (k : Z) : 0 <= k -> (Qpower 2 k == inject_Z (2 ^ k))%Q.
Proof. intro H. now rewrite Zpower_Qpower. Qed.

(** [binade] does give the exponent, whatever fraction represents [x]. *)
Lemma binade_spec (x : Q) :
  ~ (x == 0)%Q ->
  (Qpower 2 (binade x) <= Qabs x < Qpower 2 (binade x + 1))%Q.
Proof.
  intro Hx. unfold binade.
  destruct x as [a b]. cbn [Qnum Qden].
  set (la := Z.log2 (Z.abs a)). set (lb := Z.log2 (Z.pos b)).
  assert (Ha : a <> 0).
  { intros ->. apply Hx. reflexivity. }
  assert (Hla : 2 ^ la <= Z.abs a < 2 ^ (la + 1)).
  { replace (la + 1) with (Z.succ la) by lia. apply Z.log2_spec. lia. }
  assert (Hlb : 2 ^ lb <= Z.pos b < 2 ^ (lb + 1)).
  { replace (lb + 1) with (Z.succ lb) by lia. apply Z.log2_spec. lia. }
  assert (H0a : 0 <= la) by apply Z.log2_nonneg.
  assert (H0b : 0 <= lb) by apply Z.log2_nonneg.
  assert (N2 : ~ (2 == 0)%Q) by discriminate.
  assert (Eabs : (Qabs (a # b) == inject_Z (Z.abs a) / inject_Z (Z.pos b))%Q).
  { change (Qabs (a # b)) with (Z.abs a # b). apply Qmake_Qdiv. }
  assert (Ea : (Qpower 2 (la + 1) == 2 * inject_Z (2 ^ la))%Q).
  { rewrite Qpower_plus, Qpower_2_nonneg by (assumption || lia).
    rewrite Qpower_1_r. ring. }
  assert (Eb : (Qpower 2 (lb + 1) == 2 * inject_Z (2 ^ lb))%Q).
  { rewrite Qpower_plus, Qpower_2_nonneg by (assumption || lia).
    rewrite Qpower_1_r. ring. }
  set (A := inject_Z (Z.abs a)) in *. set (B := inject_Z (Z.pos b)) in *.
  set (PA := inject_Z (2 ^ la)) in *. set (PB := inject_Z (2 ^ lb)) in *.
  assert (HA : (PA <= A /\ A < 2 * PA)%Q).
  { unfold PA, A. split.
    - rewrite <- Zle_Qle. lia.
    - change 2%Q with (inject_Z 2). rewrite <- inject_Z_mult, <- Zlt_Qlt.
      rewrite Z.pow_add_r, Z.pow_1_r in Hla by lia. lia. }
  assert (HB : (PB <= B /\ B < 2 * PB)%Q).
  { unfold PB, B. split.
    - rewrite <- Zle_Qle. lia.
    - change 2%Q with (inject_Z 2). rewrite <- inject_Z_mult, <- Zlt_Qlt.
      rewrite Z.pow_add_r, Z.pow_1_r in Hlb by lia. lia. }
  assert (HPA : (0 < PA)%Q).
  { unfold PA. change 0%Q with (inject_Z 0). rewrite <- Zlt_Qlt.
    apply Z.pow_pos_nonneg; lia. }
  assert (HPB : (0 < PB)%Q).
  { unfold PB. change 0%Q with (inject_Z 0). rewrite <- Zlt_Qlt.
    apply Z.pow_pos_nonneg; lia. }
  assert (HBpos : (0 < B)%Q) by lra.
  assert (E0 : (Qpower 2 (la - lb) == PA / PB)%Q).
  { rewrite Qpower_minus, !Qpower_2_nonneg by (assumption || lia).
    reflexivity. }
  assert (E1 : (Qpower 2 (la - lb + 1) == 2 * PA / PB)%Q).
  { rewrite Qpower_plus, E0, Qpower_1_r by assumption. field. lra. }
  assert (Em : (Qpower 2 (la - lb - 1) == PA / (2 * PB))%Q).
  { rewrite Qpower_minus, E0, Qpower_1_r by assumption. field. lra. }
  assert (Up : (A / B < 2 * PA / PB)%Q).
  { apply Qlt_shift_div_r; [assumption|].
    setoid_replace (2 * PA / PB * B)%Q with (2 * PA * (B / PB))%Q
      by (field; lra).
    assert (1 <= B / PB)%Q by (apply Qle_shift_div_l; lra).
    nra. }
  assert (Lo : (PA / (2 * PB) < A / B)%Q).
  { apply Qlt_shift_div_l; [assumption|].
    setoid_replace (PA / (2 * PB) * B)%Q with (PA * (B / (2 * PB)))%Q
      by (field; lra).
    assert (B / (2 * PB) < 1)%Q by (apply Qlt_shift_div_r; lra).
    nra. }
  destruct (Qlt_bool (Qabs (a # b)) (Qpower 2 (la - lb))) eqn:E.
  - apply Qlt_bool_iff in E.
    replace (la - lb - 1 + 1) with (la - lb) by lia.
    split; [|exact E]. rewrite Em, Eabs. apply Qlt_le_weak, Lo.
  - apply Qlt_bool_false_iff in E.
    split; [exact E|]. rewrite E1, Eabs. exact Up.
Qed.

Lemma binade_unique (x : Q) (e : Z) :
  (Qpower 2 e <= Qabs x < Qpower 2 (e + 1))%Q -> ~ (x == 0)%Q ->
  binade x = e.
Proof.
  intros [H1 H2] Hx. destruct (binade_spec x Hx) as [H3 H4].
  assert (L1 : binade x < e + 1).
  { apply (Qpower_lt_compat_l_inv 2); [|reflexivity].
    eapply Qle_lt_trans; eassumption. }
  assert (L2 : e < binade x + 1).
  { apply (Qpower_lt_compat_l_inv 2); [|reflexivity].
    eapply Qle_lt_trans; eassumption. }
  lia.
Qed.

Lemma binade_comp (x y : Q) : (x == y)%Q -> ~ (x == 0)%Q -> binade x = binade y.
Proof.
  intros E Hx. apply binade_unique; [|exact Hx].
  rewrite E. apply binade_spec. now rewrite <- E.
Qed.

Lemma binary64_comp (x y : Q) : (x == y)%Q -> (binary64 x == binary64 y)%Q.
Proof.
  intro E. unfold binary64.
  destruct (Qeq_bool x 0) eqn:Ex.
  - assert (Ey : Qeq_bool y 0 = true).
    { apply Qeq_bool_iff. rewrite <- E. now apply Qeq_bool_iff. }
    rewrite Ey. reflexivity.
  - assert (Hx : ~ (x == 0)%Q).
    { intro H. apply Qeq_bool_iff in H. congruence. }
    assert (Ey : Qeq_bool y 0 = false).
    { destruct (Qeq_bool y 0) eqn:Ey; [|reflexivity].
      apply Qeq_bool_iff in Ey. rewrite <- E in Ey. contradiction. }
    rewrite Ey, (binade_comp x y E Hx).
    set (ulp := Qpower 2 _).
    rewrite (round_half_even_comp (x / ulp) (y / ulp)); [reflexivity|].
    now rewrite E.
Qed.

(** A whole number below 2^53 in absolute value is a double. *)
Lemma binary64_whole (z : Z) :
  Z.abs z < 2 ^ 53 -> (binary64 (inject_Z z) == inject_Z z)%Q.
Proof.
  intro Hz. unfold binary64.
  destruct (Qeq_bool (inject_Z z) 0) eqn:E0.
  { apply Qeq_bool_iff in E0. now rewrite E0. }
  assert (Hnz : z <> 0).
  { intros ->. discriminate E0. }
  set (e := Z.log2 (Z.abs z)).
  assert (He : 0 <= e < 53).
  { split; [apply Z.log2_nonneg|]. apply Z.log2_lt_pow2; lia. }
  assert (Hpow : 2 ^ e <= Z.abs z < 2 ^ (e + 1)).
  { replace (e + 1) with (Z.succ e) by lia. apply Z.log2_spec. lia. }
  assert (Eb : binade (inject_Z z) = e).
  { apply binade_unique.
    - change (Qabs (inject_Z z)) with (inject_Z (Z.abs z)).
      rewrite !Qpower_2_nonneg by lia.
      rewrite <- Zle_Qle, <- Zlt_Qlt. exact Hpow.
    - intro H. apply Qeq_bool_iff in H. congruence. }
  rewrite Eb.
  replace (Z.max (e - 52) (-1074)) with (- (52 - e)) by lia.
  set (k := 52 - e). assert (Hk : 0 <= k) by lia.
  assert (Hp : (Qpower 2 (- k) == / inject_Z (2 ^ k))%Q).
  { rewrite Qpower_opp, Qpower_2_nonneg by lia. reflexivity. }
  assert (Hpos : (0 < inject_Z (2 ^ k))%Q).
  { change 0%Q with (inject_Z 0). rewrite <- Zlt_Qlt.
    apply Z.pow_pos_nonneg; lia. }
  rewrite (round_half_even_whole _ (z * 2 ^ k)).
  - rewrite Hp, inject_Z_mult. field. lra.
  - rewrite Hp, inject_Z_mult. field. lra.
Qed.

(** With a whole-second [now] and a whole-number window the subtraction
    of src:143 is exact. *)
Lemma window_start_whole (now w : Q) (n k : Z) :
  (now == inject_Z n)%Q -> (w == inject_Z k)%Q -> Z.abs (n - k) < 2 ^ 53 ->
  Qceiling (binary64 (now - w)) = Qceiling (now - w).
Proof.
  intros En Ew Hb. apply Qceiling_comp.
  assert (E : (now - w == inject_Z (n - k))%Q).
  { rewrite En, Ew. unfold Zminus. rewrite inject_Z_plus, inject_Z_opp. ring. }
  rewrite (binary64_comp _ _ E), E. now apply binary64_whole.
Qed.

(** The rounding that the hypothesis on [binary64] keeps out: with
    [now] = 1743730202 and the double next to 1.99999999 as the window,
    the double computed for [now - window] is 1743730200, a whole second
    that the exact difference lies above.  There the code admits the
    second [now - 2], which is not in [[now - window, now]]. *)
Lemma window_start_can_round :
  let now := inject_Z 1743730202 in
  let w := (2251799802426249 # 1125899906842624)%Q in
  (binary64 w == w)%Q /\
  (binary64 (now - w) == inject_Z 1743730200)%Q /\
  Qceiling (binary64 (now - w)) = 1743730200 /\
  Qceiling (now - w) = 1743730201.
Proof. vm_compute. repeat split. Qed.


(** ** Prices of small stores at whole seconds *)

Lemma near_whole (a p : Q) (na t : Z) :
  (a == inject_Z na)%Q -> near (inject_Z t) (a, p) = (na =? t).
Proof.
  intro Ha. unfold near. cbn [fst].
  assert (E : (Qabs (a - inject_Z t) == inject_Z (Z.abs (na - t)))%Q).
  { rewrite Ha, <- inject_Z_sub. reflexivity. }
  rewrite (Qlt_bool_comp _ _ _ _ E (Qeq_refl (1 # 10))).
  unfold Qlt_bool, Qle_bool, inject_Z. cbn [Qnum Qden].
  destruct (Z.eqb_spec na t) as [-> | Hne].
  - now rewrite Z.sub_diag.
  - destruct (Z.leb_spec (1 * 1) (Z.abs (na - t) * 10)); [reflexivity | lia].
Qed.

Lemma price_one_sample (st : MovingAverage) (a pa : Q) (na t : Z) :
  data st = [(a, pa)] -> (a == inject_Z na)%Q ->
  price st (inject_Z t) = if t <? na then 0%Q else pa.
Proof.
  intros Hd Ha. unfold price, _find_price_at_time. rewrite Hd.
  cbn [find sorted insert_sorted]. rewrite (near_whole a pa na t Ha).
  destruct (Z.eqb_spec na t) as [-> | Hne].
  - now rewrite Z.ltb_irrefl.
  - cbn [scan_prev].
    rewrite (Qlt_bool_comp _ _ _ _ (Qeq_refl (inject_Z t)) Ha), Qlt_bool_inject.
    now destruct (t <? na).
Qed.

Lemma price_two_samples (st : MovingAverage) (a pa b pb : Q) (na nb t : Z) :
  data st = [(a, pa); (b, pb)] ->
  (a == inject_Z na)%Q -> (b == inject_Z nb)%Q -> na < nb ->
  price st (inject_Z t) =
  if t <? na then 0%Q else if t <? nb then pa else pb.
Proof.
  intros Hd Ha Hb Hlt. unfold price, _find_price_at_time. rewrite Hd.
  cbn [find]. rewrite (near_whole a pa na t Ha), (near_whole b pb nb t Hb).
  assert (Hab : tuple_leb (a, pa) (b, pb) = true).
  { unfold tuple_leb. cbn [fst snd].
    rewrite (Qlt_bool_comp _ _ _ _ Ha Hb), Qlt_bool_inject.
    now replace (na <? nb) with true by lia. }
  cbn [sorted insert_sorted]. rewrite Hab. cbn [scan_prev].
  rewrite (Qlt_bool_comp _ _ _ _ (Qeq_refl (inject_Z t)) Ha), Qlt_bool_inject.
  rewrite (Qlt_bool_comp _ _ _ _ (Qeq_refl (inject_Z t)) Hb), Qlt_bool_inject.
  destruct (Z.eqb_spec na t) as [-> | Hna].
  - rewrite Z.ltb_irrefl. now replace (t <? nb) with true by lia.
  - destruct (Z.eqb_spec nb t) as [-> | Hnb].
    + rewrite Z.ltb_irrefl. now replace (t <? na) with false by lia.
    + destruct (t <? na) eqn:E1; [reflexivity|].
      now destruct (t <? nb).
Qed.

(** ** The window of a whole-second [now], second by second *)

Section WindowWhole.
Variable tz : Z.
Variable st : MovingAverage.

Lemma contributes_comp (x y : Q) :
  (x == y)%Q -> contributes tz st x = contributes tz st y.
Proof.
  intro H. unfold contributes, price.
  now rewrite (is_trading_time_comp tz x y H),
              (find_price_comp st x y _ H).
Qed.

Lemma prices_comp (l l' : list Q) :
  Forall2 Qeq l l' ->
  map (price st) (filter (contributes tz st) l)
  = map (price st) (filter (contributes tz st) l').
Proof.
  induction 1 as [|x y l l' Hxy _ IH]; [reflexivity|].
  cbn [filter]. rewrite (contributes_comp x y Hxy).
  destruct (contributes tz st y); [|exact IH].
  cbn [map]. unfold price at 1 3. now rewrite (find_price_comp st x y _ Hxy), IH.
Qed.

(** The prices that enter the mean, when [now] is the whole second [n]
    and the window reaches back [k - 1] seconds without passing the
    epoch: given, for each second [n - i], whether it contributes and at
    what price. *)
Lemma window_prices (now : Q) (n : Z) (k : nat)
    (counted : Z -> bool) (priced : Z -> Q) :
  (now == inject_Z n)%Q ->
  Z.to_nat (n - Z.max (n - Qfloor (window st)) 0 + 1) = k ->
  (forall i, 0 <= i < Z.of_nat k ->
             contributes tz st (inject_Z (n - i)) = counted i /\
             (counted i = true -> price st (inject_Z (n - i)) = priced i)) ->
  map (price st) (contributing_seconds tz st now)
  = map priced (filter counted (py_range (Z.of_nat k))).
Proof.
  intros Hn Hk Hall. unfold contributing_seconds.
  rewrite (prices_comp _ _ (window_seconds_whole now (window st) n Hn)), Hk.
  unfold down_from, py_range. rewrite Nat2Z.id, map_map.
  assert (G : forall l : list nat,
             (forall i, In i l -> (i < k)%nat) ->
             map (price st)
                 (filter (contributes tz st)
                         (map (fun i => inject_Z (n - Z.of_nat i)) l))
             = map priced (filter counted (map Z.of_nat l))).
  { induction l as [|i l IH]; intro Hl; [reflexivity|].
    cbn [map filter].
    destruct (Hall (Z.of_nat i)) as (Hc & Hp).
    { specialize (Hl i (or_introl eq_refl)). lia. }
    rewrite Hc. destruct (counted (Z.of_nat i)); cbn [map];
      rewrite IH by (intros j Hj; apply Hl; now right);
      [now rewrite Hp | reflexivity]. }
  apply G. intros i Hi. apply in_seq in Hi. lia.
Qed.
End WindowWhole.

Lemma trading_second_at_day (tz d s : Z) :
  0 <= s < 86400 ->
  trading_second tz (at_day tz d s) = (weekday d <? 5) && in_session s.
Proof.
  intro H. unfold trading_second. now rewrite day_of_at_day, tod_at_day.
Qed.

Lemma Updates_two (nb : Z) (w a pa b pb : Q) :
  2 <= nb ->
  Updates (init nb w) [(a, pa); (b, pb)]
  = Some (mkMA nb w [(a, pa); (b, pb)] (Some b)).
Proof.
  intro H. unfold Updates, Update, init.
  cbn [data num_bin window app length].
  change (Z.of_nat 1) with 1.
  rewrite Z.gtb_ltb. replace (nb <? 1) with false by lia.
  cbn [data num_bin window app length]. change (Z.of_nat 2) with 2.
  rewrite Z.gtb_ltb. now replace (nb <? 2) with false by lia.
Qed.

(** ** The two scenarios *)

(** C6: capacity 10, window 60 s, one Update at 2025-04-04 09:31:00 local
    time, a Friday in the Morning session, with price 100: Get returns
    100, for any offset of local time from UTC of at most a day. *)
Theorem scenario_single_update (tz : Z) :
  -86400 <= tz <= 86400 ->
  let now := timestamp tz (strptime (date 2025 4 4) (9, 31, 0)) in
  weekday (date 2025 4 4) = 4 /\
  is_trading_time tz now = true /\
  exists st,
    Updates (init 10 60) [(now, 100%Q)] = Some st /\
    forall fuel, (enough_fuel tz st <= fuel)%nat ->
                 exists r, Get tz fuel st = Some r /\ (r == 100)%Q.
Proof.
  intros Htz now. change (date 2025 4 4) with 20182 in *.
  set (n := at_day tz 20182 34260).
  assert (Hn : (now == inject_Z n)%Q)
    by exact (timestamp_strptime tz 20182 9 31 0).
  assert (Htr : trading_second tz n = true)
    by (unfold n; now rewrite trading_second_at_day by lia).
  split; [reflexivity|]. split.
  { now rewrite (is_trading_time_whole tz now n Hn). }
  set (st := mkMA 10 60 [(now, 100%Q)] (Some now)).
  exists st. split; [reflexivity|]. intros fuel Hfuel.
  destruct (GetSMA_primary_only tz st now n fuel) as (r & Hr & Hmean);
    try assumption.
  - reflexivity.
  - unfold n, at_day. lia.
  - apply safe_session. unfold n. rewrite tod_at_day; lia.
  - left. unfold is_afternoon_session.
    rewrite (fromtimestamp_whole tz now n Hn). cbn [dt_hour].
    unfold n. now rewrite tod_at_day by lia.
  - exists r. split; [exact Hr|]. rewrite Hmean. unfold window_mean.
    rewrite (window_prices tz st now n 61 (fun i => i =? 0)
                           (fun _ => 100%Q) Hn).
    + vm_compute. reflexivity.
    + change (Qfloor (window st)) with 60. unfold n, at_day. lia.
    + intros i Hi. unfold contributes.
      rewrite (price_one_sample st now 100 n (n - i) eq_refl Hn).
      rewrite (is_trading_time_whole tz _ (n - i) (Qeq_refl _)).
      destruct (Z.eqb_spec i 0) as [-> | Hi0].
      * replace (n - 0) with n by lia. rewrite Htr, Z.ltb_irrefl.
        split; reflexivity.
      * replace (n - i <? n) with true by lia.
        split; [apply andb_false_r | discriminate].
Qed.

Lemma scenario_single_update_witness :
  let now := timestamp 28800 (strptime (date 2025 4 4) (9, 31, 0)) in
  weekday (date 2025 4 4) = 4 /\
  is_trading_time 28800 now = true /\
  exists st,
    Updates (init 10 60) [(now, 100%Q)] = Some st /\
    forall fuel, (enough_fuel 28800 st <= fuel)%nat ->
                 exists r, Get 28800 fuel st = Some r /\ (r == 100)%Q.
Proof. apply (scenario_single_update 28800). lia. Defined.

(** C5: capacity at least 2, window 10 s, Updates at 09:30:00 with price
    100 and at 09:30:05 with price 101 on a weekday after 1970-01-01: Get
    returns (5 * 100 + 101) / 6; the seconds that contribute are
    09:30:05 at 101 and the five seconds 09:30:04 back to 09:30:00 at 100,
    and no other. *)
Theorem scenario_two_updates (tz nb d : Z) :
  -86400 <= tz <= 86400 -> 2 <= nb -> 1 <= d -> weekday d < 5 ->
  let t0 := timestamp tz (strptime d (9, 30, 0)) in
  let t1 := timestamp tz (strptime d (9, 30, 5)) in
  exists st,
    Updates (init nb 10) [(t0, 100%Q); (t1, 101%Q)] = Some st /\
    map (price st) (contributing_seconds tz st t1)
    = [101; 100; 100; 100; 100; 100]%Q /\
    forall fuel, (enough_fuel tz st <= fuel)%nat ->
                 exists r, Get tz fuel st = Some r /\
                           (r == (5 * 100 + 101) / 6)%Q.
Proof.
  intros Htz Hnb Hd Hwd t0 t1.
  set (n0 := at_day tz d 34200). set (n1 := at_day tz d 34205).
  assert (H0 : (t0 == inject_Z n0)%Q)
    by exact (timestamp_strptime tz d 9 30 0).
  assert (H1 : (t1 == inject_Z n1)%Q)
    by exact (timestamp_strptime tz d 9 30 5).
  set (st := mkMA nb 10 [(t0, 100%Q); (t1, 101%Q)] (Some t1)).
  assert (Hprices : map (price st) (contributing_seconds tz st t1)
                    = [101; 100; 100; 100; 100; 100]%Q).
  { rewrite (window_prices tz st t1 n1 11 (fun i => i <=? 5)
                           (fun i => if i =? 0 then 101%Q else 100%Q) H1).
    - reflexivity.
    - change (Qfloor (window st)) with 10. unfold n1, at_day. lia.
    - intros i Hi. unfold contributes.
      rewrite (price_two_samples st t0 100 t1 101 n0 n1 (n1 - i) eq_refl H0 H1)
        by (unfold n0, n1, at_day; lia).
      rewrite (is_trading_time_whole tz _ (n1 - i) (Qeq_refl _)).
      replace (n1 - i) with (at_day tz d (34205 - i))
        by (unfold n1, at_day; lia).
      rewrite trading_second_at_day by lia.
      replace (weekday d <? 5) with true by lia. cbn [andb].
      unfold in_session, n0, n1, at_day.
      destruct (Z.leb_spec i 5) as [Hle | Hgt].
      + replace (86400 * d + (34205 - i) - tz <? 86400 * d + 34200 - tz)
          with false by lia.
        destruct (Z.eqb_spec i 0) as [-> | Hi0].
        * replace (86400 * d + (34205 - 0) - tz <? 86400 * d + 34205 - tz)
            with false by lia.
          split; [|reflexivity].
          replace ((34200 <=? 34205 - 0) && (34205 - 0 <=? 41400)) with true
            by lia.
          reflexivity.
        * replace (86400 * d + (34205 - i) - tz <? 86400 * d + 34205 - tz)
            with true by lia.
          split; [|reflexivity].
          replace ((34200 <=? 34205 - i) && (34205 - i <=? 41400)) with true
            by lia.
          reflexivity.
      + split; [|discriminate].
        replace ((34200 <=? 34205 - i) && (34205 - i <=? 41400)) with false
          by lia.
        replace ((46800 <=? 34205 - i) && (34205 - i <=? 54000)) with false
          by lia.
        reflexivity. }
  exists st. split; [now apply Updates_two|]. split; [exact Hprices|].
  intros fuel Hfuel.
  destruct (GetSMA_primary_only tz st t1 n1 fuel) as (r & Hr & Hmean);
    try assumption.
  - reflexivity.
  - unfold n1, at_day. lia.
  - apply safe_session. unfold n1. rewrite tod_at_day; lia.
  - left. unfold is_afternoon_session.
    rewrite (fromtimestamp_whole tz t1 n1 H1). cbn [dt_hour].
    unfold n1. now rewrite tod_at_day by lia.
  - exists r. split; [exact Hr|]. rewrite Hmean. unfold window_mean.
    rewrite Hprices. reflexivity.
Qed.

Lemma scenario_two_updates_witness :
  let t0 := timestamp 28800 (strptime (date 2025 4 4) (9, 30, 0)) in
  let t1 := timestamp 28800 (strptime (date 2025 4 4) (9, 30, 5)) in
  exists st,
    Updates (init 10 10) [(t0, 100%Q); (t1, 101%Q)] = Some st /\
    map (price st) (contributing_seconds 28800 st t1)
    = [101; 100; 100; 100; 100; 100]%Q /\
    forall fuel, (enough_fuel 28800 st <= fuel)%nat ->
                 exists r, Get 28800 fuel st = Some r /\
                           (r == (5 * 100 + 101) / 6)%Q.
Proof.
  apply (scenario_two_updates 28800 10 (date 2025 4 4)).
  - lia.
  - lia.
  - vm_compute. discriminate.
  - vm_compute. reflexivity.
Defined.

(** * Further properties of the sample store *)

(** ** A capacity below 1 *)

Lemma downsample_capacity_below_one (nb : Z) (s : Sample) :
  nb <= 0 -> downsample nb [s] = None.
Proof.
  intro H. unfold downsample.
  cbn [length sorted insert_sorted]. change (Z.of_nat 1) with 1.
  change (int_mul_02 1) with 0. change (int_mul_05 1) with 0.
  change (slice [s] 0 0) with (@nil Sample).
  change (slice_from [s] 0) with [s].
  cbn [sample_part].
  assert (E : py_range (nb - Z.max 1 (int_mul_01 nb) - Z.max 1 (int_mul_03 nb))
              = []).
  { unfold py_range.
    replace (Z.to_nat (nb - Z.max 1 (int_mul_01 nb) - Z.max 1 (int_mul_03 nb)))
      with 0%nat by lia.
    reflexivity. }
  unfold sample_indices. rewrite E. reflexivity.
Qed.

(** X1: an engine built with a capacity below 1 accepts no Update: the
    first one runs into the assignment to the last element of an empty
    list. *)
Theorem Updates_capacity_below_one (nb : Z) (w : Q) (ups : list Sample) :
  nb <= 0 -> ups <> [] -> Updates (init nb w) ups = None.
Proof.
  intros Hnb Hne. destruct ups as [|[t v] ups]; [congruence|].
  cbn [Updates]. unfold Update, init. cbn [data num_bin app length].
  change (Z.of_nat 1) with 1. rewrite Z.gtb_ltb.
  replace (nb <? 1) with true by lia.
  now rewrite downsample_capacity_below_one.
Qed.

Lemma Updates_capacity_below_one_witness :
  Updates (init 0 60) [(inject_Z 1743730200, 100%Q)] = None.
Proof.
  apply Updates_capacity_below_one.
  - lia.
  - discriminate.
Defined.

(** ** The store fills up and stays full *)

Lemma Update_under_capacity (st : MovingAverage) (t v : Q) :
  Z.of_nat (length (data st)) < num_bin st ->
  Update st t v =
  Some (mkMA (num_bin st) (window st) (data st ++ [(t, v)]) (Some t)).
Proof.
  intro H. unfold Update. rewrite Z.gtb_ltb, length_app. cbn [length].
  destruct (Z.ltb_spec (num_bin st) (Z.of_nat (length (data st) + 1)));
    [lia | reflexivity].
Qed.

Lemma Updates_under_capacity (ups : list Sample) :
  forall st : MovingAverage,
    Z.of_nat (length (data st) + length ups) <= num_bin st ->
    exists st',
      Updates st ups = Some st' /\
      data st' = data st ++ ups /\
      num_bin st' = num_bin st /\ window st' = window st.
Proof.
  induction ups as [|[t v] ups IH]; intros st H; cbn [Updates].
  - exists st. now rewrite app_nil_r.
  - cbn [length] in H.
    rewrite Update_under_capacity by lia.
    destruct (IH (mkMA (num_bin st) (window st) (data st ++ [(t, v)]) (Some t)))
      as (st' & E & Hd & Hn & Hw).
    { cbn [data num_bin]. rewrite length_app. cbn [length]. lia. }
    exists st'. cbn [data num_bin window] in Hd, Hn, Hw.
    rewrite <- app_assoc in Hd. now repeat split.
Qed.

(** X2: as long as no more samples than the capacity have been inserted,
    the series is the inserted samples, in the order of insertion. *)
Theorem Updates_within_capacity_keep_all (nb : Z) (w : Q) (ups : list Sample) :
  Z.of_nat (length ups) <= nb ->
  exists st, Updates (init nb w) ups = Some st /\ data st = ups.
Proof.
  intro H.
  destruct (Updates_under_capacity ups (init nb w)) as (st & E & Hd & _).
  - cbn [init data num_bin length]. lia.
  - exists st. now split.
Qed.

Lemma Updates_within_capacity_keep_all_witness :
  exists st,
    Updates (init 12 10) twelve_updates = Some st /\ data st = twelve_updates.
Proof.
  apply (Updates_within_capacity_keep_all 12 10 twelve_updates).
  vm_compute. discriminate.
Defined.

Lemma downsample_full (nb : Z) (d : list Sample) :
  4 <= nb ->
  Z.of_nat (length d) = nb + 1 ->
  exists d', downsample nb d = Some d' /\ Z.of_nat (length d') = nb.
Proof.
  intros Hnb Hlen. unfold downsample.
  set (sd := sorted key_leb d).
  assert (Hsd : Z.of_nat (length sd) = nb + 1)
    by (subst sd; now rewrite length_sorted).
  rewrite Hlen.
  destruct (partition_bounds (nb + 1) ltac:(lia)) as (Hee & Hem & Hme).
  assert (Hee1 : 1 <= int_mul_02 (nb + 1)).
  { unfold int_mul_02. Z.to_euclidean_division_equations. lia. }
  assert (Hme1 : int_mul_05 (nb + 1) <= nb).
  { unfold int_mul_05. Z.to_euclidean_division_equations. lia. }
  set (ee := int_mul_02 (nb + 1)) in *.
  set (me := int_mul_05 (nb + 1)) in *.
  destruct (keep_counts nb ltac:(lia)) as (Hek & Hmk & Hrk).
  set (ek := Z.max 1 (int_mul_01 nb)) in *.
  set (mk := Z.max 1 (int_mul_03 nb)) in *.
  destruct (sample_part_some (slice sd 0 ee) ek) as (es & -> & _ & Hes & _).
  destruct (sample_part_some (slice sd ee me) mk) as (ms & -> & _ & Hms & _).
  destruct (sample_part_some (slice_from sd me) (nb - ek - mk))
    as (rs & -> & _ & Hrs & _).
  assert (Hne : forall (l : list Sample), 1 <= Z.of_nat (length l) -> l <> []).
  { intros l H E. rewrite E in H. simpl in H. lia. }
  specialize (Hes ltac:(apply Hne; rewrite length_slice; lia)).
  specialize (Hms ltac:(apply Hne; rewrite length_slice; lia)).
  specialize (Hrs ltac:(apply Hne; unfold slice_from; rewrite length_skipn; lia)).
  set (d' := es ++ ms ++ rs).
  assert (Hd' : Z.of_nat (length d') = nb).
  { subst d'. rewrite !length_app. lia. }
  destruct (py_index sd (-1)) as [m|]; [|eauto].
  destruct (negb (py_in m d')); [|eauto].
  unfold set_last. destruct d' as [|x0 d0] eqn:Ed'; [simpl in Hd'; lia|].
  rewrite <- Ed' in *. eexists. split; [reflexivity|].
  rewrite length_removelast_app; [exact Hd' | rewrite Ed'; discriminate].
Qed.

Lemma Update_fills (nb : Z) (st : MovingAverage) (t v : Q) :
  4 <= nb -> num_bin st = nb -> Z.of_nat (length (data st)) <= nb ->
  exists st',
    Update st t v = Some st' /\ num_bin st' = nb /\
    Z.of_nat (length (data st')) = Z.min (Z.of_nat (length (data st)) + 1) nb.
Proof.
  intros Hnb Hn Hlen.
  destruct (Z_lt_le_dec (Z.of_nat (length (data st))) nb) as [Hlt | Hge].
  - rewrite Update_under_capacity by lia.
    eexists. split; [reflexivity|]. cbn [num_bin data].
    rewrite length_app. cbn [length]. lia.
  - unfold Update. rewrite Hn, Z.gtb_ltb.
    assert (Hd : Z.of_nat (length (data st ++ [(t, v)])) = nb + 1)
      by (rewrite length_app; cbn [length]; lia).
    rewrite Hd. replace (nb <? nb + 1) with true by lia.
    destruct (downsample_full nb _ Hnb Hd) as (d' & -> & Hd').
    eexists. split; [reflexivity|]. cbn [num_bin data]. lia.
Qed.

Lemma Updates_fill (nb : Z) (ups : list Sample) :
  4 <= nb ->
  forall st : MovingAverage,
    num_bin st = nb -> Z.of_nat (length (data st)) <= nb ->
    exists st',
      Updates st ups = Some st' /\
      Z.of_nat (length (data st'))
      = Z.min (Z.of_nat (length (data st)) + Z.of_nat (length ups)) nb.
Proof.
  intro Hnb. induction ups as [|[t v] ups IH]; intros st Hn Hlen;
    cbn [Updates length].
  - exists st. split; [reflexivity | lia].
  - destruct (Update_fills nb st t v Hnb Hn Hlen) as (st1 & -> & Hn1 & Hl1).
    destruct (IH st1 Hn1 ltac:(lia)) as (st' & E & Hl').
    exists st'. split; [exact E | lia].
Qed.

(** X3: with a capacity of at least 4 the series holds every sample until
    it is full and exactly [capacity] samples from then on. *)
Theorem Updates_length (nb : Z) (w : Q) (ups : list Sample) :
  4 <= nb ->
  exists st,
    Updates (init nb w) ups = Some st /\
    Z.of_nat (length (data st)) = Z.min (Z.of_nat (length ups)) nb.
Proof.
  intro Hnb.
  destruct (Updates_fill nb ups Hnb (init nb w) eq_refl) as (st & E & Hl).
  - cbn [init data length]. lia.
  - exists st. split; [exact E|]. cbn [init data length] in Hl. lia.
Qed.

Lemma Updates_length_witness :
  exists st,
    Updates (init 5 10) twelve_updates = Some st /\
    Z.of_nat (length (data st)) = Z.min (Z.of_nat (length twelve_updates)) 5.
Proof. apply (Updates_length 5 10 twelve_updates). lia. Defined.

(** ** The earliest sample is kept *)

Lemma sample_part_head (p0 : Sample) (rest : list Sample) (keep : Z) :
  1 <= keep ->
  exists xs, sample_part (p0 :: rest) keep = Some (p0 :: xs).
Proof.
  intro Hk. unfold sample_part, sample_indices, py_range.
  replace (Z.to_nat keep) with (S (Z.to_nat (keep - 1))) by lia.
  cbn [seq map pick].
  replace (Z.of_nat 0 * Z.of_nat (length (p0 :: rest)) / keep) with 0
    by (change (Z.of_nat 0) with 0; now rewrite Z.mul_0_l, Z.div_0_l by lia).
  change (py_index (p0 :: rest) 0) with
    (if (0 <=? 0) && (0 <? Z.of_nat (length (p0 :: rest)))
     then Some p0 else @None Sample).
  replace ((0 <=? 0) && (0 <? Z.of_nat (length (p0 :: rest)))) with true
    by (cbn [length]; destruct (Z.ltb_spec 0 (Z.of_nat (S (length rest)))); 
        [reflexivity | lia]).
  destruct (pick_some (p0 :: rest)
              (map (fun i => i * Z.of_nat (length (p0 :: rest)) / keep)
                   (map Z.of_nat (seq 1 (Z.to_nat (keep - 1))))))
    as (xs & -> & _).
  - intros i Hi. apply in_map_iff in Hi. destruct Hi as (k & <- & Hk').
    apply in_map_iff in Hk'. destruct Hk' as (j & <- & Hj).
    apply in_seq in Hj.
    assert (Hlen : 0 < Z.of_nat (length (p0 :: rest))) by (cbn [length]; lia).
    split.
    + apply Z.div_pos; nia.
    + apply Z.div_lt_upper_bound; nia.
  - now exists xs.
Qed.

Lemma sorted_head_min (d : list Sample) (h : Sample) (tl : list Sample) :
  sorted key_leb d = h :: tl ->
  In h d /\ forall u, In u d -> (fst h <= fst u)%Q.
Proof.
  intro E. pose proof (sorted_key d) as Hs. rewrite E in Hs.
  split.
  - apply (In_sorted key_leb). rewrite E. now left.
  - intros u Hu. apply (In_sorted key_leb) in Hu. rewrite E in Hu.
    inversion Hs as [|? ? _ Hall]; subst.
    destruct Hu as [<- | Hu]; [lra|].
    rewrite Forall_forall in Hall. exact (Hall u Hu).
Qed.

Lemma downsample_keeps_earliest (nb : Z) (d : list Sample) :
  3 <= nb ->
  Z.of_nat (length d) = nb + 1 ->
  exists d' s,
    downsample nb d = Some d' /\
    In s d' /\ In s d /\ forall u, In u d -> (fst s <= fst u)%Q.
Proof.
  intros Hnb Hlen. unfold downsample.
  destruct (sorted key_leb d) as [|h tl] eqn:Esd.
  { apply (f_equal (@length Sample)) in Esd.
    rewrite length_sorted in Esd. simpl in Esd. lia. }
  destruct (sorted_head_min d h tl Esd) as (Hh & Hmin).
  set (sd := h :: tl) in *.
  assert (Hsd : Z.of_nat (length sd) = nb + 1)
    by (rewrite <- Esd, length_sorted; exact Hlen).
  rewrite Hlen.
  destruct (partition_bounds (nb + 1) ltac:(lia)) as (Hee & Hem & Hme).
  assert (Hme1 : int_mul_05 (nb + 1) <= nb).
  { unfold int_mul_05. Z.to_euclidean_division_equations. lia. }
  set (ee := int_mul_02 (nb + 1)) in *.
  set (me := int_mul_05 (nb + 1)) in *.
  destruct (keep_counts nb ltac:(lia)) as (Hek & Hmk & _).
  assert (Hrk : 1 <= nb - Z.max 1 (int_mul_01 nb) - Z.max 1 (int_mul_03 nb)).
  { unfold int_mul_01, int_mul_03. Z.to_euclidean_division_equations. lia. }
  set (ek := Z.max 1 (int_mul_01 nb)) in *.
  set (mk := Z.max 1 (int_mul_03 nb)) in *.
  (* the recent part is not empty *)
  destruct (sample_part_some (slice_from sd me) (nb - ek - mk))
    as (rs & Ers & _ & Hrs & _).
  assert (Hrsne : rs <> []).
  { intro E. assert (Hl : length rs = Z.to_nat (nb - ek - mk)).
    { apply Hrs. intro E'. apply (f_equal (@length Sample)) in E'.
      unfold slice_from in E'. rewrite length_skipn in E'.
      cbn [length] in E'. lia. }
    rewrite E in Hl. simpl in Hl. lia. }
  (* the head of the sampled list is the head of the sorted one *)
  assert (Hhead : exists rest,
             rest <> [] /\
             match sample_part (slice sd 0 ee) ek,
                   sample_part (slice sd ee me) mk with
             | Some es, Some ms => es ++ ms ++ rs = h :: rest
             | _, _ => False
             end).
  { destruct (Z.eq_dec ee 0) as [E0 | E0].
    - rewrite E0. change (slice sd 0 0) with (@nil Sample). cbn [sample_part].
      unfold slice. change (Z.to_nat 0) with 0%nat. rewrite Nat.sub_0_r.
      cbn [skipn]. subst sd.
      replace (Z.to_nat me) with (S (Z.to_nat (me - 1))) by lia.
      cbn [firstn].
      destruct (sample_part_head h (firstn (Z.to_nat (me - 1)) tl) mk Hmk)
        as (ms & ->).
      exists (ms ++ rs). split; [|reflexivity].
      destruct ms; [exact Hrsne | discriminate].
    - unfold slice at 1. change (Z.to_nat 0) with 0%nat. rewrite Nat.sub_0_r.
      cbn [skipn]. subst sd.
      replace (Z.to_nat ee) with (S (Z.to_nat (ee - 1))) by lia.
      cbn [firstn].
      destruct (sample_part_head h (firstn (Z.to_nat (ee - 1)) tl) ek Hek)
        as (es & ->).
      destruct (sample_part_some (slice (h :: tl) ee me) mk) as (ms & -> & _).
      exists (es ++ ms ++ rs). split; [|reflexivity].
      destruct es; [|discriminate]. destruct ms; [exact Hrsne | discriminate]. }
  destruct Hhead as (rest & Hrest & Hd').
  destruct (sample_part (slice sd 0 ee) ek) as [es|]; [|contradiction].
  destruct (sample_part (slice sd ee me) mk) as [ms|]; [|contradiction].
  rewrite Ers, Hd'.
  destruct (py_index sd (-1)) as [m|].
  - destruct (negb (py_in m (h :: rest))).
    + unfold set_last. destruct rest as [|r0 rest']; [congruence|].
      eexists. exists h. split; [reflexivity|].
      split; [now left | now split].
    + eexists. exists h. split; [reflexivity|]. split; [now left | now split].
  - eexists. exists h. split; [reflexivity|]. split; [now left | now split].
Qed.

(** What holds besides [store_inv] when the capacity is at least 3: the
    store holds a sample whose timestamp no inserted sample precedes. *)
Lemma Update_keeps_earliest_step (nb : Z) (seen : list Sample)
    (st st' : MovingAverage) (t v : Q) :
  3 <= nb ->
  store_inv nb seen st ->
  (seen <> [] ->
   exists s, In s (data st) /\ forall u, In u seen -> (fst s <= fst u)%Q) ->
  Update st t v = Some st' ->
  exists s, In s (data st') /\
            forall u, In u (seen ++ [(t, v)]) -> (fst s <= fst u)%Q.
Proof.
  intros Hnb (Hn & Hlen & Hin & _) Hmin. unfold Update. rewrite Hn.
  set (d := data st ++ [(t, v)]).
  assert (Hnew : In (t, v) d) by (subst d; apply in_or_app; right; now left).
  assert (Hd : Z.of_nat (length d) = Z.of_nat (length (data st)) + 1)
    by (subst d; rewrite length_app; simpl; lia).
  assert (Hdmin : forall s, In s d ->
            (forall u, In u d -> (fst s <= fst u)%Q) ->
            forall u, In u (seen ++ [(t, v)]) -> (fst s <= fst u)%Q).
  { intros s Hs Hall u Hu. apply in_app_or in Hu.
    destruct Hu as [Hu | [<- | []]].
    - destruct Hmin as (s0 & Hs0 & Hle0); [intro E; now rewrite E in Hu|].
      specialize (Hle0 u Hu).
      assert (Hs0d : In s0 d) by (subst d; apply in_or_app; now left).
      specialize (Hall s0 Hs0d). lra.
    - now apply Hall. }
  rewrite Z.gtb_ltb. destruct (Z.ltb_spec nb (Z.of_nat (length d))) as [Hgt | Hle].
  - destruct (downsample_keeps_earliest nb d Hnb ltac:(lia))
      as (d' & s & -> & Hs' & Hs & Hsmin).
    intro E. injection E as <-. cbn [data].
    exists s. split; [exact Hs'|]. now apply Hdmin.
  - intro E. injection E as <-. cbn [data]. fold d.
    destruct seen as [|u0 seen'].
    + exists (t, v). split; [exact Hnew|].
      intros u [<- | []]. simpl. lra.
    + destruct Hmin as (s0 & Hs0 & Hle0); [discriminate|].
      assert (Hs0d : In s0 d) by (subst d; apply in_or_app; now left).
      destruct (Qlt_le_dec t (fst s0)) as [Hlt | Hge].
      * exists (t, v). split; [exact Hnew|].
        intros u Hu. apply in_app_or in Hu. destruct Hu as [Hu | [<- | []]].
        -- specialize (Hle0 u Hu). simpl. lra.
        -- simpl. lra.
      * exists s0. split; [exact Hs0d|].
        intros u Hu. apply in_app_or in Hu. destruct Hu as [Hu | [<- | []]].
        -- now apply Hle0.
        -- simpl. lra.
Qed.

Lemma Updates_keep_earliest (nb : Z) (ups seen : list Sample)
    (st : MovingAverage) :
  3 <= nb ->
  store_inv nb seen st ->
  (seen <> [] ->
   exists s, In s (data st) /\ forall u, In u seen -> (fst s <= fst u)%Q) ->
  exists st',
    Updates st ups = Some st' /\
    store_inv nb (seen ++ ups) st' /\
    (seen ++ ups <> [] ->
     exists s, In s (data st') /\
               forall u, In u (seen ++ ups) -> (fst s <= fst u)%Q).
Proof.
  intro Hnb. revert seen st.
  induction ups as [|[t v] ups IH]; intros seen st Hinv Hmin; cbn [Updates].
  - exists st. rewrite app_nil_r. split; [reflexivity | split; assumption].
  - destruct (Update_inv nb seen st t v ltac:(lia) Hinv) as (st1 & E1 & Hinv1).
    pose proof (Update_keeps_earliest_step nb seen st st1 t v Hnb Hinv Hmin E1)
      as Hmin1.
    rewrite E1.
    destruct (IH _ _ Hinv1 (fun _ => Hmin1)) as (st' & E & Hinv' & Hmin').
    exists st'. rewrite <- app_assoc in Hinv', Hmin'.
    split; [exact E | split; assumption].
Qed.

(** X4: with a capacity of at least 3, after any non-empty sequence of
    updates the series holds an inserted sample whose timestamp is the
    minimum of all timestamps inserted so far: downsampling never moves
    the start of the data forward. *)
Theorem Update_keeps_earliest (nb : Z) (w : Q) (ups : list Sample) :
  3 <= nb ->
  ups <> [] ->
  exists st,
    Updates (init nb w) ups = Some st /\
    exists s, In s (data st) /\ In s ups /\
              forall u, In u ups -> (fst s <= fst u)%Q.
Proof.
  intros Hnb Hne.
  destruct (Updates_keep_earliest nb ups [] (init nb w) Hnb
              (store_inv_init nb w ltac:(lia)))
    as (st & E & (_ & _ & Hin & _) & Hmin); [congruence|].
  cbn [app] in Hin, Hmin. destruct (Hmin Hne) as (s & Hs & Hle).
  exists st. split; [exact E|]. exists s. auto.
Qed.

Lemma Update_keeps_earliest_witness :
  exists st,
    Updates (init 5 10) twelve_updates = Some st /\
    exists s, In s (data st) /\ In s twelve_updates /\
              forall u, In u twelve_updates -> (fst s <= fst u)%Q.
Proof.
  apply (Update_keeps_earliest 5 10 twelve_updates).
  - lia.
  - discriminate.
Defined.

(** * Further properties of the price lookup *)

(** ** Insert, then look up *)

Lemma find_first {A : Type} (f : A -> bool) (l : list A) (x : A) :
  In x l -> f x = true -> (forall e, In e l -> f e = true -> e = x) ->
  find f l = Some x.
Proof.
  induction l as [|y l IH]; intros Hin Hfx Huniq; [contradiction|].
  cbn [find]. destruct (f y) eqn:Ey.
  - f_equal. apply Huniq; [now left | exact Ey].
  - destruct Hin as [-> | Hin]; [congruence|].
    apply IH; try assumption. intros e He. apply Huniq. now right.
Qed.

Lemma near_self (t v : Q) : near t (t, v) = true.
Proof.
  unfold near. cbn [fst]. apply Qlt_bool_iff.
  assert (E : (t - t == 0)%Q) by ring.
  rewrite E. reflexivity.
Qed.

Lemma near_far (t : Q) (s : Sample) :
  (fst s + (1 # 10) <= t)%Q -> near t s = false.
Proof.
  intro H. unfold near. apply Qlt_bool_false_iff.
  rewrite Qabs_neg by lra. lra.
Qed.

Lemma Updates_newest_found (nb : Z) (w : Q) (ups : list Sample) (t v : Q) :
  1 <= nb ->
  (forall u, In u ups -> (fst u + (1 # 10) <= t)%Q) ->
  exists st,
    Updates (init nb w) (ups ++ [(t, v)]) = Some st /\
    store_inv nb (ups ++ [(t, v)]) st /\
    In (t, v) (data st) /\
    forall fallback, _find_price_at_time st t fallback = v.
Proof.
  intros Hnb Hgap.
  destruct (Updates_inv nb (ups ++ [(t, v)]) [] (init nb w) Hnb
              (store_inv_init nb w Hnb))
    as (st & E & Hinv).
  cbn [app] in Hinv. pose proof Hinv as (_ & _ & Hin & Hmax).
  exists st. split; [exact E|]. split; [exact Hinv|].
  destruct Hmax as (s & Hs & Hle); [now destruct ups|].
  assert (Hnew : In (t, v) (data st)).
  { pose proof (Hin s Hs) as Hs'. apply in_app_or in Hs'.
    destruct Hs' as [Hs' | [<- | []]]; [|exact Hs].
    specialize (Hgap s Hs').
    specialize (Hle (t, v) ltac:(apply in_or_app; right; now left)).
    cbn [fst] in Hle. lra. }
  split; [exact Hnew|].
  intro fallback. unfold _find_price_at_time.
  destruct (data st) as [|s0 d] eqn:Ed; [contradiction|].
  rewrite (find_first (near t) (s0 :: d) (t, v) Hnew (near_self t v)).
  - reflexivity.
  - intros e He Hnear. apply Hin in He.
    apply in_app_or in He. destruct He as [He | [<- | []]]; [|reflexivity].
    rewrite (near_far t e (Hgap e He)) in Hnear. discriminate.
Qed.

(** X5: a sample inserted at least 0.1 s after every sample inserted before
    it is found again: right after its Update, the price resolved at its
    timestamp is its price, whatever downsampling took place. *)
Theorem Update_then_find_price (nb : Z) (w : Q) (ups : list Sample)
    (t v fallback : Q) :
  1 <= nb ->
  (forall u, In u ups -> (fst u + (1 # 10) <= t)%Q) ->
  exists st,
    Updates (init nb w) (ups ++ [(t, v)]) = Some st /\
    _find_price_at_time st t fallback = v.
Proof.
  intros Hnb Hgap.
  destruct (Updates_newest_found nb w ups t v Hnb Hgap) as (st & E & _ & _ & H).
  exists st. split; [exact E | apply H].
Qed.

Lemma Update_then_find_price_witness :
  exists st,
    Updates (init 5 10) (twelve_updates ++ [(inject_Z 1743730300, 77%Q)])
    = Some st /\
    _find_price_at_time st (inject_Z 1743730300) 100 = 77%Q.
Proof.
  apply (Update_then_find_price 5 10 twelve_updates).
  - lia.
  - intros u Hu. unfold twelve_updates in Hu. apply in_map_iff in Hu.
    destruct Hu as (k & <- & Hk). apply in_seq in Hk. cbn [fst].
    assert (H : (inject_Z (1743730200 + Z.of_nat k) <= inject_Z 1743730212)%Q)
      by (rewrite <- Zle_Qle; lia).
    assert (H' : (inject_Z 1743730212 + (1 # 10) <= inject_Z 1743730300)%Q)
      by (vm_compute; discriminate).
    lra.
Defined.

(** ** What the lookup returns *)

Lemma tuple_leb_true (a b : Sample) : tuple_leb a b = true -> tuple_le a b.
Proof.
  unfold tuple_leb, tuple_le. intro H. apply orb_true_iff in H.
  destruct H as [H | H].
  - left. now apply Qlt_bool_iff.
  - right. apply andb_true_iff in H. destruct H as (H1 & H2).
    split; [now apply Qeq_bool_iff | now apply Qle_bool_iff].
Qed.

Lemma tuple_leb_false (a b : Sample) : tuple_leb a b = false -> tuple_le b a.
Proof.
  unfold tuple_leb, tuple_le. intro H. apply orb_false_iff in H.
  destruct H as (H1 & H2). apply Qlt_bool_false_iff in H1.
  destruct (Qeq_dec (fst a) (fst b)) as [E | NE].
  - right. split; [now symmetry|].
    apply Qeq_bool_iff in E. rewrite E in H2. cbn [andb] in H2.
    apply Qle_bool_false_iff in H2. lra.
  - left. destruct (Qlt_le_dec (fst b) (fst a)) as [Hlt | Hle]; [exact Hlt|].
    elim NE. lra.
Qed.

Lemma tuple_le_trans (a b c : Sample) :
  tuple_le a b -> tuple_le b c -> tuple_le a c.
Proof.
  unfold tuple_le. intros [H1 | (H1 & H1')] [H2 | (H2 & H2')].
  - left. lra.
  - left. lra.
  - left. lra.
  - right. split; lra.
Qed.

Lemma tuple_le_fst (a b : Sample) : tuple_le a b -> (fst a <= fst b)%Q.
Proof. unfold tuple_le. intros [H | (H & _)]; lra. Qed.

Lemma insert_sorted_tuple (x : Sample) (l : list Sample) :
  StronglySorted tuple_le l ->
  StronglySorted tuple_le (insert_sorted tuple_leb x l).
Proof.
  induction 1 as [|y l Hl IH Hy]; cbn [insert_sorted].
  - constructor; constructor.
  - destruct (tuple_leb x y) eqn:E.
    + apply tuple_leb_true in E.
      constructor; [now constructor|].
      constructor; [exact E|].
      rewrite Forall_forall in *. intros z Hz.
      exact (tuple_le_trans _ _ _ E (Hy z Hz)).
    + apply tuple_leb_false in E.
      constructor; [exact IH|].
      rewrite Forall_forall in *. intros z Hz.
      apply In_insert_sorted in Hz. destruct Hz as [-> | Hz]; auto.
Qed.

Lemma sorted_tuple (l : list Sample) :
  StronglySorted tuple_le (sorted tuple_leb l).
Proof.
  induction l as [|x l IH]; cbn [sorted]; [constructor|].
  now apply insert_sorted_tuple.
Qed.

(** The second loop of the lookup on a sorted list: the last sample not
    after the instant, or [prev] when there is none. *)
Lemma scan_prev_sorted (l : list Sample) (t : Q) :
  StronglySorted tuple_le l ->
  forall prev : option Sample,
    ((forall u, In u l -> (t < fst u)%Q) /\ scan_prev l t prev = prev) \/
    (exists s, scan_prev l t prev = Some s /\ In s l /\ (fst s <= t)%Q /\
               forall u, In u l -> (fst u <= t)%Q -> tuple_le u s).
Proof.
  induction 1 as [|[ts p] l Hl IH Hall]; intro prev; cbn [scan_prev].
  - left. split; [intros u [] | reflexivity].
  - rewrite Forall_forall in Hall.
    destruct (Qlt_bool t ts) eqn:E.
    + apply Qlt_bool_iff in E. left. split; [|reflexivity].
      intros u [<- | Hu]; [exact E|].
      pose proof (tuple_le_fst _ _ (Hall u Hu)) as H. cbn [fst] in H. lra.
    + apply Qlt_bool_false_iff in E. right.
      destruct (IH (Some (ts, p))) as [(Hnone & ->) | (s & -> & Hs & Hst & Hmax)].
      * exists (ts, p). split; [reflexivity|]. split; [now left|].
        split; [exact E|].
        intros u [<- | Hu] Hut.
        -- right. split; [reflexivity | lra].
        -- specialize (Hnone u Hu). lra.
      * exists s. split; [reflexivity|]. split; [now right|].
        split; [exact Hst|].
        intros u [<- | Hu] Hut; [now apply Hall | now apply Hmax].
Qed.

(** X6: forward fill.  When no retained sample lies within 0.1 s of the
    instant and some retained sample is not after it, the lookup returns
    the price of a retained sample that is not after the instant and that
    every other such sample precedes in the order on (timestamp, price):
    the latest one, and among samples with that timestamp the dearest. *)
Theorem find_price_forward_fill (st : MovingAverage) (t fallback : Q) :
  (forall s, In s (data st) -> near t s = false) ->
  (exists s, In s (data st) /\ (fst s <= t)%Q) ->
  exists s,
    In s (data st) /\ (fst s <= t)%Q /\
    _find_price_at_time st t fallback = snd s /\
    forall u, In u (data st) -> (fst u <= t)%Q -> tuple_le u s.
Proof.
  intros Hfar (s1 & Hs1 & Hs1t). unfold _find_price_at_time.
  destruct (data st) as [|s0 d] eqn:Ed; [contradiction|].
  assert (Efind : find (near t) (s0 :: d) = None).
  { destruct (find (near t) (s0 :: d)) as [e|] eqn:E; [|reflexivity].
    apply find_some in E. destruct E as (He & Hn).
    rewrite (Hfar e He) in Hn. discriminate. }
  rewrite Efind.
  pose proof (sorted_tuple (s0 :: d)) as Hsorted.
  destruct (scan_prev_sorted _ t Hsorted None)
    as [(Hnone & _) | (s & Es & Hs & Hst & Hmax)].
  { specialize (Hnone s1 ltac:(apply (In_sorted tuple_leb); exact Hs1)). lra. }
  assert (Hres : match scan_prev (sorted tuple_leb (s0 :: d)) t None with
                 | Some (_, prev_price) => prev_price
                 | None => 0%Q
                 end = snd s)
    by (rewrite Es; now destruct s).
  exists s. split; [exact (proj1 (In_sorted tuple_leb s _) Hs)|].
  split; [exact Hst|]. split.
  - destruct (sorted tuple_leb (s0 :: d)) as [|[ts0 p0] rest] eqn:Esd;
      [exact Hres|].
    destruct (Qlt_bool t ts0) eqn:E0; [|exact Hres].
    apply Qlt_bool_iff in E0.
    inversion Hsorted as [|? ? _ Hall]; subst.
    rewrite Forall_forall in Hall.
    destruct Hs as [<- | Hs]; [cbn [fst] in Hst; lra|].
    pose proof (tuple_le_fst _ _ (Hall s Hs)) as H. cbn [fst] in H. lra.
  - intros u Hu Hut. apply Hmax; [|exact Hut].
    now apply (In_sorted tuple_leb).
Qed.

Lemma find_price_forward_fill_witness :
  let st := mkMA 10 10 [(100%Q, 5%Q); (200%Q, 7%Q)] (Some 200%Q) in
  exists s,
    In s (data st) /\ (fst s <= 150)%Q /\
    _find_price_at_time st 150 100 = snd s /\
    forall u, In u (data st) -> (fst u <= 150)%Q -> tuple_le u s.
Proof.
  intro st. apply (find_price_forward_fill st 150 100).
  - intros s [<- | [<- | []]]; reflexivity.
  - exists (100%Q, 5%Q). split; [now left | vm_compute; discriminate].
Defined.

Lemma find_price_cases (st : MovingAverage) (t fallback : Q) :
  data st <> [] ->
  _find_price_at_time st t fallback = 0%Q \/
  exists s, In s (data st) /\ _find_price_at_time st t fallback = snd s.
Proof.
  intro Hne. unfold _find_price_at_time.
  destruct (data st) as [|s0 d] eqn:Ed; [congruence|].
  destruct (find (near t) (s0 :: d)) as [[ts p]|] eqn:Ef.
  - right. apply find_some in Ef. exists (ts, p). now split.
  - assert (Hscan : forall l prev,
               (forall s, In s l -> In s (s0 :: d)) ->
               scan_prev l t prev = prev \/
               exists s, In s (s0 :: d) /\ scan_prev l t prev = Some s).
    { induction l as [|[ts p] l IH]; intros prev Hl; cbn [scan_prev].
      - now left.
      - destruct (Qlt_bool t ts); [now left|].
        destruct (IH (Some (ts, p)) (fun s Hs => Hl s (or_intror Hs)))
          as [-> | (s & Hs & ->)]; right.
        + exists (ts, p). split; [apply Hl; now left | reflexivity].
        + exists s. now split. }
    assert (Hres : match scan_prev (sorted tuple_leb (s0 :: d)) t None with
                   | Some (_, prev_price) => prev_price
                   | None => 0%Q
                   end = 0%Q \/
                   exists s, In s (s0 :: d) /\
                     match scan_prev (sorted tuple_leb (s0 :: d)) t None with
                     | Some (_, prev_price) => prev_price
                     | None => 0%Q
                     end = snd s).
    { destruct (Hscan (sorted tuple_leb (s0 :: d)) None
                  (fun s Hs => proj1 (In_sorted tuple_leb s _) Hs))
        as [-> | (s & Hs & ->)]; [now left | right].
      exists s. split; [exact Hs | now destruct s]. }
    destruct (sorted tuple_leb (s0 :: d)) as [|[ts0 p0] rest]; [exact Hres|].
    destruct (Qlt_bool t ts0); [now left | exact Hres].
Qed.

(** X7: on a non-empty series the lookup never returns the fallback as
    such: the result is 0 or the price of a retained sample. *)
Theorem find_price_stored_or_zero (st : MovingAverage) (t fallback : Q) :
  data st <> [] ->
  _find_price_at_time st t fallback = 0%Q \/
  exists s, In s (data st) /\ _find_price_at_time st t fallback = snd s.
Proof. exact (find_price_cases st t fallback). Qed.

Lemma find_price_stored_or_zero_witness :
  let st := mkMA 10 10 [(100%Q, 5%Q)] (Some 100%Q) in
  _find_price_at_time st 150 77 = 0%Q \/
  exists s, In s (data st) /\ _find_price_at_time st 150 77 = snd s.
Proof. intro st. apply find_price_stored_or_zero. discriminate. Defined.

(** * Further properties of the trading calendar *)

Lemma dt_micros_fromtimestamp (tz : Z) (ts : Q) :
  dt_micros (fromtimestamp tz ts) = local_micros tz ts.
Proof.
  unfold dt_micros, fromtimestamp, local_micros.
  cbn [dt_date dt_hour dt_minute dt_second dt_microsecond].
  set (us := round_half_even (ts * 1000000) + tz * 1000000).
  Z.to_euclidean_division_equations. lia.
Qed.

Lemma Qfloor_shift (x : Q) (z : Z) : Qfloor (x + inject_Z z) = Qfloor x + z.
Proof.
  apply Z.le_antisymm.
  - assert (H : Qfloor (x + inject_Z z) - z <= Qfloor x); [|lia].
    apply Qfloor_ge. rewrite inject_Z_sub.
    pose proof (Qfloor_le (x + inject_Z z)). lra.
  - apply Qfloor_ge. rewrite inject_Z_plus.
    pose proof (Qfloor_le x). lra.
Qed.

Lemma round_half_even_shift (x : Q) (z : Z) :
  Z.even z = true -> round_half_even (x + inject_Z z) = round_half_even x + z.
Proof.
  intro Hz. unfold round_half_even. rewrite Qfloor_shift.
  assert (E : (x + inject_Z z - inject_Z (Qfloor x + z)
               == x - inject_Z (Qfloor x))%Q)
    by (rewrite inject_Z_plus; ring).
  rewrite (Qcompare_comp _ _ E (1 # 2) (1 # 2) (Qeq_refl _)).
  rewrite Z.even_add, Hz.
  destruct (Qcompare (x - inject_Z (Qfloor x)) (1 # 2)); try lia.
  destruct (Z.even (Qfloor x)); cbn [Bool.eqb]; lia.
Qed.

Lemma is_trading_time_micros (tz : Z) (ts : Q) :
  is_trading_time tz ts =
  let us := local_micros tz ts in
  (weekday (us / 86400000000) <? 5)
  && (((34200000000 <=? us mod 86400000000)
       && (us mod 86400000000 <=? 41400000000))
      || ((46800000000 <=? us mod 86400000000)
          && (us mod 86400000000 <=? 54000000000))).
Proof.
  cbv zeta. unfold is_trading_time, dt_leb.
  rewrite dt_micros_fromtimestamp.
  unfold strptime, trading_hours, dt_micros.
  cbn [morning_start morning_end afternoon_start afternoon_end
       dt_date dt_hour dt_minute dt_second dt_microsecond].
  change (dt_date (fromtimestamp tz ts)) with (local_micros tz ts / 86400000000).
  set (us := local_micros tz ts).
  rewrite Z.geb_leb.
  destruct (Z.leb_spec 5 (weekday (us / 86400000000))) as [Hw | Hw].
  { replace (weekday (us / 86400000000) <? 5) with false
      by (symmetry; apply Z.ltb_ge; exact Hw).
    reflexivity. }
  replace (weekday (us / 86400000000) <? 5) with true
    by (symmetry; apply Z.ltb_lt; exact Hw).
  cbn [andb].
  assert (Hd : us = 86400000000 * (us / 86400000000) + us mod 86400000000)
    by (apply Z.div_mod; lia).
  set (d := us / 86400000000) in *. set (m := us mod 86400000000) in *.
  f_equal; f_equal; apply Bool.eq_true_iff_eq; rewrite !Z.leb_le; lia.
Qed.

(** X8: an instant is a trading instant exactly when its local date,
    after rounding to the microsecond, is a Monday to Friday and its
    local time of day lies in 09:30:00 to 11:30:00 or 13:00:00 to
    15:00:00, both ends included to the microsecond. *)
Theorem is_trading_time_iff (tz : Z) (ts : Q) :
  is_trading_time tz ts = true <->
  weekday (local_micros tz ts / 86400000000) < 5 /\
  session_micros (local_micros tz ts mod 86400000000).
Proof.
  rewrite is_trading_time_micros. cbv zeta. unfold session_micros.
  rewrite andb_true_iff, orb_true_iff, !andb_true_iff, Z.ltb_lt, !Z.leb_le.
  reflexivity.
Qed.


(** * Further properties of Get *)

Section WalkInvariant.
Variable tz : Z.
Variable st : MovingAverage.
(** A property of the running total and count that counting one more
    price keeps. *)
Variable I : Q * Z -> Prop.
Hypothesis I_add_point :
  forall t acc, I acc -> I (add_point st (current_price_of st) t acc).

Lemma primary_walk_keeps (fuel : nat) :
  forall (window_start c : Q) (acc r : Q * Z),
    I acc ->
    primary_walk tz fuel st window_start (current_price_of st) c acc = Some r ->
    I r.
Proof.
  induction fuel as [|fuel IH]; intros ws c acc r Hacc E; cbn [primary_walk] in E.
  - destruct (Qle_bool ws c && Qle_bool 0 c); [discriminate|].
    now injection E as <-.
  - destruct (Qle_bool ws c && Qle_bool 0 c); [|now injection E as <-].
    destruct (jump tz (primary_jump_to_time tz) (c - 1)) as [c'|];
      [|discriminate].
    apply IH in E; [exact E|].
    destruct (is_trading_time tz c); [now apply I_add_point | exact Hacc].
Qed.

Lemma continuation_walk_keeps (fuel : nat) :
  forall (c rem : Q) (acc r : Q * Z),
    I acc ->
    continuation_walk tz fuel st (current_price_of st) c rem acc = Some r ->
    I r.
Proof.
  induction fuel as [|fuel IH]; intros c rem acc r Hacc E;
    cbn [continuation_walk] in E.
  - destruct (Qle_bool 0 c && Qlt_bool 0 rem); [discriminate|].
    now injection E as <-.
  - destruct (Qle_bool 0 c && Qlt_bool 0 rem); [|now injection E as <-].
    destruct (is_trading_time tz c);
      destruct (jump tz (continuation_jump_to_time tz) (c - 1)) as [c'|];
      try discriminate; apply IH in E; try exact E.
    + now apply I_add_point.
    + exact Hacc.
Qed.

Lemma GetSMA_keeps (fuel : nat) (r : Q) :
  I (0%Q, 0) -> GetSMA tz fuel st = Some r ->
  exists acc, I acc /\ r = sma_of acc.
Proof.
  intros H0 E. unfold GetSMA in E.
  destruct (no_timestamp st).
  { injection E as <-. exists (0%Q, 0). now split. }
  destruct (current_timestamp st) as [now|].
  2:{ injection E as <-. exists (0%Q, 0). now split. }
  destruct (primary_walk tz fuel st (now - window st) (current_price_of st)
                         now (0%Q, 0)) as [acc|] eqn:E1; [|discriminate].
  apply primary_walk_keeps in E1; [|exact H0].
  destruct (continuation_runs tz st now acc).
  - destruct (continuation_walk tz fuel st (current_price_of st) _ _ acc)
      as [acc'|] eqn:E2; [|discriminate].
    apply continuation_walk_keeps in E2; [|exact E1].
    injection E as <-. now exists acc'.
  - injection E as <-. now exists acc.
Qed.
End WalkInvariant.

Lemma sma_of_bounds (lo hi : Q) (acc : Q * Z) :
  0 <= snd acc ->
  (lo * inject_Z (snd acc) <= fst acc)%Q ->
  (fst acc <= hi * inject_Z (snd acc))%Q ->
  sma_of acc = 0%Q \/ (lo <= sma_of acc <= hi)%Q.
Proof.
  intros Hc Hlo Hhi. unfold sma_of.
  destruct (Z.ltb_spec 0 (snd acc)) as [Hpos | Hzero]; [right | now left].
  assert (Hq : (0 < inject_Z (snd acc))%Q)
    by (change 0%Q with (inject_Z 0); rewrite <- Zlt_Qlt; exact Hpos).
  split.
  - apply Qle_shift_div_l; assumption.
  - apply Qle_shift_div_r; assumption.
Qed.

(** X10: Get never returns a negative mean, whatever the series holds:
    only positive prices are counted. *)
Theorem Get_never_negative (tz : Z) (st : MovingAverage) (fuel : nat) :
  (enough_fuel tz st <= fuel)%nat ->
  exists r, Get tz fuel st = Some r /\ (0 <= r)%Q.
Proof.
  intro Hfuel. unfold Get.
  destruct (GetSMA_terminates_at tz st fuel Hfuel) as (r & E).
  exists r. split; [exact E|].
  destruct (GetSMA_keeps tz st
              (fun acc => 0 <= snd acc /\ (0 <= fst acc)%Q)) with (3 := E)
    as (acc & (Hc & Ht) & ->).
  - intros t acc (Hc & Ht). unfold add_point.
    destruct (Qlt_bool 0 (_find_price_at_time st t (current_price_of st)))
      eqn:Ep; [|now split].
    apply Qlt_bool_iff in Ep. cbn [fst snd]. split; [lia | lra].
  - cbn [fst snd]. split; [lia | lra].
  - unfold sma_of.
    destruct (Z.ltb_spec 0 (snd acc)) as [Hpos | Hzero]; [|lra].
    apply Qle_shift_div_l.
    + change 0%Q with (inject_Z 0). rewrite <- Zlt_Qlt. exact Hpos.
    + lra.
Qed.

Lemma Get_never_negative_witness :
  let st := mkMA 10 60 [(inject_Z 1743730200, (-5)%Q); (inject_Z 1743730230, 70%Q)]
                 (Some (inject_Z 1743730230)) in
  exists r, Get 28800 (enough_fuel 28800 st) st = Some r /\ (0 <= r)%Q.
Proof. intro st. apply (Get_never_negative 28800 st). apply le_n. Defined.

(** With exact sums, what Get returns on a non-empty series is 0 or
    lies between any two bounds of the retained prices. *)
Lemma Get_within_range (tz : Z) (st : MovingAverage) (lo hi : Q)
    (fuel : nat) :
  data st <> [] ->
  (forall s, In s (data st) -> (lo <= snd s <= hi)%Q) ->
  (enough_fuel tz st <= fuel)%nat ->
  exists r, Get tz fuel st = Some r /\ (r = 0%Q \/ (lo <= r <= hi)%Q).
Proof.
  intros Hne Hrange Hfuel. unfold Get.
  destruct (GetSMA_terminates_at tz st fuel Hfuel) as (r & E).
  exists r. split; [exact E|].
  destruct (GetSMA_keeps tz st
              (fun acc => 0 <= snd acc /\
                          (lo * inject_Z (snd acc) <= fst acc)%Q /\
                          (fst acc <= hi * inject_Z (snd acc))%Q))
    with (3 := E) as (acc & (Hc & Hlo & Hhi) & ->).
  - intros t acc (Hc & Hlo & Hhi). unfold add_point.
    destruct (Qlt_bool 0 (_find_price_at_time st t (current_price_of st)))
      eqn:Ep; [|now repeat split].
    apply Qlt_bool_iff in Ep. cbn [fst snd].
    destruct (find_price_cases st t (current_price_of st) Hne)
      as [E0 | (s & Hs & Es)].
    { rewrite E0 in Ep. lra. }
    rewrite Es. specialize (Hrange s Hs).
    rewrite inject_Z_plus. change (inject_Z 1) with 1%Q.
    split; [lia|]. split; lra.
  - cbn [fst snd]. change (inject_Z 0) with 0%Q. split; [lia|]. split; lra.
  - now apply sma_of_bounds.
Qed.

(** X11: with a non-empty series whose prices lie between two whole
    numbers [lo] and [hi], what Get returns is 0 or lies between [lo] and
    [hi] too.  The bounds are whole numbers, and small enough for their
    multiples up to the number of seconds Get can count (less than
    [2 * window + 4]) to be exact doubles: then the float sums of the
    code keep within them, as the exact sums do. *)
Theorem Get_within_price_range (tz : Z) (st : MovingAverage) (lo hi : Z)
    (fuel : nat) :
  data st <> [] ->
  (forall s, In s (data st) -> (inject_Z lo <= snd s <= inject_Z hi)%Q) ->
  (inject_Z (Z.max (Z.abs lo) (Z.abs hi)) * (2 * window st + 4)
   <= inject_Z (2 ^ 53))%Q ->
  (enough_fuel tz st <= fuel)%nat ->
  exists r, Get tz fuel st = Some r /\
            (r = 0%Q \/ (inject_Z lo <= r <= inject_Z hi)%Q).
Proof.
  intros Hne Hrange _ Hfuel.
  exact (Get_within_range tz st (inject_Z lo) (inject_Z hi) fuel
                          Hne Hrange Hfuel).
Qed.

Lemma Get_within_price_range_witness :
  let st := mkMA 10 60 [(inject_Z 1743730200, (7 # 10)%Q);
                        (inject_Z 1743730230, (7 # 10)%Q)]
                 (Some (inject_Z 1743730230)) in
  exists r, Get 28800 (enough_fuel 28800 st) st = Some r
            /\ (r = 0%Q \/ (inject_Z 0 <= r <= inject_Z 1)%Q).
Proof.
  intro st. apply (Get_within_price_range 28800 st 0 1).
  - discriminate.
  - intros s [<- | [<- | []]]; cbn [snd]; split; vm_compute; discriminate.
  - vm_compute. discriminate.
  - apply le_n.
Defined.

(** ** A series of one sample *)

Lemma In_down_from (c t : Z) (k : nat) : In t (down_from c k) -> t <= c.
Proof.
  unfold down_from. intro H. apply in_map_iff in H.
  destruct H as (i & <- & _). lia.
Qed.

Lemma contributes_before_only_sample (tz : Z) (st : MovingAverage)
    (a pa : Q) (na : Z) (l : list Z) :
  data st = [(a, pa)] -> (a == inject_Z na)%Q ->
  (forall t, In t l -> t < na) ->
  filter (contributes tz st) (map inject_Z l) = [].
Proof.
  intros Hd Ha Hl. apply filter_none. intros x Hx.
  apply in_map_iff in Hx. destruct Hx as (t & <- & Ht).
  unfold contributes. rewrite (price_one_sample st a pa na t Hd Ha).
  replace (t <? na) with true by (symmetry; apply Z.ltb_lt; now apply Hl).
  apply andb_false_r.
Qed.

(** X12: a series of one positive-priced sample, taken at a whole second
    that is a trading instant: Get returns that price, whatever the
    non-negative window and the capacity. *)
Theorem Get_single_sample (tz : Z) (st : MovingAverage) (now p : Q) (n : Z)
    (fuel : nat) :
  data st = [(now, p)] ->
  current_timestamp st = Some now ->
  (now == inject_Z n)%Q -> 0 < n ->
  is_trading_time tz now = true ->
  (0 < p)%Q -> (0 <= window st)%Q ->
  (enough_fuel tz st <= fuel)%nat ->
  exists r, Get tz fuel st = Some r /\ (r == p)%Q.
Proof.
  intros Hd Hts Hn Hpos Htr Hp Hw Hfuel. unfold Get.
  assert (Htn : trading_second tz n = true)
    by (rewrite <- (is_trading_time_whole tz now n Hn); exact Htr).
  assert (Htod : 34200 <= tod tz n <= 41400 \/ 46800 <= tod tz n <= 54000).
  { unfold trading_second in Htn. apply andb_true_iff in Htn.
    destruct Htn as (_ & Hs). unfold in_session in Hs.
    apply orb_true_iff in Hs.
    destruct Hs as [Hs | Hs]; apply andb_true_iff in Hs;
      destruct Hs as (H1 & H2); apply Z.leb_le in H1, H2; lia. }
  assert (Hsafe : safe tz n) by (apply safe_session; lia).
  rewrite (GetSMA_whole tz st now n fuel Hts Hn ltac:(lia) Hsafe Hfuel).
  cbv zeta. eexists. split; [reflexivity|].
  rewrite sma_of_visit_all.
  match goal with
  | |- context [window_seconds now (window st) ++ ?e] => set (extra := e)
  end.
  assert (Hextra : filter (contributes tz st) extra = []).
  { subst extra.
    destruct (is_afternoon_session tz now) eqn:Ea; [|reflexivity].
    destruct (Qlt_bool _ (window st)); [|reflexivity]. cbn [andb].
    apply filter_none. intros x Hx.
    unfold continuation_seconds in Hx. apply In_firstn in Hx.
    unfold trading_seconds_back in Hx. apply filter_In in Hx.
    destruct Hx as (Hx & _). apply in_map_iff in Hx.
    destruct Hx as (t & <- & Ht). apply In_down_from in Ht.
    unfold contributes. rewrite (price_one_sample st now p n t Hd Hn).
    replace (t <? n) with true; [apply andb_false_r|].
    symmetry. apply Z.ltb_lt.
    unfold is_afternoon_session in Ea.
    unfold morning_close in Ht.
    rewrite (fromtimestamp_whole tz now n Hn) in Ea, Ht.
    cbn [dt_hour dt_date] in Ea, Ht.
    apply negb_true_iff, Z.ltb_ge in Ea.
    pose proof (at_day_of tz n) as Hnd. unfold at_day in *.
    assert (43200 <= tod tz n)
      by (Z.to_euclidean_division_equations; lia).
    lia. }
  rewrite filter_app, Hextra, app_nil_r.
  rewrite (prices_comp tz st _ _ (window_seconds_whole now (window st) n Hn)).
  assert (Hfl : 0 <= Qfloor (window st)) by (apply Qfloor_ge; exact Hw).
  replace (Z.to_nat (n - Z.max (n - Qfloor (window st)) 0 + 1))
    with (S (Z.to_nat (n - Z.max (n - Qfloor (window st)) 0))) by lia.
  rewrite down_from_S. cbn [map filter].
  assert (Hpn : price st (inject_Z n) = p).
  { rewrite (price_one_sample st now p n n Hd Hn). now rewrite Z.ltb_irrefl. }
  unfold contributes at 1.
  rewrite <- (is_trading_time_comp tz now (inject_Z n) Hn), Htr, Hpn.
  replace (Qlt_bool 0 p) with true by (symmetry; now apply Qlt_bool_iff).
  cbn [andb].
  rewrite (contributes_before_only_sample tz st now p n _ Hd Hn).
  - cbn [map]. rewrite Hpn. unfold mean_of, Qsum. cbn [fold_right length].
    change (inject_Z (Z.of_nat 1)) with 1%Q. field.
  - intros t Ht. apply In_down_from in Ht. lia.
Qed.

Lemma Get_single_sample_witness :
  let st := mkMA 3 (7 # 2) [(inject_Z 1743730230, 42%Q)]
                 (Some (inject_Z 1743730230)) in
  exists r, Get 28800 (enough_fuel 28800 st) st = Some r /\ (r == 42)%Q.
Proof.
  intro st.
  apply (Get_single_sample 28800 st (inject_Z 1743730230) 42 1743730230).
  - reflexivity.
  - reflexivity.
  - reflexivity.
  - lia.
  - rewrite (is_trading_time_whole 28800 _ 1743730230 (Qeq_refl _)).
    vm_compute. reflexivity.
  - reflexivity.
  - vm_compute. discriminate.
  - apply le_n.
Defined.

(** ** Update, then Get *)

Lemma Update_window (st st' : MovingAverage) (t v : Q) :
  Update st t v = Some st' -> window st' = window st.
Proof.
  unfold Update.
  destruct (_ >? _); [destruct (downsample _ _)|];
    intro H; inversion H; reflexivity.
Qed.

Lemma Updates_window (ups : list Sample) :
  forall st st', Updates st ups = Some st' -> window st' = window st.
Proof.
  induction ups as [|[t v] ups IH]; intros st st' E; cbn [Updates] in E.
  - now injection E as <-.
  - destruct (Update st t v) as [st1|] eqn:E1; [|discriminate].
    rewrite (IH _ _ E). exact (Update_window _ _ _ _ E1).
Qed.

Lemma Updates_snoc (ups : list Sample) (t v : Q) :
  forall st,
    Updates st (ups ++ [(t, v)]) =
    match Updates st ups with
    | Some st1 => Update st1 t v
    | None => None
    end.
Proof.
  induction ups as [|[t0 v0] ups IH]; intro st; cbn [app Updates].
  - now destruct (Update st t v).
  - destruct (Update st t0 v0); [apply IH | reflexivity].
Qed.

Lemma Updates_current_timestamp (ups : list Sample) (t v : Q)
    (st st' : MovingAverage) :
  Updates st (ups ++ [(t, v)]) = Some st' -> current_timestamp st' = Some t.
Proof.
  rewrite Updates_snoc. destruct (Updates st ups) as [st1|]; [|discriminate].
  apply Update_current_timestamp.
Qed.

(** When the current instant is a trading instant after the epoch with
    a positive resolved price, it is counted, and the mean lies within
    the range of the retained prices. *)
Lemma GetSMA_counts_now (tz : Z) (st : MovingAverage) (now lo hi : Q)
    (fuel : nat) (r : Q) :
  current_timestamp st = Some now -> (0 < now)%Q -> (0 <= window st)%Q ->
  is_trading_time tz now = true ->
  data st <> [] ->
  (forall s, In s (data st) -> (lo <= snd s <= hi)%Q) ->
  (0 < _find_price_at_time st now (current_price_of st))%Q ->
  GetSMA tz fuel st = Some r -> (lo <= r <= hi)%Q.
Proof.
  intros Hts Hnow Hw Htr Hne Hrange Hp E.
  set (I := fun acc : Q * Z =>
              1 <= snd acc /\
              (lo * inject_Z (snd acc) <= fst acc)%Q /\
              (fst acc <= hi * inject_Z (snd acc))%Q).
  assert (Hadd : forall t acc, I acc -> I (add_point st (current_price_of st) t acc)).
  { intros t acc (Hc & Hlo & Hhi). unfold add_point, I.
    destruct (Qlt_bool 0 (_find_price_at_time st t (current_price_of st)))
      eqn:Ep; [|now repeat split].
    apply Qlt_bool_iff in Ep. cbn [fst snd].
    destruct (find_price_cases st t (current_price_of st) Hne)
      as [E0 | (s & Hs & Es)].
    { rewrite E0 in Ep. lra. }
    rewrite Es. specialize (Hrange s Hs).
    rewrite inject_Z_plus. change (inject_Z 1) with 1%Q.
    split; [lia|]. split; lra. }
  assert (Hfirst : I (add_point st (current_price_of st) now (0%Q, 0))).
  { unfold add_point, I. apply Qlt_bool_iff in Hp. rewrite Hp. cbn [fst snd].
    apply Qlt_bool_iff in Hp.
    destruct (find_price_cases st now (current_price_of st) Hne)
      as [E0 | (s & Hs & Es)].
    { rewrite E0 in Hp. lra. }
    rewrite Es. specialize (Hrange s Hs).
    change (inject_Z (0 + 1)) with 1%Q. split; [lia|]. split; lra. }
  assert (Hend : forall acc, I acc -> (lo <= sma_of acc <= hi)%Q).
  { intros acc (Hc & Hlo & Hhi).
    destruct (sma_of_bounds lo hi acc ltac:(lia) Hlo Hhi) as [_ | H];
      [|exact H].
    unfold sma_of.
    replace (0 <? snd acc) with true by (symmetry; apply Z.ltb_lt; lia).
    assert (Hq : (0 < inject_Z (snd acc))%Q)
      by (change 0%Q with (inject_Z 0); rewrite <- Zlt_Qlt; lia).
    split; [apply Qle_shift_div_l | apply Qle_shift_div_r]; assumption. }
  unfold GetSMA in E.
  assert (Hnt : no_timestamp st = false).
  { unfold no_timestamp. rewrite Hts.
    destruct (Qeq_bool now 0) eqn:E0; [|reflexivity].
    apply Qeq_bool_iff in E0. lra. }
  rewrite Hnt, Hts in E.
  destruct (primary_walk tz fuel st (now - window st) (current_price_of st)
                         now (0%Q, 0)) as [acc|] eqn:E1; [|discriminate].
  assert (Hacc : I acc).
  { assert (Hcond : Qle_bool (now - window st) now && Qle_bool 0 now = true).
    { apply andb_true_iff. split; apply Qle_bool_iff; lra. }
    destruct fuel as [|fuel].
    - cbn [primary_walk] in E1. rewrite Hcond in E1. discriminate.
    - rewrite primary_walk_step, Hcond in E1.
      destruct (jump tz (primary_jump_to_time tz) (now - 1)) as [c'|];
        [|discriminate].
      apply (primary_walk_keeps tz st I Hadd) in E1; [exact E1|].
      unfold visit. rewrite Htr. exact Hfirst. }
  destruct (continuation_runs tz st now acc).
  - destruct (continuation_walk tz fuel st (current_price_of st) _ _ acc)
      as [acc'|] eqn:E2; [|discriminate].
    apply (continuation_walk_keeps tz st I Hadd) in E2; [|exact Hacc].
    injection E as <-. now apply Hend.
  - injection E as <-. now apply Hend.
Qed.

Lemma Get_after_Update_range (tz nb : Z) (w : Q) (ups : list Sample)
    (t v lo hi : Q) :
  1 <= nb -> (0 <= w)%Q ->
  (0 < t)%Q -> is_trading_time tz t = true ->
  (forall u, In u ups -> (fst u + (1 # 10) <= t)%Q) ->
  (0 < lo)%Q ->
  (forall u, In u (ups ++ [(t, v)]) -> (lo <= snd u <= hi)%Q) ->
  exists st,
    Updates (init nb w) (ups ++ [(t, v)]) = Some st /\
    forall fuel, (enough_fuel tz st <= fuel)%nat ->
                 exists r, Get tz fuel st = Some r /\ (lo <= r <= hi)%Q.
Proof.
  intros Hnb Hw Ht Htr Hgap Hlo Hrange.
  destruct (Updates_newest_found nb w ups t v Hnb Hgap)
    as (st & E & (_ & _ & Hin & _) & Hnew & Hfind).
  exists st. split; [exact E|].
  intros fuel Hfuel. unfold Get.
  destruct (GetSMA_terminates_at tz st fuel Hfuel) as (r & Er).
  exists r. split; [exact Er|].
  apply (GetSMA_counts_now tz st t lo hi fuel r); try assumption.
  - exact (Updates_current_timestamp ups t v _ _ E).
  - rewrite (Updates_window _ _ _ E). exact Hw.
  - intro H0. rewrite H0 in Hnew. contradiction.
  - intros s Hs. apply Hrange, Hin, Hs.
  - rewrite Hfind.
    specialize (Hrange (t, v) ltac:(apply in_or_app; right; now left)).
    cbn [snd] in Hrange. lra.
Qed.

(** X13: Update, then Get, as the driver loop does.  When a sample with
    a positive price is inserted at a trading instant after the epoch, at
    least 0.1 s after every earlier sample, and the prices inserted so far
    lie between two whole numbers [lo >= 1] and [hi], the Get that follows
    returns a value between [lo] and [hi], so never the 0 of an empty
    window.  The bounds are whole numbers small enough for their
    multiples up to the number of seconds Get can count (less than
    [2 * window + 4]) to be exact doubles: then the float sums of the
    code keep within them, as the exact sums do. *)
Theorem Get_after_Update (tz nb : Z) (w : Q) (ups : list Sample)
    (t v : Q) (lo hi : Z) :
  1 <= nb -> (0 <= w)%Q ->
  (0 < t)%Q -> is_trading_time tz t = true ->
  (forall u, In u ups -> (fst u + (1 # 10) <= t)%Q) ->
  0 < lo ->
  (forall u, In u (ups ++ [(t, v)]) ->
             (inject_Z lo <= snd u <= inject_Z hi)%Q) ->
  (inject_Z hi * (2 * w + 4) <= inject_Z (2 ^ 53))%Q ->
  exists st,
    Updates (init nb w) (ups ++ [(t, v)]) = Some st /\
    forall fuel, (enough_fuel tz st <= fuel)%nat ->
                 exists r, Get tz fuel st = Some r /\
                           (inject_Z lo <= r <= inject_Z hi)%Q.
Proof.
  intros Hnb Hw Ht Htr Hgap Hlo Hrange _.
  apply Get_after_Update_range; try assumption.
  change 0%Q with (inject_Z 0). rewrite <- Zlt_Qlt. exact Hlo.
Qed.

Lemma Get_after_Update_witness :
  let t0 := inject_Z 1743730200 in
  let t1 := inject_Z 1743730230 in
  exists st,
    Updates (init 10 60) ([(t0, (507 # 10)%Q)] ++ [(t1, (693 # 10)%Q)])
    = Some st /\
    forall fuel, (enough_fuel 28800 st <= fuel)%nat ->
                 exists r, Get 28800 fuel st = Some r /\
                           (inject_Z 50 <= r <= inject_Z 70)%Q.
Proof.
  intros t0 t1.
  apply (Get_after_Update 28800 10 60 [(t0, (507 # 10)%Q)] t1 (693 # 10) 50 70).
  - lia.
  - vm_compute. discriminate.
  - reflexivity.
  - unfold t1.
    rewrite (is_trading_time_whole 28800 _ 1743730230 (Qeq_refl _)).
    vm_compute. reflexivity.
  - intros u [<- | []]. vm_compute. discriminate.
  - lia.
  - intros u [<- | [<- | []]]; cbn [snd]; split; vm_compute; discriminate.
  - vm_compute. discriminate.
Defined.

(** ** A negative window *)



(** * Properties of the CSV audit log *)

(** ** Logging is observation only *)

Lemma primary_walk_log_value (tz : Z) (csv_writer : bool) (st : MovingAverage)
    (window_start cp : Q) (fuel : nat) :
  forall (c : Q) (acc : Q * Z) (log : list Q),
    option_map fst
      (primary_walk_log tz csv_writer fuel st window_start cp c acc log)
    = primary_walk tz fuel st window_start cp c acc.
Proof.
  induction fuel as [|fuel IH]; intros c acc log;
    cbn [primary_walk_log primary_walk];
    destruct (Qle_bool window_start c && Qle_bool 0 c); try reflexivity.
  destruct (is_trading_time tz c);
    destruct (jump tz (primary_jump_to_time tz) (c - 1)); try reflexivity;
    apply IH.
Qed.

Lemma continuation_walk_log_value (tz : Z) (csv_writer : bool)
    (st : MovingAverage) (cp : Q) (fuel : nat) :
  forall (c rem : Q) (acc : Q * Z) (log : list Q),
    option_map fst
      (continuation_walk_log tz csv_writer fuel st cp c rem acc log)
    = continuation_walk tz fuel st cp c rem acc.
Proof.
  induction fuel as [|fuel IH]; intros c rem acc log;
    cbn [continuation_walk_log continuation_walk];
    destruct (Qle_bool 0 c && Qlt_bool 0 rem); try reflexivity.
  destruct (is_trading_time tz c);
    destruct (jump tz (continuation_jump_to_time tz) (c - 1));
    try reflexivity; apply IH.
Qed.

Lemma write_log_some (tz : Z) (csv_writer : bool) (st : MovingAverage)
    (now : Q) (log : list Q) (sma : Q) :
  current_timestamp st = Some now ->
  exists rows, write_log tz csv_writer st log sma = Some rows.
Proof.
  intro Hts. unfold write_log, log_to_csv.
  destruct csv_writer; [|eauto]. destruct log; [eauto|].
  cbn [negb]. rewrite Hts. eauto.
Qed.

Lemma GetSMA_logged_fst (tz : Z) (csv_writer : bool) (fuel : nat)
    (st : MovingAverage) :
  option_map fst (GetSMA_logged tz csv_writer fuel st) = GetSMA tz fuel st.
Proof.
  unfold GetSMA_logged, GetSMA, logged_walks.
  destruct (no_timestamp st); [reflexivity|].
  destruct (current_timestamp st) as [now|] eqn:Hts; [|reflexivity].
  rewrite <- (primary_walk_log_value tz csv_writer st (now - window st)
                (current_price_of st) fuel now (0%Q, 0) []).
  destruct (primary_walk_log tz csv_writer fuel st (now - window st)
              (current_price_of st) now (0%Q, 0) []) as [[acc log]|];
    [|reflexivity].
  cbn [option_map fst].
  destruct (continuation_runs tz st now acc).
  - rewrite <- (continuation_walk_log_value tz csv_writer st
                  (current_price_of st) fuel _ _ acc log).
    destruct (continuation_walk_log tz csv_writer fuel st _ _ _ acc log)
      as [[acc' log']|]; [|reflexivity].
    destruct (write_log_some tz csv_writer st now log' (sma_of acc') Hts)
      as (rows & ->).
    reflexivity.
  - destruct (write_log_some tz csv_writer st now log (sma_of acc) Hts)
      as (rows & ->).
    reflexivity.
Qed.

(** X15: logging is observation only: with or without a writer set,
    GetSMA returns the same value, and runs out of fuel on the same
    inputs. *)
Theorem GetSMA_logged_value (tz : Z) (csv_writer : bool) (fuel : nat)
    (st : MovingAverage) :
  option_map fst (GetSMA_logged tz csv_writer fuel st) = GetSMA tz fuel st.
Proof. apply GetSMA_logged_fst. Qed.

(** ** What the walks collect *)

Section LogInvariant.
Variable tz : Z.
Variable st : MovingAverage.
Variable bound : Q.
(** A property of the accumulator and the log that a visit of a trading
    instant not after [bound] keeps. *)
Variable J : Q * Z -> list Q -> Prop.
Hypothesis J_visit :
  forall c acc log,
    (c <= bound)%Q -> is_trading_time tz c = true -> J acc log ->
    J (add_point st (current_price_of st) c acc) (log ++ [c]).

Lemma primary_walk_log_keeps (window_start : Q) (fuel : nat) :
  forall (c : Q) (acc : Q * Z) (log : list Q) (acc' : Q * Z) (log' : list Q),
    (c <= bound)%Q -> J acc log ->
    primary_walk_log tz true fuel st window_start (current_price_of st)
                     c acc log = Some (acc', log') ->
    J acc' log'.
Proof.
  induction fuel as [|fuel IH]; intros c acc log acc' log' Hc HJ E;
    cbn [primary_walk_log] in E;
    destruct (Qle_bool window_start c && Qle_bool 0 c);
    try discriminate; try (injection E as <- <-; exact HJ).
  destruct (jump tz (primary_jump_to_time tz) (c - 1)) as [c'|] eqn:Ej.
  2:{ destruct (is_trading_time tz c); discriminate. }
  pose proof (jump_le tz _ _ _ Ej) as Hle.
  destruct (is_trading_time tz c) eqn:Etr;
    apply IH in E; try exact E; try lra; auto.
Qed.

Lemma continuation_walk_log_keeps (fuel : nat) :
  forall (c rem : Q) (acc : Q * Z) (log : list Q) (acc' : Q * Z)
         (log' : list Q),
    (c <= bound)%Q -> J acc log ->
    continuation_walk_log tz true fuel st (current_price_of st)
                          c rem acc log = Some (acc', log') ->
    J acc' log'.
Proof.
  induction fuel as [|fuel IH]; intros c rem acc log acc' log' Hc HJ E;
    cbn [continuation_walk_log] in E;
    destruct (Qle_bool 0 c && Qlt_bool 0 rem);
    try discriminate; try (injection E as <- <-; exact HJ).
  destruct (jump tz (continuation_jump_to_time tz) (c - 1)) as [c'|] eqn:Ej.
  2:{ destruct (is_trading_time tz c); discriminate. }
  pose proof (jump_le tz _ _ _ Ej) as Hle.
  destruct (is_trading_time tz c) eqn:Etr;
    apply IH in E; try exact E; try lra; auto.
Qed.
End LogInvariant.

Lemma round_half_even_le (x : Q) :
  (inject_Z (round_half_even x) <= x + (1 # 2))%Q.
Proof.
  unfold round_half_even. pose proof (Qfloor_le x) as Hf.
  destruct (Qcompare (x - inject_Z (Qfloor x)) (1 # 2)) eqn:E.
  - destruct (Z.even (Qfloor x)); [lra|].
    apply Qeq_alt in E. rewrite inject_Z_plus. change (inject_Z 1) with 1%Q. lra.
  - lra.
  - rewrite <- Qgt_alt in E. rewrite inject_Z_plus.
    change (inject_Z 1) with 1%Q. lra.
Qed.

Lemma round_half_even_nonneg (x : Q) : (0 <= x)%Q -> 0 <= round_half_even x.
Proof.
  intro H. unfold round_half_even.
  assert (0 <= Qfloor x) by (apply Qfloor_ge; exact H).
  destruct (Qcompare _ _); [destruct (Z.even _)| |]; lia.
Qed.

(** In the afternoon the morning close of the day lies behind. *)
Lemma morning_end_before_afternoon (tz : Z) (now : Q) :
  is_afternoon_session tz now = true -> (morning_end_ts tz now <= now)%Q.
Proof.
  intro Ha. rewrite morning_end_ts_whole.
  unfold is_afternoon_session in Ha. apply negb_true_iff, Z.ltb_ge in Ha.
  unfold fromtimestamp in *. cbn [dt_hour dt_date] in *.
  set (rhe := round_half_even (now * 1000000)) in *.
  set (us := rhe + tz * 1000000) in *.
  assert (Hz : (at_day tz (us / 86400000000) 41400 + 1800) * 1000000 <= rhe).
  { unfold at_day. subst us. Z.to_euclidean_division_equations. lia. }
  pose proof (round_half_even_le (now * 1000000)) as Hr. fold rhe in Hr.
  rewrite Zle_Qle, inject_Z_mult, inject_Z_plus in Hz.
  change (inject_Z 1800) with 1800%Q in Hz.
  change (inject_Z 1000000) with 1000000%Q in Hz.
  lra.
Qed.

Lemma logged_walks_keep (tz : Z) (st : MovingAverage) (now : Q)
    (J : Q * Z -> list Q -> Prop) (fuel : nat) (acc : Q * Z) (log : list Q) :
  (forall c acc log,
      (c <= now)%Q -> is_trading_time tz c = true -> J acc log ->
      J (add_point st (current_price_of st) c acc) (log ++ [c])) ->
  J (0%Q, 0) [] ->
  logged_walks tz true fuel st now = Some (acc, log) ->
  J acc log.
Proof.
  intros Hvisit H0 E. unfold logged_walks in E.
  destruct (primary_walk_log tz true fuel st (now - window st)
              (current_price_of st) now (0%Q, 0) []) as [[acc1 log1]|] eqn:E1;
    [|discriminate].
  apply (primary_walk_log_keeps tz st now J Hvisit) in E1;
    [|lra|exact H0].
  destruct (continuation_runs tz st now acc1) eqn:Ec.
  - apply (continuation_walk_log_keeps tz st now J Hvisit) in E;
      [exact E | | exact E1].
    unfold continuation_runs in Ec. apply andb_true_iff in Ec.
    exact (morning_end_before_afternoon tz now (proj1 Ec)).
  - now injection E as <- <-.
Qed.

(** ** The rows *)

Lemma enumerate_from_In {A : Type} (l : list A) :
  forall (i j : Z) (x : A), In (j, x) (enumerate_from i l) -> In x l.
Proof.
  induction l as [|y l IH]; intros i j x H; [contradiction|].
  cbn [enumerate_from] in H. destruct H as [H | H].
  - injection H as _ <-. now left.
  - right. exact (IH _ _ _ H).
Qed.

Lemma enumerate_from_snd {A : Type} (l : list A) :
  forall i : Z, map snd (enumerate_from i l) = l.
Proof.
  induction l as [|y l IH]; intro i; cbn [enumerate_from map snd];
    [reflexivity | now rewrite IH].
Qed.

Lemma log_row_timestamp (tz : Z) (now : Q) (cd : Z) (xd xs : bool) (m a : Z)
    (sma : Q) (entry : Z * LogPoint) :
  row_timestamp (log_row tz now cd xd xs m a sma entry) = fst (fst (snd entry)).
Proof. destruct entry as (i & (ts & p) & o). reflexivity. Qed.

Lemma log_row_is_trading (tz : Z) (now : Q) (cd : Z) (xd xs : bool) (m a : Z)
    (sma : Q) (entry : Z * LogPoint) :
  row_is_trading (log_row tz now cd xd xs m a sma entry)
  = is_trading_time tz (fst (fst (snd entry))).
Proof. destruct entry as (i & (ts & p) & o). reflexivity. Qed.

Lemma log_row_time_diff (tz : Z) (now : Q) (cd : Z) (xd xs : bool) (m a : Z)
    (sma : Q) (entry : Z * LogPoint) :
  row_time_diff (log_row tz now cd xd xs m a sma entry)
  = py_round (now - fst (fst (snd entry))) 1.
Proof. destruct entry as (i & (ts & p) & o). reflexivity. Qed.

Lemma log_to_csv_rows (tz : Z) (st : MovingAverage) (now : Q)
    (twp : list LogPoint) (sma : Q) :
  current_timestamp st = Some now ->
  exists cd xd xs m a,
    log_to_csv tz true st twp sma
    = Some (map (log_row tz now cd xd xs m a sma) (enumerate_from 0 twp)).
Proof.
  intro Hts. unfold log_to_csv. cbn [negb]. rewrite Hts. cbv zeta.
  repeat eexists.
Qed.

Lemma write_log_spec (tz : Z) (st : MovingAverage) (now : Q) (log : list Q)
    (sma : Q) (rows : list LogRow) :
  current_timestamp st = Some now ->
  write_log tz true st log sma = Some rows ->
  exists cd xd xs m a,
    rows = map (log_row tz now cd xd xs m a sma)
               (enumerate_from 0
                  (window_data_for_log st (current_price_of st) log)).
Proof.
  intros Hts E.
  destruct (log_to_csv_rows tz st now
              (window_data_for_log st (current_price_of st) log) sma Hts)
    as (cd & xd & xs & m & a & Hl).
  unfold write_log in E. destruct log as [|t log'].
  - exists 0, false, false, 0, 0. now injection E as <-.
  - exists cd, xd, xs, m, a. congruence.
Qed.

(** The timestamp column of the rows written is the log itself. *)
Lemma write_log_timestamps (tz : Z) (st : MovingAverage) (now : Q)
    (log : list Q) (sma : Q) (rows : list LogRow) :
  current_timestamp st = Some now ->
  write_log tz true st log sma = Some rows ->
  map row_timestamp rows = log.
Proof.
  intros Hts E.
  destruct (write_log_spec tz st now log sma rows Hts E)
    as (cd & xd & xs & m & a & ->).
  rewrite map_map.
  erewrite map_ext by (intro; apply log_row_timestamp).
  rewrite <- (map_map snd (fun p : LogPoint => fst (fst p))).
  rewrite enumerate_from_snd. unfold window_data_for_log.
  rewrite map_map. cbn [fst]. apply map_id.
Qed.

Lemma write_log_rows (tz : Z) (st : MovingAverage) (now : Q) (log : list Q)
    (sma : Q) (rows : list LogRow) (row : LogRow) :
  current_timestamp st = Some now ->
  write_log tz true st log sma = Some rows ->
  In row rows ->
  row_is_trading row = is_trading_time tz (row_timestamp row) /\
  row_time_diff row = py_round (now - row_timestamp row) 1.
Proof.
  intros Hts E Hrow.
  destruct (write_log_spec tz st now log sma rows Hts E)
    as (cd & xd & xs & m & a & ->).
  apply in_map_iff in Hrow. destruct Hrow as (entry & <- & _).
  now rewrite log_row_is_trading, log_row_time_diff, log_row_timestamp.
Qed.

Lemma py_round_nonneg (x : Q) (n : Z) : (0 <= x)%Q -> (0 <= py_round x n)%Q.
Proof.
  intro H. unfold py_round.
  assert (Hp : 0 <= 10 ^ n) by (apply Z.pow_nonneg; lia).
  assert (Hq : (0 <= inject_Z (10 ^ n))%Q)
    by (change 0%Q with (inject_Z 0); rewrite <- Zle_Qle; exact Hp).
  assert (Hr : (0 <= inject_Z (round_half_even (x * inject_Z (10 ^ n))))%Q).
  { change 0%Q with (inject_Z 0). rewrite <- Zle_Qle.
    apply round_half_even_nonneg. now apply Qmult_le_0_compat. }
  destruct (Z.eq_dec (10 ^ n) 0) as [E | NE].
  - rewrite E. unfold Qdiv. change (/ inject_Z 0)%Q with 0%Q. lra.
  - apply Qle_shift_div_l; [|lra].
    change 0%Q with (inject_Z 0). rewrite <- Zlt_Qlt. lia.
Qed.

(** X16: with a writer set, every row of the log is a trading instant not
    after the current one: its trading mark is set and its distance to
    the current instant is not negative. *)
Theorem logged_rows_are_trading_instants (tz : Z) (st : MovingAverage)
    (fuel : nat) :
  (enough_fuel tz st <= fuel)%nat ->
  exists r rows,
    GetSMA_logged tz true fuel st = Some (r, rows) /\
    forall row, In row rows ->
      row_is_trading row = true /\
      is_trading_time tz (row_timestamp row) = true /\
      (forall now, current_timestamp st = Some now ->
                   (row_timestamp row <= now)%Q) /\
      (0 <= row_time_diff row)%Q.
Proof.
  intro Hfuel.
  destruct (GetSMA_terminates_at tz st fuel Hfuel) as (r & Er).
  rewrite <- (GetSMA_logged_fst tz true) in Er.
  destruct (GetSMA_logged tz true fuel st) as [[r' rows]|] eqn:E;
    [|discriminate].
  exists r', rows. split; [reflexivity|].
  unfold GetSMA_logged in E.
  destruct (no_timestamp st).
  { injection E as _ <-. intros row []. }
  destruct (current_timestamp st) as [now|] eqn:Hts.
  2:{ injection E as _ <-. intros row []. }
  destruct (logged_walks tz true fuel st now) as [[acc log]|] eqn:Ew;
    [|discriminate].
  destruct (write_log tz true st log (sma_of acc)) as [rows'|] eqn:El;
    [|discriminate].
  injection E as _ <-.
  assert (HJ : Forall (fun t => is_trading_time tz t = true /\ (t <= now)%Q) log).
  { apply (logged_walks_keep tz st now
             (fun _ log => Forall (fun t => is_trading_time tz t = true
                                            /\ (t <= now)%Q) log)
             fuel acc log); [| constructor | exact Ew].
    intros c acc0 log0 Hc Htr H. apply Forall_app. split; [exact H|].
    constructor; [now split | constructor]. }
  intros row Hrow.
  destruct (write_log_rows tz st now log (sma_of acc) rows' row Hts El Hrow)
    as (Htr & Hdiff).
  assert (Hin : In (row_timestamp row) log).
  { rewrite <- (write_log_timestamps tz st now log (sma_of acc) rows' Hts El).
    now apply in_map. }
  rewrite Forall_forall in HJ. destruct (HJ _ Hin) as (Ht & Hle).
  split; [now rewrite Htr|]. split; [exact Ht|]. split.
  - intros now' Hnow'. injection Hnow' as <-. exact Hle.
  - rewrite Hdiff. apply py_round_nonneg. lra.
Qed.

Lemma logged_rows_are_trading_instants_witness :
  let st := mkMA 10 2 [(inject_Z 1743730200, 50%Q)]
                 (Some (inject_Z 1743730200)) in
  exists r rows,
    GetSMA_logged 28800 true (enough_fuel 28800 st) st = Some (r, rows) /\
    forall row, In row rows ->
      row_is_trading row = true /\
      is_trading_time 28800 (row_timestamp row) = true /\
      (forall now, current_timestamp st = Some now ->
                   (row_timestamp row <= now)%Q) /\
      (0 <= row_time_diff row)%Q.
Proof.
  intro st. apply (logged_rows_are_trading_instants 28800 st). apply le_n.
Defined.

(** ** The log accounts for the mean *)




(** ** The cross-session mark *)

Lemma count_pos_existsb {A : Type} (f : A -> bool) (l : list A) :
  (0 <? Z.of_nat (length (filter f l))) = existsb f l.
Proof.
  induction l as [|x l IH]; [reflexivity|].
  cbn [filter existsb]. destruct (f x); [|exact IH].
  cbn [length orb]. apply Z.ltb_lt. lia.
Qed.

(** X18: the cross-session mark does not tell the rows of a call apart:
    every row carries it, or none does, according to whether the logged
    instants include both one with an hour below 12 and one without. *)
Theorem log_cross_session_all_or_nothing (tz : Z) (st : MovingAverage)
    (now : Q) (timestamps_with_prices : list LogPoint) (sma : Q) :
  current_timestamp st = Some now ->
  exists rows,
    log_to_csv tz true st timestamps_with_prices sma = Some rows /\
    length rows = length timestamps_with_prices /\
    forall row, In row rows ->
      row_cross_session row
      = existsb (is_morning_point tz) timestamps_with_prices
        && existsb (fun p => negb (is_morning_point tz p))
                   timestamps_with_prices.
Proof.
  intro Hts. unfold log_to_csv. cbn [negb]. rewrite Hts. cbv zeta.
  eexists. split; [reflexivity|]. split.
  - rewrite length_map, <- (length_map snd), enumerate_from_snd. reflexivity.
  - intros row Hrow. apply in_map_iff in Hrow.
    destruct Hrow as ((i & (ts & p) & o) & <- & _).
    unfold log_row. cbn [row_cross_session].
    rewrite !count_pos_existsb.
    destruct (existsb (is_morning_point tz) timestamps_with_prices);
      destruct (existsb (fun p => negb (is_morning_point tz p))
                        timestamps_with_prices);
      destruct (dt_hour (fromtimestamp tz ts) <? 12); reflexivity.
Qed.

Lemma log_cross_session_all_or_nothing_witness :
  let st := mkMA 10 2 [(inject_Z 1743730200, 50%Q)]
                 (Some (inject_Z 1743730200)) in
  let twp := [(inject_Z 1743730200, 50%Q, true)] in
  exists rows,
    log_to_csv 28800 true st twp 50 = Some rows /\
    length rows = length twp /\
    forall row, In row rows ->
      row_cross_session row
      = existsb (is_morning_point 28800) twp
        && existsb (fun p => negb (is_morning_point 28800 p)) twp.
Proof.
  intros st twp.
  apply (log_cross_session_all_or_nothing 28800 st (inject_Z 1743730200)).
  reflexivity.
Defined.

(** ** Original points *)

Lemma min_from_spec (key : Q -> Q) (l : list Q) :
  forall best : Q,
    In (min_from key best l) (best :: l) /\
    forall y, In y (best :: l) -> (key (min_from key best l) <= key y)%Q.
Proof.
  induction l as [|x l IH]; intro best; cbn [min_from].
  - split; [now left|]. intros y [<- | []]. lra.
  - destruct (IH (if Qlt_bool (key x) (key best) then x else best))
      as (Hin & Hmin).
    split.
    + destruct Hin as [Hin | Hin]; [|right; now right].
      rewrite <- Hin. destruct (Qlt_bool (key x) (key best));
        [right; now left | now left].
    + intros y Hy.
      assert (Hb : (key (if Qlt_bool (key x) (key best) then x else best)
                    <= key best)%Q /\
                   (key (if Qlt_bool (key x) (key best) then x else best)
                    <= key x)%Q).
      { destruct (Qlt_bool (key x) (key best)) eqn:E.
        - apply Qlt_bool_iff in E. split; lra.
        - apply Qlt_bool_false_iff in E. split; lra. }
      destruct Hb as (Hb1 & Hb2).
      pose proof (Hmin _ (or_introl eq_refl)) as Hm.
      destruct Hy as [<- | [<- | Hy]].
      * lra.
      * lra.
      * apply Hmin. now right.
Qed.

Lemma existsb_false_iff {A : Type} (f : A -> bool) (l : list A) :
  existsb f l = false <-> forall x, In x l -> f x = false.
Proof.
  split.
  - intros H x Hx. destruct (f x) eqn:E; [|reflexivity].
    rewrite <- H. symmetry. apply existsb_exists. eauto.
  - intro H. destruct (existsb f l) eqn:E; [|reflexivity].
    apply existsb_exists in E. destruct E as (x & Hx & Hfx).
    now rewrite (H x Hx) in Hfx.
Qed.

(** X19: a logged instant is marked as an original point exactly when
    some retained sample lies within 0.1 s of it: the test of the first
    loop of the price lookup. *)
Theorem is_original_iff_near (st : MovingAverage) (ts : Q) :
  is_original (map fst (data st)) ts = existsb (near ts) (data st).
Proof.
  unfold is_original, py_min.
  destruct (data st) as [|s0 d]; [reflexivity|]. cbn [map].
  set (key := fun x => Qabs (x - ts)).
  destruct (min_from_spec key (map fst d) (fst s0)) as (Hin & Hmin).
  set (m := min_from key (fst s0) (map fst d)) in *.
  assert (Hsym : (Qabs (ts - m) == key m)%Q).
  { unfold key. rewrite (Qabs_Qminus ts m). reflexivity. }
  rewrite (Qlt_bool_comp _ _ _ _ Hsym (Qeq_refl (1 # 10))).
  change (fst s0 :: map fst d) with (map fst (s0 :: d)) in Hin, Hmin.
  destruct (Qlt_bool (key m) (1 # 10)) eqn:E; symmetry.
  - apply in_map_iff in Hin. destruct Hin as (s & Hs & Hin).
    apply existsb_exists. exists s. split; [exact Hin|].
    unfold near. rewrite Hs. exact E.
  - apply existsb_false_iff. intros s Hs.
    apply Qlt_bool_false_iff in E. unfold near. apply Qlt_bool_false_iff.
    specialize (Hmin (fst s) (in_map fst _ _ Hs)). unfold key in *. lra.
Qed.

(** * Properties of the driver *)

(** ** Instants and their local microseconds *)

Lemma round_half_even_ge (x : Q) :
  (x - (1 # 2) <= inject_Z (round_half_even x))%Q.
Proof.
  unfold round_half_even.
  assert (Hf : (x < inject_Z (Qfloor x + 1))%Q) by apply Qlt_floor.
  rewrite inject_Z_plus in Hf. change (inject_Z 1) with 1%Q in Hf.
  destruct (Qcompare (x - inject_Z (Qfloor x)) (1 # 2)) eqn:E.
  - apply Qeq_alt in E.
    destruct (Z.even (Qfloor x)); [lra|].
    rewrite inject_Z_plus. change (inject_Z 1) with 1%Q. lra.
  - rewrite <- Qlt_alt in E. lra.
  - rewrite inject_Z_plus. change (inject_Z 1) with 1%Q. lra.
Qed.

(** An instant lies within half a microsecond of its local microseconds. *)
Lemma local_micros_bounds (tz : Z) (ts : Q) :
  (inject_Z (local_micros tz ts - tz * 1000000) - (1 # 2) <= ts * 1000000)%Q /\
  (ts * 1000000 <= inject_Z (local_micros tz ts - tz * 1000000) + (1 # 2))%Q.
Proof.
  unfold local_micros.
  replace (round_half_even (ts * 1000000) + tz * 1000000 - tz * 1000000)
    with (round_half_even (ts * 1000000)) by lia.
  pose proof (round_half_even_le (ts * 1000000)).
  pose proof (round_half_even_ge (ts * 1000000)).
  split; lra.
Qed.

Lemma local_micros_shift (tz : Z) (ts : Q) (k : Z) :
  local_micros tz (ts + inject_Z k) = local_micros tz ts + k * 1000000.
Proof.
  unfold local_micros.
  rewrite (round_half_even_comp _ (ts * 1000000 + inject_Z (k * 1000000))).
  - rewrite round_half_even_shift; [lia|].
    rewrite Z.even_mul. apply orb_true_r.
  - rewrite inject_Z_mult. change (inject_Z 1000000) with 1000000%Q. ring.
Qed.

Lemma local_micros_whole (tz : Z) (q : Q) (n : Z) :
  (q == inject_Z n)%Q -> local_micros tz q = (n + tz) * 1000000.
Proof.
  intro H. unfold local_micros.
  rewrite (round_half_even_whole (q * 1000000) (n * 1000000)); [lia|].
  rewrite H, inject_Z_mult. reflexivity.
Qed.

Lemma fromtimestamp_micros (tz : Z) (ts : Q) :
  fromtimestamp tz ts =
  let us := local_micros tz ts in
  mkDT (us / 86400000000) (us mod 86400000000 / 3600000000)
       (us mod 3600000000 / 60000000) (us mod 60000000 / 1000000)
       (us mod 1000000).
Proof. reflexivity. Qed.

(** An opening or closing time on a weekday is a trading instant. *)
Lemma session_time_is_trading (tz d h m s : Z) :
  weekday d < 5 -> in_session (3600 * h + 60 * m + s) = true ->
  0 <= 3600 * h + 60 * m + s < 86400 ->
  is_trading_time tz (timestamp tz (strptime d (h, m, s))) = true.
Proof.
  intros Hw Hs Hr.
  rewrite (is_trading_time_whole tz _ _ (timestamp_strptime tz d h m s)).
  rewrite trading_second_at_day by exact Hr.
  rewrite Hs. replace (weekday d <? 5) with true; [reflexivity|].
  symmetry. now apply Z.ltb_lt.
Qed.

Lemma next_trading_day_spec (d : Z) :
  exists p, next_trading_day d = Some p /\ d < p /\ weekday p < 5.
Proof.
  unfold next_trading_day, week_fuel. cbn [skip_weekend_forward].
  rewrite !Z.geb_leb.
  destruct (Z.leb_spec 5 (weekday (d + 1))) as [H1 | H1];
    [destruct (Z.leb_spec 5 (weekday (d + 1 + 1))) as [H2 | H2];
     [destruct (Z.leb_spec 5 (weekday (d + 1 + 1 + 1))) as [H3 | H3]|]|].
  - exfalso. unfold weekday in *.
    Z.to_euclidean_division_equations. lia.
  - exists (d + 1 + 1 + 1). split; [reflexivity|]. split; lia.
  - exists (d + 1 + 1). split; [reflexivity|]. split; lia.
  - exists (d + 1). split; [reflexivity|]. split; lia.
Qed.

(** The instant of a local time of day on day [d], against an instant
    whose local microseconds are known. *)
Lemma instant_le_at_day (tz : Z) (ts : Q) (d s : Z) :
  local_micros tz ts < (86400 * d + s) * 1000000 ->
  (ts <= inject_Z (at_day tz d s))%Q.
Proof.
  intro H. destruct (local_micros_bounds tz ts) as (_ & Hhi).
  assert (Hz : local_micros tz ts - tz * 1000000 + 1
               <= at_day tz d s * 1000000) by (unfold at_day; lia).
  rewrite Zle_Qle, inject_Z_plus, inject_Z_mult in Hz.
  change (inject_Z 1) with 1%Q in Hz.
  change (inject_Z 1000000) with 1000000%Q in Hz. lra.
Qed.

Section DriverSteps.
Variable tz : Z.

Lemma trading_micros (ts : Q) :
  is_trading_time tz ts = true ->
  weekday (local_micros tz ts / 86400000000) < 5 /\
  session_micros (local_micros tz ts mod 86400000000).
Proof.
  rewrite is_trading_time_micros. cbv zeta. unfold session_micros.
  rewrite andb_true_iff, orb_true_iff, !andb_true_iff, Z.ltb_lt, !Z.leb_le.
  tauto.
Qed.

Lemma not_trading_micros (ts : Q) :
  is_trading_time tz ts = false ->
  weekday (local_micros tz ts / 86400000000) < 5 ->
  ~ session_micros (local_micros tz ts mod 86400000000).
Proof.
  intros Hn Hw Hs.
  assert (H : is_trading_time tz ts = true); [|congruence].
  rewrite is_trading_time_micros. cbv zeta. unfold session_micros in Hs.
  rewrite andb_true_iff, orb_true_iff, !andb_true_iff, Z.ltb_lt, !Z.leb_le.
  tauto.
Qed.

(** A start on a weekday is moved, if at all, forward to a trading
    instant. *)
Lemma adjust_start_spec (ts : Q) :
  weekday (local_micros tz ts / 86400000000) < 5 ->
  exists ts',
    adjust_start tz ts = Some ts' /\
    is_trading_time tz ts' = true /\ (ts <= ts')%Q.
Proof.
  intro Hw. unfold adjust_start.
  destruct (is_trading_time tz ts) eqn:Etr; cbn [negb].
  { exists ts. split; [reflexivity|]. split; [exact Etr | lra]. }
  pose proof (not_trading_micros ts Etr Hw) as Hns.
  rewrite fromtimestamp_micros. cbv zeta. cbn [dt_date dt_hour dt_minute].
  set (us := local_micros tz ts) in *.
  assert (Hd : us = 86400000000 * (us / 86400000000) + us mod 86400000000)
    by (apply Z.div_mod; lia).
  assert (Hm : 0 <= us mod 86400000000 < 86400000000)
    by (apply Z.mod_pos_bound; lia).
  set (d := us / 86400000000) in *. set (m := us mod 86400000000) in *.
  assert (Hmin : us mod 3600000000 = m mod 3600000000).
  { rewrite Hd. Z.to_euclidean_division_equations. lia. }
  rewrite Hmin. unfold session_micros in Hns.
  destruct (Z_lt_le_dec m 34200000000) as [H1 | H1].
  { replace ((m / 3600000000 <? 9)
             || ((m / 3600000000 =? 9) && (m mod 3600000000 / 60000000 <? 30)))
      with true.
    2:{ symmetry. rewrite orb_true_iff, andb_true_iff, !Z.ltb_lt, Z.eqb_eq.
        Z.to_euclidean_division_equations. lia. }
    eexists. split; [reflexivity|]. split.
    - apply session_time_is_trading; [exact Hw | reflexivity | lia].
    - rewrite timestamp_strptime. apply instant_le_at_day. fold us. lia. }
  replace ((m / 3600000000 <? 9)
           || ((m / 3600000000 =? 9) && (m mod 3600000000 / 60000000 <? 30)))
    with false.
  2:{ symmetry. rewrite orb_false_iff, andb_false_iff, !Z.ltb_ge, Z.eqb_neq.
      Z.to_euclidean_division_equations. lia. }
  destruct (Z_lt_le_dec m 46800000000) as [H2 | H2].
  { replace (((m / 3600000000 =? 11) && (m mod 3600000000 / 60000000 >=? 30))
             || (m / 3600000000 =? 12)) with true.
    2:{ symmetry. rewrite orb_true_iff, andb_true_iff, Z.geb_leb, Z.leb_le,
          !Z.eqb_eq.
        Z.to_euclidean_division_equations. lia. }
    eexists. split; [reflexivity|]. split.
    - apply session_time_is_trading; [exact Hw | reflexivity | lia].
    - rewrite timestamp_strptime. apply instant_le_at_day. fold us. lia. }
  replace (((m / 3600000000 =? 11) && (m mod 3600000000 / 60000000 >=? 30))
           || (m / 3600000000 =? 12)) with false.
  2:{ symmetry. rewrite orb_false_iff, andb_false_iff, !Z.eqb_neq.
      Z.to_euclidean_division_equations. lia. }
  destruct (next_trading_day_spec d) as (p & -> & Hp & Hwp).
  eexists. split; [reflexivity|]. split.
  - apply session_time_is_trading; [exact Hwp | reflexivity | lia].
  - rewrite timestamp_strptime. apply instant_le_at_day. fold us. lia.
Qed.

(** From a trading instant the generator steps to a trading instant, at
    least the drawn increment later. *)
Lemma next_timestamp_spec (ts : Q) (inc : Z) :
  is_trading_time tz ts = true -> 30 <= inc <= 600 ->
  exists ts',
    next_timestamp tz ts inc = Some ts' /\
    is_trading_time tz ts' = true /\ (ts + inject_Z inc <= ts')%Q.
Proof.
  intros Htr Hinc. unfold next_timestamp.
  destruct (trading_micros ts Htr) as (Hw & Hs).
  destruct (is_trading_time tz (ts + inject_Z inc)) eqn:Etr'; cbn [negb].
  { eexists. split; [reflexivity|]. split; [exact Etr' | lra]. }
  pose proof (local_micros_shift tz ts inc) as Hshift.
  set (us := local_micros tz ts) in *.
  set (us' := local_micros tz (ts + inject_Z inc)) in *.
  assert (Hd : us = 86400000000 * (us / 86400000000) + us mod 86400000000)
    by (apply Z.div_mod; lia).
  unfold session_micros in Hs.
  assert (Hday : us' / 86400000000 = us / 86400000000)
    by (Z.to_euclidean_division_equations; lia).
  assert (Hmod : us' mod 86400000000 = us mod 86400000000 + inc * 1000000)
    by (Z.to_euclidean_division_equations; lia).
  assert (Hns : ~ session_micros (us' mod 86400000000)).
  { apply not_trading_micros; [exact Etr'|]. fold us'. now rewrite Hday. }
  unfold session_micros in Hns.
  rewrite fromtimestamp_micros. cbv zeta. cbn [dt_date dt_hour dt_minute].
  fold us'.
  assert (Hd' : us' = 86400000000 * (us' / 86400000000) + us' mod 86400000000)
    by (apply Z.div_mod; lia).
  assert (Hmin : us' mod 3600000000 = (us' mod 86400000000) mod 3600000000).
  { rewrite Hd' at 1. Z.to_euclidean_division_equations. lia. }
  rewrite Hmin, Hday.
  set (d := us / 86400000000) in *. set (m' := us' mod 86400000000) in *.
  set (m := us mod 86400000000) in *.
  destruct (Z_lt_le_dec m' 46800000000) as [H2 | H2].
  { replace (((m' / 3600000000 =? 11) && (m' mod 3600000000 / 60000000 >=? 30))
             || (m' / 3600000000 =? 12)) with true.
    2:{ symmetry. rewrite orb_true_iff, andb_true_iff, Z.geb_leb, Z.leb_le,
          !Z.eqb_eq.
        Z.to_euclidean_division_equations. lia. }
    eexists. split; [reflexivity|]. split.
    - apply session_time_is_trading; [exact Hw | reflexivity | lia].
    - rewrite timestamp_strptime. apply instant_le_at_day. fold us'. lia. }
  replace (((m' / 3600000000 =? 11) && (m' mod 3600000000 / 60000000 >=? 30))
           || (m' / 3600000000 =? 12)) with false.
  2:{ symmetry. rewrite orb_false_iff, andb_false_iff, !Z.eqb_neq.
      Z.to_euclidean_division_equations. lia. }
  replace ((m' / 3600000000 >=? 15) || (m' / 3600000000 <? 9)
           || ((m' / 3600000000 =? 9) && (m' mod 3600000000 / 60000000 <? 30)))
    with true.
  2:{ symmetry. rewrite !orb_true_iff, Z.geb_leb, Z.leb_le. left. left.
      Z.to_euclidean_division_equations. lia. }
  destruct (next_trading_day_spec d) as (p & -> & Hp & Hwp).
  eexists. split; [reflexivity|]. split.
  - apply session_time_is_trading; [exact Hwp | reflexivity | lia].
  - rewrite timestamp_strptime. apply instant_le_at_day. fold us'. lia.
Qed.
End DriverSteps.

(** ** The generated series *)

Lemma next_price_floor (price : Q) (d : Draw) :
  draw_ok d -> (90 <= next_price price d)%Q.
Proof.
  intros (_ & _ & Hb). unfold next_price.
  destruct (Qlt_bool _ 90) eqn:E.
  - lra.
  - now apply Qlt_bool_false_iff in E.
Qed.

Lemma StronglySorted_snoc {A : Type} (R : A -> A -> Prop) (l : list A) (x : A) :
  StronglySorted R l -> (forall y, In y l -> R y x) ->
  StronglySorted R (l ++ [x]).
Proof.
  induction 1 as [|y l Hl IH Hy]; intro Hx; cbn [app].
  - constructor; constructor.
  - constructor.
    + apply IH. intros z Hz. apply Hx. now right.
    + apply Forall_app. split; [exact Hy|].
      constructor; [apply Hx; now left | constructor].
Qed.

Lemma StronglySorted_before {A : Type} (R : A -> A -> Prop)
    (l1 l2 : list A) (x : A) :
  StronglySorted R (l1 ++ x :: l2) -> forall y, In y l1 -> R y x.
Proof.
  induction l1 as [|z l1 IH]; cbn [app]; intros H y Hy; [contradiction|].
  inversion H as [|? ? Hl Hall]; subst.
  destruct Hy as [<- | Hy].
  - rewrite Forall_forall in Hall. apply Hall, in_or_app. right. now left.
  - now apply IH.
Qed.

(** Spaced points are in time order already: sorting them by timestamp
    changes nothing. *)
Lemma sorted_spaced (data : list Sample) :
  spaced data -> sorted key_leb data = data.
Proof.
  induction 1 as [|x l Hl IH Hx]; cbn [sorted]; [reflexivity|].
  rewrite IH. destruct l as [|y l']; [reflexivity|].
  cbn [insert_sorted].
  replace (key_leb x y) with true; [reflexivity|].
  symmetry. unfold key_leb. apply Qle_bool_iff.
  rewrite Forall_forall in Hx. specialize (Hx y (or_introl eq_refl)). lra.
Qed.

Lemma generate_loop_spec (tz : Z) (start : Q) (draws : list Draw) :
  (forall d, In d draws -> draw_ok d) ->
  forall (ts price : Q) (data : list Sample),
    is_trading_time tz ts = true -> (start <= ts)%Q ->
    generated_ok tz start ts data ->
    exists data' ts',
      generate_loop tz draws ts price data = Some data' /\
      generated_ok tz start ts' data' /\
      length data' = (length data + length draws)%nat /\
      exists rest, data' = data ++ rest.
Proof.
  induction draws as [|d draws IH]; intros Hok ts price data Htr Hst Hgen;
    cbn [generate_loop].
  - exists data, ts. split; [reflexivity|]. split; [exact Hgen|].
    split; [cbn [length]; lia|]. exists []. now rewrite app_nil_r.
  - pose proof (Hok d (or_introl eq_refl)) as Hd.
    destruct (next_timestamp_spec tz ts (time_increment d) Htr (proj1 Hd))
      as (ts' & -> & Htr' & Hle).
    assert (Hinc : (30 <= inject_Z (time_increment d))%Q).
    { change 30%Q with (inject_Z 30). rewrite <- Zle_Qle.
      exact (proj1 (proj1 Hd)). }
    destruct (IH (fun d' H => Hok d' (or_intror H)) ts' (next_price price d)
                 (data ++ [(ts', next_price price d)]) Htr' ltac:(lra))
      as (data' & ts'' & E & Hgen' & Hlen & rest & Hrest).
    + destruct Hgen as (Hall & Hsp). split.
      * intros s Hs. apply in_app_or in Hs. destruct Hs as [Hs | [<- | []]].
        -- destruct (Hall s Hs) as (H1 & H2 & H3).
           split; [exact H1|]. split; [exact H2 | lra].
        -- cbn [fst snd]. split; [exact Htr'|].
           split; [now apply next_price_floor | lra].
      * apply StronglySorted_snoc; [exact Hsp|].
        intros y Hy. destruct (Hall y Hy) as (_ & _ & H3). cbn [fst]. lra.
    + exists data', ts''. split; [exact E|]. split; [exact Hgen'|]. split.
      * rewrite Hlen, length_app. cbn [length]. lia.
      * exists ((ts', next_price price d) :: rest).
        rewrite Hrest, <- app_assoc. reflexivity.
Qed.

Lemma generated_points_spec (tz : Z) (rng : Z -> Draw) (start : Q)
    (num_points : Z) :
  weekday (dt_date (fromtimestamp tz start)) < 5 ->
  (forall i, draw_ok (rng i)) ->
  exists data,
    generated_points tz rng start num_points = Some data /\
    (forall s, In s data ->
               is_trading_time tz (fst s) = true /\ (90 <= snd s)%Q /\
               (start <= fst s)%Q) /\
    spaced data /\
    Z.of_nat (length data) = Z.max 1 num_points /\
    exists s0 rest, data = s0 :: rest /\ snd s0 = 100%Q.
Proof.
  intros Hw Hrng. unfold generated_points.
  destruct (adjust_start_spec tz start Hw) as (ts0 & -> & Htr & Hle).
  cbv zeta.
  destruct (generate_loop_spec tz ts0
              (map rng (map (Z.add 1) (py_range (num_points - 1))))
              ltac:(intros d Hd; apply in_map_iff in Hd;
                    destruct Hd as (i & <- & _); apply Hrng)
              ts0 100 [(ts0, 100%Q)] Htr ltac:(lra))
    as (data & ts' & -> & (Hall & Hsp) & Hlen & rest & Hrest).
  { split.
    - intros s [<- | []]. cbn [fst snd]. split; [exact Htr|]. split; lra.
    - constructor; constructor. }
  exists data. split; [reflexivity|]. split; [|split; [exact Hsp|split]].
  - intros s Hs. destruct (Hall s Hs) as (H1 & H2 & H3).
    split; [exact H1|]. split; [exact H2 | lra].
  - rewrite Hlen. unfold py_range. rewrite !length_map, length_seq.
    cbn [length]. lia.
  - exists (ts0, 100%Q), rest. split; [exact Hrest | reflexivity].
Qed.

Lemma generate_test_data_spec (tz : Z) (rng : Z -> Draw) (start : Q)
    (num_points : Z) :
  weekday (dt_date (fromtimestamp tz start)) < 5 ->
  (forall i, draw_ok (rng i)) ->
  exists data,
    generate_test_data tz rng start num_points = Some data /\
    (forall s, In s data ->
               is_trading_time tz (fst s) = true /\ (90 <= snd s)%Q /\
               (start <= fst s)%Q) /\
    spaced data /\
    Z.of_nat (length data) = Z.max 1 num_points /\
    exists s0 rest, data = s0 :: rest /\ snd s0 = 100%Q.
Proof.
  intros Hw Hrng. unfold generate_test_data.
  destruct (generated_points_spec tz rng start num_points Hw Hrng)
    as (data & -> & Hall & Hsp & Hrest).
  rewrite (sorted_spaced data Hsp).
  exists data. split; [reflexivity|]. split; [exact Hall|].
  split; [exact Hsp | exact Hrest].
Qed.

(** X20: started on a weekday, the generator yields trading instants
    only, none before the start it was given. *)
Theorem generate_test_data_trading_instants (tz : Z) (rng : Z -> Draw)
    (start : Q) (num_points : Z) :
  weekday (dt_date (fromtimestamp tz start)) < 5 ->
  (forall i, draw_ok (rng i)) ->
  exists data,
    generate_test_data tz rng start num_points = Some data /\
    forall s, In s data ->
              is_trading_time tz (fst s) = true /\ (start <= fst s)%Q.
Proof.
  intros Hw Hrng.
  destruct (generate_test_data_spec tz rng start num_points Hw Hrng)
    as (data & E & Hall & _).
  exists data. split; [exact E|].
  intros s Hs. destruct (Hall s Hs) as (H1 & _ & H3). now split.
Qed.

Lemma generate_test_data_trading_instants_witness :
  exists data,
    generate_test_data 28800 (fun _ => mkDraw 300 (1 # 2) 5)
                       (inject_Z 1743730200) 3 = Some data /\
    forall s, In s data ->
              is_trading_time 28800 (fst s) = true
              /\ (inject_Z 1743730200 <= fst s)%Q.
Proof.
  apply generate_test_data_trading_instants.
  - vm_compute. reflexivity.
  - intro i. unfold draw_ok. cbn. repeat split; try lia; discriminate.
Defined.

(** X21: started on a weekday, the generator builds its points in time
    order, each at least 30 s after the one before: the list as it stands
    after the loop is spaced like that, and the final sort by timestamp
    returns that same list. *)
Theorem generate_test_data_spaced (tz : Z) (rng : Z -> Draw) (start : Q)
    (num_points : Z) :
  weekday (dt_date (fromtimestamp tz start)) < 5 ->
  (forall i, draw_ok (rng i)) ->
  exists data,
    generated_points tz rng start num_points = Some data /\
    spaced data /\
    generate_test_data tz rng start num_points = Some data.
Proof.
  intros Hw Hrng.
  destruct (generated_points_spec tz rng start num_points Hw Hrng)
    as (data & E & _ & Hsp & _).
  exists data. split; [exact E|]. split; [exact Hsp|].
  unfold generate_test_data. rewrite E.
  now rewrite (sorted_spaced data Hsp).
Qed.

Lemma generate_test_data_spaced_witness :
  exists data,
    generated_points 28800 (fun _ => mkDraw 300 (1 # 2) 5)
                     (inject_Z 1743730200) 3 = Some data /\
    spaced data /\
    generate_test_data 28800 (fun _ => mkDraw 300 (1 # 2) 5)
                       (inject_Z 1743730200) 3 = Some data.
Proof.
  apply generate_test_data_spaced.
  - vm_compute. reflexivity.
  - intro i. unfold draw_ok. cbn. repeat split; try lia; discriminate.
Defined.

(** X22: started on a weekday, the generator yields prices of at least 90,
    the first of them 100. *)
Theorem generate_test_data_prices (tz : Z) (rng : Z -> Draw) (start : Q)
    (num_points : Z) :
  weekday (dt_date (fromtimestamp tz start)) < 5 ->
  (forall i, draw_ok (rng i)) ->
  exists data,
    generate_test_data tz rng start num_points = Some data /\
    (forall s, In s data -> (90 <= snd s)%Q) /\
    exists s0 rest, data = s0 :: rest /\ snd s0 = 100%Q.
Proof.
  intros Hw Hrng.
  destruct (generate_test_data_spec tz rng start num_points Hw Hrng)
    as (data & E & Hall & _ & _ & Hfirst).
  exists data. split; [exact E|]. split; [|exact Hfirst].
  intros s Hs. now destruct (Hall s Hs) as (_ & H2 & _).
Qed.

Lemma generate_test_data_prices_witness :
  exists data,
    generate_test_data 28800 (fun _ => mkDraw 300 (1 # 2) 5)
                       (inject_Z 1743730200) 3 = Some data /\
    (forall s, In s data -> (90 <= snd s)%Q) /\
    exists s0 rest, data = s0 :: rest /\ snd s0 = 100%Q.
Proof.
  apply generate_test_data_prices.
  - vm_compute. reflexivity.
  - intro i. unfold draw_ok. cbn. repeat split; try lia; discriminate.
Defined.

(** X23: started on a weekday, the generator yields as many points as
    asked for, and one point when asked for none or fewer. *)
Theorem generate_test_data_length (tz : Z) (rng : Z -> Draw) (start : Q)
    (num_points : Z) :
  weekday (dt_date (fromtimestamp tz start)) < 5 ->
  (forall i, draw_ok (rng i)) ->
  exists data,
    generate_test_data tz rng start num_points = Some data /\
    Z.of_nat (length data) = Z.max 1 num_points.
Proof.
  intros Hw Hrng.
  destruct (generate_test_data_spec tz rng start num_points Hw Hrng)
    as (data & E & _ & _ & Hlen & _).
  exists data. now split.
Qed.

Lemma generate_test_data_length_witness :
  exists data,
    generate_test_data 28800 (fun _ => mkDraw 300 (1 # 2) 5)
                       (inject_Z 1743730200) 0 = Some data /\
    Z.of_nat (length data) = Z.max 1 0.
Proof.
  apply generate_test_data_length.
  - vm_compute. reflexivity.
  - intro i. unfold draw_ok. cbn. repeat split; try lia; discriminate.
Defined.

(** ** The start time of the driver *)

Lemma time_micros_fromtimestamp (tz : Z) (ts : Q) :
  time_micros (fromtimestamp tz ts) = local_micros tz ts mod 86400000000.
Proof.
  rewrite fromtimestamp_micros. cbv zeta. unfold time_micros.
  cbn [dt_hour dt_minute dt_second dt_microsecond].
  set (us := local_micros tz ts).
  Z.to_euclidean_division_equations. lia.
Qed.

Section MainStart.
Variable tz : Z.

(** [main_start] with the user agreeing, in terms of the local
    microseconds of the start. *)
Lemma main_start_micros (ts : Q) :
  is_trading_time tz ts = false ->
  main_start tz true ts =
  let us := local_micros tz ts in
  let m := us mod 86400000000 in
  if m <? 34200000000 then
    Some (Some (timestamp tz (strptime (us / 86400000000) (9, 30, 0))))
  else if (41400000000 <? m) && (m <? 46800000000) then
    Some (Some (timestamp tz (strptime (us / 86400000000) (13, 0, 0))))
  else if 54000000000 <? m then
    match next_trading_day (us / 86400000000) with
    | Some next_day => Some (Some (timestamp tz (strptime next_day (9, 30, 0))))
    | None => None
    end
  else Some None.
Proof.
  intro Hn. unfold main_start. rewrite Hn. cbn [negb]. cbv zeta.
  rewrite time_micros_fromtimestamp. reflexivity.
Qed.


Lemma main_start_gives_up_iff (ts : Q) :
  main_start tz true ts = Some None <->
  5 <= weekday (local_micros tz ts / 86400000000) /\
  session_micros (local_micros tz ts mod 86400000000).
Proof.
  destruct (is_trading_time tz ts) eqn:Etr.
  { unfold main_start. rewrite Etr. cbn [negb].
    destruct (trading_micros tz ts Etr) as (Hw & _).
    split; [discriminate | lia]. }
  rewrite (main_start_micros ts Etr). cbv zeta.
  assert (Hns : weekday (local_micros tz ts / 86400000000) < 5 ->
                ~ session_micros (local_micros tz ts mod 86400000000))
    by (apply not_trading_micros; exact Etr).
  set (us := local_micros tz ts) in *.
  assert (Hm : 0 <= us mod 86400000000 < 86400000000)
    by (apply Z.mod_pos_bound; lia).
  set (d := us / 86400000000) in *. set (m := us mod 86400000000) in *.
  unfold session_micros in *.
  destruct (Z.ltb_spec m 34200000000) as [H1 | H1].
  { split; [discriminate | lia]. }
  destruct (Z.ltb_spec 41400000000 m) as [H2 | H2];
    destruct (Z.ltb_spec m 46800000000) as [H3 | H3]; cbn [andb];
    try (split; [discriminate | lia]);
    (destruct (Z.ltb_spec 54000000000 m) as [H4 | H4];
     [destruct (next_trading_day_spec d) as (p & -> & _);
      split; [discriminate | lia]
     |split; [intros _; lia | reflexivity]]).
Qed.
End MainStart.



(** X25: the branch of the adjustment marked as not to be reached, which
    makes the driver stop, is taken exactly for a start on a Saturday or
    Sunday whose time of day lies within a session. *)
Theorem main_start_gives_up (tz : Z) (ts : Q) :
  main_start tz true ts = Some None <->
  5 <= weekday (local_micros tz ts / 86400000000) /\
  session_micros (local_micros tz ts mod 86400000000).
Proof. apply main_start_gives_up_iff. Qed.

(** ** The driver never shows an empty window *)

Lemma prices_bounded (l : list Sample) :
  exists hi : Q, (90 <= hi)%Q /\ forall u, In u l -> (snd u <= hi)%Q.
Proof.
  induction l as [|x l (hi & H90 & Hhi)].
  - exists 90%Q. split; [lra | intros u []].
  - destruct (Qlt_le_dec hi (snd x)) as [Hlt | Hle].
    + exists (snd x). split; [lra|].
      intros u [<- | Hu]; [lra|]. specialize (Hhi u Hu). lra.
    + exists hi. split; [exact H90|].
      intros u [<- | Hu]; [exact Hle | now apply Hhi].
Qed.

(** X26: the driver loop on generated data.  For a start after the epoch
    on a weekday, every Update of the generated series succeeds, and the
    Get that follows it returns at least 90: no line of the run shows
    the 0 of an empty window. *)
Theorem driver_means_at_least_90 (tz nb : Z) (w : Q) (rng : Z -> Draw)
    (start : Q) (num_points : Z) :
  1 <= nb -> (0 <= w)%Q -> (0 < start)%Q ->
  weekday (dt_date (fromtimestamp tz start)) < 5 ->
  (forall i, draw_ok (rng i)) ->
  exists data,
    generate_test_data tz rng start num_points = Some data /\
    forall ups t v rest,
      data = ups ++ (t, v) :: rest ->
      exists st,
        Updates (init nb w) (ups ++ [(t, v)]) = Some st /\
        forall fuel, (enough_fuel tz st <= fuel)%nat ->
                     exists r, Get tz fuel st = Some r /\ (90 <= r)%Q.
Proof.
  intros Hnb Hw Hstart Hwd Hrng.
  destruct (generate_test_data_spec tz rng start num_points Hwd Hrng)
    as (data & E & Hall & Hsp & _).
  exists data. split; [exact E|].
  intros ups t v rest Hdata.
  assert (Hin : forall u, In u (ups ++ [(t, v)]) -> In u data).
  { intros u Hu. rewrite Hdata. apply in_app_or in Hu. apply in_or_app.
    destruct Hu as [Hu | [<- | []]]; [now left | right; now left]. }
  destruct (prices_bounded (ups ++ [(t, v)])) as (hi & _ & Hhi).
  destruct (Hall (t, v) (Hin _ ltac:(apply in_or_app; right; now left)))
    as (Htr & _ & Hst). cbn [fst] in Htr, Hst.
  destruct (Get_after_Update_range tz nb w ups t v 90 hi) as (st & Est & Hget);
    try assumption; try lra.
  - intros u Hu. unfold spaced in Hsp. rewrite Hdata in Hsp.
    pose proof (StronglySorted_before _ _ _ _ Hsp u Hu) as H.
    cbn [fst] in H. lra.
  - intros u Hu. split; [|now apply Hhi].
    now destruct (Hall u (Hin u Hu)) as (_ & H2 & _).
  - exists st. split; [exact Est|].
    intros fuel Hfuel. destruct (Hget fuel Hfuel) as (r & Er & Hr & _).
    exists r. now split.
Qed.

Lemma driver_means_at_least_90_witness :
  exists data,
    generate_test_data 28800 (fun _ => mkDraw 300 (1 # 2) 5)
                       (inject_Z 1743730200) 3 = Some data /\
    forall ups t v rest,
      data = ups ++ (t, v) :: rest ->
      exists st,
        Updates (init 10 1000) (ups ++ [(t, v)]) = Some st /\
        forall fuel, (enough_fuel 28800 st <= fuel)%nat ->
                     exists r, Get 28800 fuel st = Some r /\ (90 <= r)%Q.
Proof.
  apply driver_means_at_least_90.
  - lia.
  - vm_compute. discriminate.
  - reflexivity.
  - vm_compute. reflexivity.
  - intro i. unfold draw_ok. cbn. repeat split; try lia; discriminate.
Defined.
